(** * A shallow embedding of the retrieval pipeline of the medical chatbot

    The development follows src/core: [config.py], [vector_search.py],
    [cross_encoder_ranker.py], [llm_generator.py] and [query_pipeline.py].

    Modelling conventions.
    - A Python [str] is a list of Unicode code points, so that [len], slicing
      and [strip] count what Python counts.
    - A Python [float] is held as the exact rational that it denotes
      ([Qc]), so comparisons are exact; the one arithmetic operation of the
      code, the subtraction of two readings of the clock, rounds to the
      nearest binary64 number ([float_sub]).  There is no NaN and no
      infinity: scores and readings are finite, and a difference of
      readings stays below the overflow threshold.  A Python [int] is a [Z].
    - The subgraph dictionaries handed from stage to stage are mutable and
      shared, so they live in a store and the lists hold references to them.
    - The embedding model, the graph database, the cross-encoder, the
      generation service and the wall clock are oracles gathered in a
      [World]; every oracle may raise.
    - Exceptions are the instances of Python's [Exception]; logging and
      console output are not modelled, so [process_query] stands for the
      calls with [verbose=False] (see there). *)

From Stdlib Require Import QArith Qcanon Lqa.
From stdpp Require Import base numbers list sorting strings gmap pretty.

Set Default Proof Using "Type".

(** ** Strings *)

Definition char := N.
Definition str := list char.

(** An ASCII literal as a [str]. *)
Fixpoint lit (s : string) : str :=
  match s with
  | EmptyString => []
  | String a s' => Ascii.N_of_ascii a :: lit s'
  end.

Definition NL : str := [10%N].
Definition DQUOTE : str := [34%N].
(** U+2500, the box-drawing dash used as a separator. *)
Definition BOX_DASH : str := [9472%N].

(** [s * n] *)
Definition str_repeat (s : str) (n : nat) : str := concat (replicate n s).

(** [sep.join(parts)] *)
Fixpoint str_join (sep : str) (parts : list str) : str :=
  match parts with
  | [] => []
  | [p] => p
  | p :: ps => p ++ sep ++ str_join sep ps
  end.

(** [c.isspace()] for a single code point. *)
Definition isspace (c : char) : bool :=
  ((9 <=? c) && (c <=? 13) || (28 <=? c) && (c <=? 32)
   || (c =? 133) || (c =? 160) || (c =? 5760)
   || (8192 <=? c) && (c <=? 8202)
   || (c =? 8232) || (c =? 8233) || (c =? 8239) || (c =? 8287)
   || (c =? 12288))%N.

Fixpoint lstrip (s : str) : str :=
  match s with
  | [] => []
  | c :: s' => if isspace c then lstrip s' else s
  end.

(** [s.strip()] *)
Definition strip (s : str) : str := reverse (lstrip (reverse (lstrip s))).

(** [l[:stop]], with Python's reading of a negative [stop]. *)
Definition slice_to {A} (l : list A) (stop : Z) : list A :=
  if (0 <=? stop)%Z then take (Z.to_nat stop) l
  else take (length l - Z.to_nat (- stop)) l.

(** [str(n)] for an [int]. *)
Definition str_int (n : Z) : str := lit (pretty n).

(** *** [repr] of a string *)

(** The code points from U+0080 on that [str.isprintable] refuses, as
    closed ranges: the categories Cc, Cf, Cs, Co, Cn, Zl, Zp and Zs of the
    Unicode database 14.0, which is the one of CPython 3.11. *)
Definition NON_PRINTABLE : list (N * N) := [
  (128, 160); (173, 173); (888, 889); (896, 899); (907, 907); (909, 909);
  (930, 930); (1328, 1328); (1367, 1368); (1419, 1420); (1424, 1424);
  (1480, 1487); (1515, 1518); (1525, 1541); (1564, 1564); (1757, 1757);
  (1806, 1807); (1867, 1868); (1970, 1983); (2043, 2044); (2094, 2095);
  (2111, 2111); (2140, 2141); (2143, 2143); (2155, 2159); (2191, 2199);
  (2274, 2274); (2436, 2436); (2445, 2446); (2449, 2450); (2473, 2473);
  (2481, 2481); (2483, 2485); (2490, 2491); (2501, 2502); (2505, 2506);
  (2511, 2518); (2520, 2523); (2526, 2526); (2532, 2533); (2559, 2560);
  (2564, 2564); (2571, 2574); (2577, 2578); (2601, 2601); (2609, 2609);
  (2612, 2612); (2615, 2615); (2618, 2619); (2621, 2621); (2627, 2630);
  (2633, 2634); (2638, 2640); (2642, 2648); (2653, 2653); (2655, 2661);
  (2679, 2688); (2692, 2692); (2702, 2702); (2706, 2706); (2729, 2729);
  (2737, 2737); (2740, 2740); (2746, 2747); (2758, 2758); (2762, 2762);
  (2766, 2767); (2769, 2783); (2788, 2789); (2802, 2808); (2816, 2816);
  (2820, 2820); (2829, 2830); (2833, 2834); (2857, 2857); (2865, 2865);
  (2868, 2868); (2874, 2875); (2885, 2886); (2889, 2890); (2894, 2900);
  (2904, 2907); (2910, 2910); (2916, 2917); (2936, 2945); (2948, 2948);
  (2955, 2957); (2961, 2961); (2966, 2968); (2971, 2971); (2973, 2973);
  (2976, 2978); (2981, 2983); (2987, 2989); (3002, 3005); (3011, 3013);
  (3017, 3017); (3022, 3023); (3025, 3030); (3032, 3045); (3067, 3071);
  (3085, 3085); (3089, 3089); (3113, 3113); (3130, 3131); (3141, 3141);
  (3145, 3145); (3150, 3156); (3159, 3159); (3163, 3164); (3166, 3167);
  (3172, 3173); (3184, 3190); (3213, 3213); (3217, 3217); (3241, 3241);
  (3252, 3252); (3258, 3259); (3269, 3269); (3273, 3273); (3278, 3284);
  (3287, 3292); (3295, 3295); (3300, 3301); (3312, 3312); (3315, 3327);
  (3341, 3341); (3345, 3345); (3397, 3397); (3401, 3401); (3408, 3411);
  (3428, 3429); (3456, 3456); (3460, 3460); (3479, 3481); (3506, 3506);
  (3516, 3516); (3518, 3519); (3527, 3529); (3531, 3534); (3541, 3541);
  (3543, 3543); (3552, 3557); (3568, 3569); (3573, 3584); (3643, 3646);
  (3676, 3712); (3715, 3715); (3717, 3717); (3723, 3723); (3748, 3748);
  (3750, 3750); (3774, 3775); (3781, 3781); (3783, 3783); (3790, 3791);
  (3802, 3803); (3808, 3839); (3912, 3912); (3949, 3952); (3992, 3992);
  (4029, 4029); (4045, 4045); (4059, 4095); (4294, 4294); (4296, 4300);
  (4302, 4303); (4681, 4681); (4686, 4687); (4695, 4695); (4697, 4697);
  (4702, 4703); (4745, 4745); (4750, 4751); (4785, 4785); (4790, 4791);
  (4799, 4799); (4801, 4801); (4806, 4807); (4823, 4823); (4881, 4881);
  (4886, 4887); (4955, 4956); (4989, 4991); (5018, 5023); (5110, 5111);
  (5118, 5119); (5760, 5760); (5789, 5791); (5881, 5887); (5910, 5918);
  (5943, 5951); (5972, 5983); (5997, 5997); (6001, 6001); (6004, 6015);
  (6110, 6111); (6122, 6127); (6138, 6143); (6158, 6158); (6170, 6175);
  (6265, 6271); (6315, 6319); (6390, 6399); (6431, 6431); (6444, 6447);
  (6460, 6463); (6465, 6467); (6510, 6511); (6517, 6527); (6572, 6575);
  (6602, 6607); (6619, 6621); (6684, 6685); (6751, 6751); (6781, 6782);
  (6794, 6799); (6810, 6815); (6830, 6831); (6863, 6911); (6989, 6991);
  (7039, 7039); (7156, 7163); (7224, 7226); (7242, 7244); (7305, 7311);
  (7355, 7356); (7368, 7375); (7419, 7423); (7958, 7959); (7966, 7967);
  (8006, 8007); (8014, 8015); (8024, 8024); (8026, 8026); (8028, 8028);
  (8030, 8030); (8062, 8063); (8117, 8117); (8133, 8133); (8148, 8149);
  (8156, 8156); (8176, 8177); (8181, 8181); (8191, 8207); (8232, 8239);
  (8287, 8303); (8306, 8307); (8335, 8335); (8349, 8351); (8385, 8399);
  (8433, 8447); (8588, 8591); (9255, 9279); (9291, 9311); (11124, 11125);
  (11158, 11158); (11508, 11512); (11558, 11558); (11560, 11564);
  (11566, 11567); (11624, 11630); (11633, 11646); (11671, 11679);
  (11687, 11687); (11695, 11695); (11703, 11703); (11711, 11711);
  (11719, 11719); (11727, 11727); (11735, 11735); (11743, 11743);
  (11870, 11903); (11930, 11930); (12020, 12031); (12246, 12271);
  (12284, 12288); (12352, 12352); (12439, 12440); (12544, 12548);
  (12592, 12592); (12687, 12687); (12772, 12783); (12831, 12831);
  (42125, 42127); (42183, 42191); (42540, 42559); (42744, 42751);
  (42955, 42959); (42962, 42962); (42964, 42964); (42970, 42993);
  (43053, 43055); (43066, 43071); (43128, 43135); (43206, 43213);
  (43226, 43231); (43348, 43358); (43389, 43391); (43470, 43470);
  (43482, 43485); (43519, 43519); (43575, 43583); (43598, 43599);
  (43610, 43611); (43715, 43738); (43767, 43776); (43783, 43784);
  (43791, 43792); (43799, 43807); (43815, 43815); (43823, 43823);
  (43884, 43887); (44014, 44015); (44026, 44031); (55204, 55215);
  (55239, 55242); (55292, 63743); (64110, 64111); (64218, 64255);
  (64263, 64274); (64280, 64284); (64311, 64311); (64317, 64317);
  (64319, 64319); (64322, 64322); (64325, 64325); (64451, 64466);
  (64912, 64913); (64968, 64974); (64976, 65007); (65050, 65055);
  (65107, 65107); (65127, 65127); (65132, 65135); (65141, 65141);
  (65277, 65280); (65471, 65473); (65480, 65481); (65488, 65489);
  (65496, 65497); (65501, 65503); (65511, 65511); (65519, 65531);
  (65534, 65535); (65548, 65548); (65575, 65575); (65595, 65595);
  (65598, 65598); (65614, 65615); (65630, 65663); (65787, 65791);
  (65795, 65798); (65844, 65846); (65935, 65935); (65949, 65951);
  (65953, 65999); (66046, 66175); (66205, 66207); (66257, 66271);
  (66300, 66303); (66340, 66348); (66379, 66383); (66427, 66431);
  (66462, 66462); (66500, 66503); (66518, 66559); (66718, 66719);
  (66730, 66735); (66772, 66775); (66812, 66815); (66856, 66863);
  (66916, 66926); (66939, 66939); (66955, 66955); (66963, 66963);
  (66966, 66966); (66978, 66978); (66994, 66994); (67002, 67002);
  (67005, 67071); (67383, 67391); (67414, 67423); (67432, 67455);
  (67462, 67462); (67505, 67505); (67515, 67583); (67590, 67591);
  (67593, 67593); (67638, 67638); (67641, 67643); (67645, 67646);
  (67670, 67670); (67743, 67750); (67760, 67807); (67827, 67827);
  (67830, 67834); (67868, 67870); (67898, 67902); (67904, 67967);
  (68024, 68027); (68048, 68049); (68100, 68100); (68103, 68107);
  (68116, 68116); (68120, 68120); (68150, 68151); (68155, 68158);
  (68169, 68175); (68185, 68191); (68256, 68287); (68327, 68330);
  (68343, 68351); (68406, 68408); (68438, 68439); (68467, 68471);
  (68498, 68504); (68509, 68520); (68528, 68607); (68681, 68735);
  (68787, 68799); (68851, 68857); (68904, 68911); (68922, 69215);
  (69247, 69247); (69290, 69290); (69294, 69295); (69298, 69375);
  (69416, 69423); (69466, 69487); (69514, 69551); (69580, 69599);
  (69623, 69631); (69710, 69713); (69750, 69758); (69821, 69821);
  (69827, 69839); (69865, 69871); (69882, 69887); (69941, 69941);
  (69960, 69967); (70007, 70015); (70112, 70112); (70133, 70143);
  (70162, 70162); (70207, 70271); (70279, 70279); (70281, 70281);
  (70286, 70286); (70302, 70302); (70314, 70319); (70379, 70383);
  (70394, 70399); (70404, 70404); (70413, 70414); (70417, 70418);
  (70441, 70441); (70449, 70449); (70452, 70452); (70458, 70458);
  (70469, 70470); (70473, 70474); (70478, 70479); (70481, 70486);
  (70488, 70492); (70500, 70501); (70509, 70511); (70517, 70655);
  (70748, 70748); (70754, 70783); (70856, 70863); (70874, 71039);
  (71094, 71095); (71134, 71167); (71237, 71247); (71258, 71263);
  (71277, 71295); (71354, 71359); (71370, 71423); (71451, 71452);
  (71468, 71471); (71495, 71679); (71740, 71839); (71923, 71934);
  (71943, 71944); (71946, 71947); (71956, 71956); (71959, 71959);
  (71990, 71990); (71993, 71994); (72007, 72015); (72026, 72095);
  (72104, 72105); (72152, 72153); (72165, 72191); (72264, 72271);
  (72355, 72367); (72441, 72703); (72713, 72713); (72759, 72759);
  (72774, 72783); (72813, 72815); (72848, 72849); (72872, 72872);
  (72887, 72959); (72967, 72967); (72970, 72970); (73015, 73017);
  (73019, 73019); (73022, 73022); (73032, 73039); (73050, 73055);
  (73062, 73062); (73065, 73065); (73103, 73103); (73106, 73106);
  (73113, 73119); (73130, 73439); (73465, 73647); (73649, 73663);
  (73714, 73726); (74650, 74751); (74863, 74863); (74869, 74879);
  (75076, 77711); (77811, 77823); (78895, 82943); (83527, 92159);
  (92729, 92735); (92767, 92767); (92778, 92781); (92863, 92863);
  (92874, 92879); (92910, 92911); (92918, 92927); (92998, 93007);
  (93018, 93018); (93026, 93026); (93048, 93052); (93072, 93759);
  (93851, 93951); (94027, 94030); (94088, 94094); (94112, 94175);
  (94181, 94191); (94194, 94207); (100344, 100351); (101590, 101631);
  (101641, 110575); (110580, 110580); (110588, 110588); (110591, 110591);
  (110883, 110927); (110931, 110947); (110952, 110959); (111356, 113663);
  (113771, 113775); (113789, 113791); (113801, 113807); (113818, 113819);
  (113824, 118527); (118574, 118575); (118599, 118607); (118724, 118783);
  (119030, 119039); (119079, 119080); (119155, 119162); (119275, 119295);
  (119366, 119519); (119540, 119551); (119639, 119647); (119673, 119807);
  (119893, 119893); (119965, 119965); (119968, 119969); (119971, 119972);
  (119975, 119976); (119981, 119981); (119994, 119994); (119996, 119996);
  (120004, 120004); (120070, 120070); (120075, 120076); (120085, 120085);
  (120093, 120093); (120122, 120122); (120127, 120127); (120133, 120133);
  (120135, 120137); (120145, 120145); (120486, 120487); (120780, 120781);
  (121484, 121498); (121504, 121504); (121520, 122623); (122655, 122879);
  (122887, 122887); (122905, 122906); (122914, 122914); (122917, 122917);
  (122923, 123135); (123181, 123183); (123198, 123199); (123210, 123213);
  (123216, 123535); (123567, 123583); (123642, 123646); (123648, 124895);
  (124903, 124903); (124908, 124908); (124911, 124911); (124927, 124927);
  (125125, 125126); (125143, 125183); (125260, 125263); (125274, 125277);
  (125280, 126064); (126133, 126208); (126270, 126463); (126468, 126468);
  (126496, 126496); (126499, 126499); (126501, 126502); (126504, 126504);
  (126515, 126515); (126520, 126520); (126522, 126522); (126524, 126529);
  (126531, 126534); (126536, 126536); (126538, 126538); (126540, 126540);
  (126544, 126544); (126547, 126547); (126549, 126550); (126552, 126552);
  (126554, 126554); (126556, 126556); (126558, 126558); (126560, 126560);
  (126563, 126563); (126565, 126566); (126571, 126571); (126579, 126579);
  (126584, 126584); (126589, 126589); (126591, 126591); (126602, 126602);
  (126620, 126624); (126628, 126628); (126634, 126634); (126652, 126703);
  (126706, 126975); (127020, 127023); (127124, 127135); (127151, 127152);
  (127168, 127168); (127184, 127184); (127222, 127231); (127406, 127461);
  (127491, 127503); (127548, 127551); (127561, 127567); (127570, 127583);
  (127590, 127743); (128728, 128732); (128749, 128751); (128765, 128767);
  (128884, 128895); (128985, 128991); (129004, 129007); (129009, 129023);
  (129036, 129039); (129096, 129103); (129114, 129119); (129160, 129167);
  (129198, 129199); (129202, 129279); (129620, 129631); (129646, 129647);
  (129653, 129655); (129661, 129663); (129671, 129679); (129709, 129711);
  (129723, 129727); (129734, 129743); (129754, 129759); (129768, 129775);
  (129783, 129791); (129939, 129939); (129995, 130031); (130042, 131071);
  (173792, 173823); (177977, 177983); (178206, 178207); (183970, 183983);
  (191457, 194559); (195102, 196607); (201547, 917759); (918000, 1114111)
]%N.

(** [c.isprintable()] for a single code point. *)
Definition isprintable (c : char) : bool :=
  if (c <? 128)%N then (32 <=? c)%N && (c <? 127)%N
  else negb (existsb (λ r, (r.1 <=? c)%N && (c <=? r.2)%N) NON_PRINTABLE).

Definition hex_digit (d : N) : char :=
  (if d <? 10 then 48 + d else 87 + d)%N.

(** The last [width] hexadecimal digits of [c], in lower case. *)
Fixpoint hex (width : nat) (c : N) : str :=
  match width with
  | 0 => []
  | S width' => hex width' (c / 16)%N ++ [hex_digit (c mod 16)%N]
  end.

(** What [repr] writes for one code point between the quotes [quote]. *)
Definition repr_char (quote c : char) : str :=
  (* Escape quotes and backslashes *)
  if (c =? quote)%N || (c =? 92)%N then [92%N; c]
  (* Map special whitespace to '\t', '\n', '\r' *)
  else if (c =? 9)%N then lit "\t"
  else if (c =? 10)%N then lit "\n"
  else if (c =? 13)%N then lit "\r"
  (* Map non-printable US ASCII to '\xhh' *)
  else if (c <? 32)%N || (c =? 127)%N then lit "\x" ++ hex 2 c
  (* Copy ASCII characters as-is *)
  else if (c <? 127)%N then [c]
  (* Non-ASCII characters *)
  else if isprintable c then [c]
  else if (c <=? 255)%N then lit "\x" ++ hex 2 c
  else if (c <=? 65535)%N then lit "\u" ++ hex 4 c
  else lit "\U" ++ hex 8 c.

(** [repr(s)] for a [str]: between apostrophes, or between double quotes
    when [s] holds an apostrophe and no double quote. *)
Definition repr (s : str) : str :=
  let quote : char :=
    if bool_decide (39%N ∈ s) && negb (bool_decide (34%N ∈ s))
    then 34%N else 39%N in
  [quote] ++ concat (repr_char quote <$> s) ++ [quote].

(** ** Floats *)

Definition float := Qc.

Definition float_zero : float := Q2Qc 0.

(** [round(num / den)] to the nearest integer, ties to the even one, for
    [0 <= num] and [0 < den]. *)
Definition round_half_even (num den : Z) : Z :=
  let quotient := (num / den)%Z in
  let remainder := (num mod den)%Z in
  if (2 * remainder <? den)%Z then quotient
  else if (den <? 2 * remainder)%Z then (quotient + 1)%Z
  else if Z.even quotient then quotient else (quotient + 1)%Z.

(** The binary64 number nearest to a rational, ties to the even
    significand: 53 bits of significand above the exponent -1074 of the
    subnormal numbers.  Overflow is left out: the result of a number beyond
    the largest binary64 number is its rounding to 53 bits. *)
Definition round_binary64 (x : Q) : Q :=
  let a := Z.abs (Qnum x) in
  let d := Zpos (Qden x) in
  if (a =? 0)%Z then 0%Q else
  (* floor (log2 (a / d)) *)
  let k := (Z.log2 a - Z.log2 d)%Z in
  let lg :=
    if (d * 2 ^ Z.max 0 k <=? a * 2 ^ Z.max 0 (- k))%Z then k else (k - 1)%Z in
  (* the exponent of the last bit of the significand *)
  let e := Z.max (lg - 52) (-1074) in
  let m := round_half_even (a * 2 ^ Z.max 0 (- e)) (d * 2 ^ Z.max 0 e) in
  Qmake (Z.sgn (Qnum x) * m * 2 ^ Z.max 0 e) (Z.to_pos (2 ^ Z.max 0 (- e))).

(** [a - b] on floats. *)
Definition float_sub (a b : float) : float :=
  Q2Qc (round_binary64 (this a - this b)).

(** ** Exceptions and results *)

Inductive exn :=
  | KeyError (key : str)     (* KeyError(key) for a key that is a str *)
  | AttributeError (msg : str)
  | Timeout (msg : str)      (* requests.exceptions.Timeout *)
  | Exception (msg : str).   (* any other instance of Exception *)

(** [str(e)]: the message, which for a [KeyError] is [repr(key)]. *)
Definition str_exn (e : exn) : str :=
  match e with
  | KeyError key => repr key
  | AttributeError msg | Timeout msg | Exception msg => msg
  end.

Inductive Res (A : Type) :=
  | Ok (a : A)
  | Raise (e : exn).
Arguments Ok {A} a.
Arguments Raise {A} e.

(** ** The monad of Python statements over a state [Σ]

    A raised exception keeps the state reached so far: what was mutated
    before the raise stays mutated. *)

Definition M (Σ A : Type) : Type := Σ → Res A * Σ.

Definition ret {Σ A} (a : A) : M Σ A := λ s, (Ok a, s).

Definition bind {Σ A B} (m : M Σ A) (k : A → M Σ B) : M Σ B :=
  λ s, match m s with
       | (Ok a, s') => k a s'
       | (Raise e, s') => (Raise e, s')
       end.

Definition raise {Σ A} (e : exn) : M Σ A := λ s, (Raise e, s).

(** [try: body except Exception as e: handler e] *)
Definition try_except {Σ A} (body : M Σ A) (handler : exn → M Σ A) : M Σ A :=
  λ s, match body s with
       | (Ok a, s') => (Ok a, s')
       | (Raise e, s') => handler e s'
       end.

Definition get {Σ} : M Σ Σ := λ s, (Ok s, s).
Definition modify {Σ} (f : Σ → Σ) : M Σ unit := λ s, (Ok tt, f s).

(** An oracle's answer turned into a statement. *)
Definition of_res {Σ A} (r : Res A) : M Σ A := λ s, (r, s).

Declare Scope py_scope.
Delimit Scope py_scope with py.
Notation "x ← m ; k" := (bind m (λ x, k))
  (at level 20, m at level 100, k at level 200, only parsing) : py_scope.
Notation "m ;; k" := (bind m (λ _, k))
  (at level 100, k at level 200, right associativity) : py_scope.
Local Open Scope py_scope.

(** [for x in xs: f x], collecting the results. *)
Fixpoint for_each {Σ A B} (f : A → M Σ B) (xs : list A) : M Σ (list B) :=
  match xs with
  | [] => ret []
  | x :: xs' => y ← f x; ys ← for_each f xs'; ret (y :: ys)
  end.

(** ** Configuration (config.py)

    The functions read the module attributes at call time, so the
    configuration is a parameter; [config] holds the shipped values. *)

Record Config := {
  TOP_K_VECTOR_SEARCH : Z;
  VECTOR_INDEX_NAME : str;
  TOP_N_RERANKED : Z;
  OLLAMA_MODEL : str;
  OLLAMA_API_URL : str;
  OLLAMA_TEMPERATURE : float;
  OLLAMA_MAX_TOKENS : Z;
  SYSTEM_PROMPT : str;
  ENHANCED_CONTEXT_FORMAT : bool;
  MIN_SIMILARITY_THRESHOLD : float;
  MAX_CONTEXT_LENGTH : Z
}.

Definition config : Config := {|
  TOP_K_VECTOR_SEARCH := 10;
  VECTOR_INDEX_NAME := lit "section_embeddings";
  TOP_N_RERANKED := 3;
  OLLAMA_MODEL := lit "mistral:7b";
  OLLAMA_API_URL := lit "http://localhost:11434/api/generate";
  OLLAMA_TEMPERATURE := Q2Qc (1 # 10);
  OLLAMA_MAX_TOKENS := 1000;
  SYSTEM_PROMPT :=
    lit "You are a medical information assistant that provides accurate, fact-based answers.

CRITICAL RULES:
1. Answer ONLY using the provided context from the knowledge base
2. If information is not in the context, say " ++ DQUOTE
    ++ lit "I don't have that information in my knowledge base" ++ DQUOTE
    ++ lit "
3. Never make up or infer information not explicitly stated in the context
4. Always mention the source (substance name and section) when providing information
5. If the context is insufficient, acknowledge the limitation

You are helpful but cautious. Medical accuracy is your top priority.";
  ENHANCED_CONTEXT_FORMAT := true;
  MIN_SIMILARITY_THRESHOLD := Q2Qc (3 # 10);
  MAX_CONTEXT_LENGTH := 8000
|}.

(** ** Data model *)

(** A row of the vector query of [vector_search]. *)
Record NodeRecord := {
  rec_substance_name : str;
  rec_section_name : str;
  rec_section_text : str;
  rec_word_count : Z;
  rec_entity_count : Z;
  rec_score : float;
  rec_node_id : str
}.

(** The dictionaries built by [vector_search]. *)
Record SectionDict := {
  sec_node_id : str;
  sec_substance_name : str;
  sec_section_name : str;
  sec_section_text : str;
  sec_word_count : Z;
  sec_entity_count : Z;
  sec_similarity_score : float
}.

(** The dictionaries built by [build_subgraph_context]; the key
    ['cross_encoder_score'] is absent until [rerank] writes it. *)
Record Subgraph := {
  substance_name : str;
  section_name : str;
  section_text : str;
  word_count : Z;
  entity_count : Z;
  entities : list str;
  similarity_score : float;
  node_id : str;
  cross_encoder_score : option float
}.

(** [subgraph['cross_encoder_score'] = score] *)
Definition set_cross_encoder_score (score : float) (sg : Subgraph) : Subgraph :=
  {| substance_name := substance_name sg;
     section_name := section_name sg;
     section_text := section_text sg;
     word_count := word_count sg;
     entity_count := entity_count sg;
     entities := entities sg;
     similarity_score := similarity_score sg;
     node_id := node_id sg;
     cross_encoder_score := Some score |}.

(** The attribution dictionaries of [generate_answer]. *)
Record Source := {
  src_substance_name : str;
  src_section_name : str;
  src_similarity_score : float;
  src_cross_encoder_score : float
}.

(** The dictionary returned by [generate_answer]; the keys ['model'] and
    ['temperature'] are present on success only. *)
Record LLMResult := {
  llm_answer : str;
  llm_sources : list Source;
  llm_error : option str;
  llm_model : option str;
  llm_temperature : option float
}.

(** The dictionary returned by [process_query]; [None] is Python's [None],
    and ['timing'] is a dictionary from stage names to seconds. *)
Record QueryResult := {
  query : str;
  answer : option str;
  sources : list Source;
  error : option str;
  timing : gmap string float
}.

(** The body of the POST request sent to the generation service. *)
Record Payload := {
  pl_model : str;
  pl_prompt : str;
  pl_stream : bool;
  pl_temperature : float;
  pl_num_predict : Z
}.

(** What [generate_answer] looks at in a decoded response body. *)
Inductive JsonValue :=
  | JStr (s : str)
  | JNonStr (type_name : str).   (* null, number, list, ...: no [strip] *)

Inductive Json :=
  | JObject (fields : gmap str JsonValue)
  | JNonObject (type_name : str).   (* a list, a number, ...: no [get] *)

Record Response := {
  status_code : Z;
  json : Res Json     (* [response.json()] raises on an undecodable body *)
}.

(** ** The outside world

    Every oracle is a function of its arguments.  Within one call of
    [process_query] the embedding model, the vector query, the
    cross-encoder and the generation service are consulted at most once;
    the entity query is consulted once per retained section. *)

Record World := {
  (** the successive readings of [time.time()] *)
  clock : nat → float;
  (** [embedding_model.encode(query, ...).tolist()] *)
  encode : str → Res (list float);
  (** [session.run] of the vector query: index name, top_k, embedding *)
  run_vector_query : str → Z → list float → Res (list NodeRecord);
  (** [session.run] of the entity query: substance and section name; the
      rows are pairs of entity_name and entity_type *)
  run_entity_query : str → str → Res (list (str * str));
  (** [cross_encoder.predict(pairs)] *)
  predict : list (str * str) → Res (list float);
  (** [requests.post(url, json=payload, timeout=seconds)] *)
  post : str → Payload → Z → Res Response
}.

(** ** The state of the interpreter *)

Definition loc := positive.

Record PyState := {
  heap : gmap loc Subgraph;            (* the live subgraph dictionaries *)
  ticks : nat;                          (* calls of [time.time()] so far *)
  posts : list (str * Payload)          (* requests sent so far, latest first *)
}.

Global Instance Subgraph_inhabited : Inhabited Subgraph :=
  populate {| substance_name := []; section_name := []; section_text := [];
              word_count := 0; entity_count := 0; entities := [];
              similarity_score := float_zero; node_id := [];
              cross_encoder_score := None |}.

Definition set_heap (f : gmap loc Subgraph → gmap loc Subgraph) (s : PyState) : PyState :=
  {| heap := f (heap s); ticks := ticks s; posts := posts s |}.

Definition tick (s : PyState) : PyState :=
  {| heap := heap s; ticks := S (ticks s); posts := posts s |}.

Definition log_post (url : str) (payload : Payload) (s : PyState) : PyState :=
  {| heap := heap s; ticks := ticks s; posts := (url, payload) :: posts s |}.

(** Reading a dictionary through a reference.  A list only holds references
    to live dictionaries; the store is made total by reading a reference
    that was never allocated as the dictionary without content. *)
Definition deref (l : loc) : M PyState Subgraph :=
  λ s, (Ok (heap s !!! l), s).

(** A new dictionary. *)
Definition alloc (sg : Subgraph) : M PyState loc :=
  λ s, let l := fresh (dom (heap s)) in (Ok l, set_heap <[l := sg]> s).

(** [subgraph['cross_encoder_score'] = score] through a reference. *)
Definition setitem_cross_encoder_score (l : loc) (score : float) : M PyState unit :=
  modify (set_heap (λ h, <[l := set_cross_encoder_score score (h !!! l)]> h)).

(** [subgraph['cross_encoder_score']] through a reference. *)
Definition getitem_cross_encoder_score (l : loc) : M PyState float :=
  sg ← deref l;
  match cross_encoder_score sg with
  | Some score => ret score
  | None => raise (KeyError (lit "cross_encoder_score"))
  end.

(** ** Sorting

    [sorted(xs, key=k, reverse=True)] computes every key first, then sorts
    the decorated list; the builtin guarantees stability, also under
    [reverse=True].  On keys that are totally ordered the stable sort is
    unique, so a stable insertion sort stands for the builtin. *)

Fixpoint insert_desc {A} (x : float * A) (l : list (float * A)) : list (float * A) :=
  match l with
  | [] => [x]
  | y :: l' =>
      if decide (x.1 < y.1)%Qc then y :: insert_desc x l' else x :: y :: l'
  end.

Definition stable_sort_desc {A} (l : list (float * A)) : list (float * A) :=
  foldr insert_desc [] l.

Definition sorted_reverse {Σ A} (key : A → M Σ float) (xs : list A) : M Σ (list A) :=
  keys ← for_each key xs;
  ret ((stable_sort_desc (zip keys xs)).*2).

Section Pipeline.

Context (W : World) (cfg : Config).

(** [time.time()] *)
Definition time_time : M PyState float :=
  λ s, (Ok (clock W (ticks s)), tick s).

(** ** vector_search.py *)

Definition generate_query_embedding (query : str) : M PyState (list float) :=
  of_res (encode W query).

Definition section_of_record (record : NodeRecord) : SectionDict :=
  {| sec_node_id := rec_node_id record;
     sec_substance_name := rec_substance_name record;
     sec_section_name := rec_section_name record;
     sec_section_text := rec_section_text record;
     sec_word_count := rec_word_count record;
     sec_entity_count := rec_entity_count record;
     sec_similarity_score := rec_score record |}.

Definition vector_search (query : str) (top_k : option Z) : M PyState (list SectionDict) :=
  let top_k := default (TOP_K_VECTOR_SEARCH cfg) top_k in
  query_embedding ← generate_query_embedding query;
  result ← of_res (run_vector_query W (VECTOR_INDEX_NAME cfg) top_k query_embedding);
  ret (section_of_record <$> result).

Definition get_section_entities (substance_name section_name : str) : M PyState (list str) :=
  result ← of_res (run_entity_query W substance_name section_name);
  ret (result.*1).

(** The subgraph dictionary of a section, given its entities. *)
Definition subgraph_of_section (section : SectionDict) (entities : list str) : Subgraph :=
  {| substance_name := sec_substance_name section;
     section_name := sec_section_name section;
     section_text := sec_section_text section;
     word_count := sec_word_count section;
     entity_count := sec_entity_count section;
     entities := entities;
     similarity_score := sec_similarity_score section;
     node_id := sec_node_id section;
     cross_encoder_score := None |}.

Definition build_subgraph_context (section : SectionDict) : M PyState loc :=
  entities ← get_section_entities (sec_substance_name section) (sec_section_name section);
  alloc (subgraph_of_section section entities).

Definition search_with_subgraphs (query : str) (top_k : option Z) : M PyState (list loc) :=
  sections ← vector_search query top_k;
  let sections :=
    filter (λ s, (MIN_SIMILARITY_THRESHOLD cfg ≤ sec_similarity_score s)%Qc) sections in
  match sections with
  | [] => ret []
  | _ => for_each build_subgraph_context sections
  end.

(** ** cross_encoder_ranker.py *)

Definition prepare_pair (query : str) (subgraph : Subgraph) : str :=
  if ENHANCED_CONTEXT_FORMAT cfg then
    let entities_str := str_join (lit ", ") (slice_to (entities subgraph) 20) in
    lit "Substance: " ++ substance_name subgraph ++ NL
    ++ lit "Section: " ++ section_name subgraph ++ NL
    ++ lit "Content: " ++ section_text subgraph ++ NL
    ++ lit "Related Medical Terms: " ++ entities_str
  else section_text subgraph.

Definition rerank (query : str) (subgraphs : list loc) (top_n : option Z) : M PyState (list loc) :=
  let top_n := default (TOP_N_RERANKED cfg) top_n in
  match subgraphs with
  | [] => ret []
  | _ =>
      pairs ← for_each (λ l, subgraph ← deref l;
                             ret (query, prepare_pair query subgraph)) subgraphs;
      scores ← of_res (predict W pairs);
      for_each (λ '(l, score), setitem_cross_encoder_score l score)
               (zip subgraphs scores);;
      reranked ← sorted_reverse getitem_cross_encoder_score subgraphs;
      let top_reranked := slice_to reranked top_n in
      ret top_reranked
  end.

(** ** llm_generator.py *)

Definition TRUNCATION_MARKER : str := NL ++ lit "...(truncated)".

Definition context_block (i : nat) (subgraph : Subgraph) : str :=
  let entities_str := str_join (lit ", ") (slice_to (entities subgraph) 15) in
  lit "[Source " ++ str_int (Z.of_nat i) ++ lit "]" ++ NL
  ++ lit "Substance: " ++ substance_name subgraph ++ NL
  ++ lit "Section: " ++ section_name subgraph ++ NL
  ++ NL
  ++ lit "Content:" ++ NL
  ++ section_text subgraph ++ NL
  ++ NL
  ++ lit "Related Medical Terms: " ++ entities_str ++ NL.

Definition format_context (subgraphs : list Subgraph) : str :=
  let formatted_contexts := imap (λ i subgraph, context_block (S i) subgraph) subgraphs in
  let full_context := NL ++ str_repeat BOX_DASH 80 ++ str_join NL formatted_contexts in
  if (MAX_CONTEXT_LENGTH cfg <? Z.of_nat (length full_context))%Z then
    slice_to full_context (MAX_CONTEXT_LENGTH cfg) ++ TRUNCATION_MARKER
  else full_context.

Definition build_prompt (query : str) (subgraphs : list Subgraph) : str :=
  let context := format_context subgraphs in
  SYSTEM_PROMPT cfg ++ NL
  ++ NL
  ++ context ++ NL
  ++ NL
  ++ str_repeat (lit "=") 80 ++ NL
  ++ NL
  ++ lit "User Question: " ++ query ++ NL
  ++ NL
  ++ lit "Instructions:
- Answer using ONLY the information provided in the sources above
- Mention which substance and section your answer comes from
- If the information is not in the sources, clearly state this
- Be helpful but never make up information

Answer:".

Definition NO_INFORMATION_ANSWER : str :=
  lit "I don't have any relevant information in my knowledge base to answer this question.".
Definition GENERATION_ERROR_ANSWER : str :=
  lit "Error generating answer. Please try again.".
Definition GENERATION_TIMEOUT_ANSWER : str :=
  lit "Answer generation timed out. Please try again with a simpler question.".

Definition failed (answer error_msg : str) : LLMResult :=
  {| llm_answer := answer; llm_sources := []; llm_error := Some error_msg;
     llm_model := None; llm_temperature := None |}.

(** [requests.post], which sends one request to the generation service. *)
Definition requests_post (url : str) (payload : Payload) (timeout : Z) : M PyState Response :=
  modify (log_post url payload);;
  of_res (post W url payload timeout).

(** [result.get('response', '').strip()] *)
Definition response_text (result : Json) : Res str :=
  match result with
  | JObject fields =>
      match default (JStr []) (fields !! lit "response") with
      | JStr s => Ok (strip s)
      | JNonStr type_name =>
          Raise (AttributeError
                   (lit "'" ++ type_name ++ lit "' object has no attribute 'strip'"))
      end
  | JNonObject type_name =>
      Raise (AttributeError
               (lit "'" ++ type_name ++ lit "' object has no attribute 'get'"))
  end.

Definition source_of (sg : Subgraph) : Source :=
  {| src_substance_name := substance_name sg;
     src_section_name := section_name sg;
     src_similarity_score := similarity_score sg;
     src_cross_encoder_score := default float_zero (cross_encoder_score sg) |}.

Definition generate_answer (query : str) (subgraphs : list loc) : M PyState LLMResult :=
  match subgraphs with
  | [] =>
      ret {| llm_answer := NO_INFORMATION_ANSWER; llm_sources := [];
             llm_error := None; llm_model := None; llm_temperature := None |}
  | _ =>
      contexts ← for_each deref subgraphs;
      let prompt := build_prompt query contexts in
      try_except
        (let payload :=
           {| pl_model := OLLAMA_MODEL cfg; pl_prompt := prompt; pl_stream := false;
              pl_temperature := OLLAMA_TEMPERATURE cfg;
              pl_num_predict := OLLAMA_MAX_TOKENS cfg |} in
         response ← requests_post (OLLAMA_API_URL cfg) payload 120%Z;
         if decide (status_code response ≠ 200%Z) then
           let error_msg := lit "Ollama API error: " ++ str_int (status_code response) in
           ret (failed GENERATION_ERROR_ANSWER error_msg)
         else
           result ← of_res (json response);
           answer ← of_res (response_text result);
           sources ← for_each (λ l, sg ← deref l; ret (source_of sg)) subgraphs;
           ret {| llm_answer := answer; llm_sources := sources; llm_error := None;
                  llm_model := Some (OLLAMA_MODEL cfg);
                  llm_temperature := Some (OLLAMA_TEMPERATURE cfg) |})
        (λ e,
           match e with
           | Timeout _ =>
               let error_msg := lit "Ollama request timed out" in
               ret (failed GENERATION_TIMEOUT_ANSWER error_msg)
           | _ =>
               let error_msg := lit "Error calling Ollama: " ++ str_exn e in
               ret (failed GENERATION_ERROR_ANSWER error_msg)
           end)
  end.

(** ** query_pipeline.py *)

(** The activation of [process_query]: the interpreter state and the local
    dictionary [result], which the body mutates and the handler reads. *)
Record Frame := {
  interp : PyState;
  result : QueryResult
}.

Definition lift {A} (m : M PyState A) : M Frame A :=
  λ f, let '(a, s') := m (interp f) in (a, {| interp := s'; result := result f |}).

Definition update_result (g : QueryResult → QueryResult) : M Frame unit :=
  modify (λ f, {| interp := interp f; result := g (result f) |}).

Definition get_result : M Frame QueryResult :=
  λ f, (Ok (result f), f).

Definition with_result {A} (r0 : QueryResult) (m : M Frame A) : M PyState A :=
  λ s, let '(a, f) := m {| interp := s; result := r0 |} in (a, interp f).

(** [result['answer'] = a] *)
Definition set_answer (a : str) (r : QueryResult) : QueryResult :=
  {| query := query r; answer := Some a; sources := sources r;
     error := error r; timing := timing r |}.

(** [result['sources'] = l] *)
Definition set_sources (l : list Source) (r : QueryResult) : QueryResult :=
  {| query := query r; answer := answer r; sources := l;
     error := error r; timing := timing r |}.

(** [result['error'] = e] *)
Definition set_error (e : option str) (r : QueryResult) : QueryResult :=
  {| query := query r; answer := answer r; sources := sources r;
     error := e; timing := timing r |}.

(** [result['timing'][stage] = seconds] *)
Definition set_timing (stage : string) (seconds : float) (r : QueryResult) : QueryResult :=
  {| query := query r; answer := answer r; sources := sources r;
     error := error r; timing := <[stage := seconds]> (timing r) |}.

Definition NO_RESULTS_ANSWER : str :=
  lit "I couldn't find any relevant information in my knowledge base for this question.".
Definition PIPELINE_ERROR_ANSWER : str :=
  lit "An error occurred while processing your question. Please try again.".

(** How the [try] block is left when no exception escapes it. *)
Inductive completion :=
  | Returned      (* by [return result] *)
  | Completed.    (* by reaching its end *)

(** [verbose] only adds writes to the console, which are not modelled.
    The definition is that of a call with [verbose=False]; it is that of a
    call with [verbose=True] as long as the console accepts every write: a
    [print] that raises inside the [try] block turns the call into the
    error result, and one that raises outside it ends the call. *)
Definition process_query (query : str) (verbose : bool) : M PyState QueryResult :=
  start_time ← time_time;
  with_result
    {| query := query; answer := None; sources := []; error := None; timing := ∅ |}
    (how ← try_except
       ((* Step 1: Vector Search *)
        step1_start ← lift time_time;
        subgraphs ← lift (search_with_subgraphs query (Some (TOP_K_VECTOR_SEARCH cfg)));
        now ← lift time_time;
        update_result (set_timing "vector_search" (float_sub now step1_start));;
        match subgraphs with
        | [] =>
            update_result (set_answer NO_RESULTS_ANSWER);;
            now ← lift time_time;
            update_result (set_timing "total" (float_sub now start_time));;
            ret Returned
        | _ =>
            (* Step 2: Re-ranking *)
            step2_start ← lift time_time;
            reranked_subgraphs ←
              lift (rerank query subgraphs (Some (TOP_N_RERANKED cfg)));
            now ← lift time_time;
            update_result (set_timing "reranking" (float_sub now step2_start));;
            (* Step 3: Generate Answer with LLM *)
            step3_start ← lift time_time;
            llm_result ← lift (generate_answer query reranked_subgraphs);
            now ← lift time_time;
            update_result (set_timing "llm_generation" (float_sub now step3_start));;
            (* Merge results *)
            update_result (set_answer (llm_answer llm_result));;
            update_result (set_sources (llm_sources llm_result));;
            update_result (set_error (llm_error llm_result));;
            ret Completed
        end)
       (λ e,
          update_result (set_error (Some (str_exn e)));;
          update_result (set_answer PIPELINE_ERROR_ANSWER);;
          ret Completed);
     match how with
     | Returned => get_result
     | Completed =>
         (* Total time *)
         now ← lift time_time;
         update_result (set_timing "total" (float_sub now start_time));;
         get_result
     end).

End Pipeline.

(** * Specification vocabulary *)

(** The request that [generate_answer] sends for the given contexts. *)
Definition request_of (cfg : Config) (query : str) (contexts : list Subgraph) : Payload :=
  {| pl_model := OLLAMA_MODEL cfg;
     pl_prompt := build_prompt cfg query contexts;
     pl_stream := false;
     pl_temperature := OLLAMA_TEMPERATURE cfg;
     pl_num_predict := OLLAMA_MAX_TOKENS cfg |}.

(** The generation service fails: the request raises (a network error, a
    timeout) or is answered with a status other than 200. *)
Inductive service_failure : Res Response → Prop :=
  | request_raises e : service_failure (Raise e)
  | non_success response :
      status_code response ≠ 200%Z → service_failure (Ok response).

Definition is_timeout (outcome : Res Response) : Prop :=
  ∃ msg, outcome = Raise (Timeout msg).

(** The completion that [generate_answer] draws from a response. *)
Definition completion_of (response : Response) : Res str :=
  match json response with
  | Ok result => response_text result
  | Raise e => Raise e
  end.


(** The pairs that [rerank] hands to the cross-encoder. *)
Definition rerank_pairs (cfg : Config) (query : str)
    (h : gmap loc Subgraph) (subgraphs : list loc) : list (str * str) :=
  (λ l, (query, prepare_pair cfg query (h !!! l))) <$> subgraphs.

(** The relevance score that a store holds for a candidate. *)
Definition score_in (h : gmap loc Subgraph) (l : loc) : option float :=
  cross_encoder_score (h !!! l).

(** Sorted by score, best first. *)
Definition descending (keys : list float) : Prop :=
  StronglySorted (λ a b, (b ≤ a)%Qc) keys.

(** [x] occurs before [y] in [l]. *)
Definition before {A} (x y : A) (l : list A) : Prop :=
  ∃ l1 l2 l3, l = l1 ++ x :: l2 ++ y :: l3.

(** The store after the loop that writes the scores. *)
Definition assign_scores (h : gmap loc Subgraph) (zs : list (loc * float)) :
    gmap loc Subgraph :=
  foldl (λ h '(l, score), <[l := set_cross_encoder_score score (h !!! l)]> h) h zs.

(** * Example data

    The mock candidates of [test_reranker], a store that holds them, and
    worlds whose oracles answer with fixed values. *)

Definition mock_subgraph (node_id section_name section_text : string)
    (entities : list string) (similarity_score : float)
    (word_count entity_count : Z) : Subgraph :=
  {| substance_name := lit "Asparagus";
     section_name := lit section_name;
     section_text := lit section_text;
     word_count := word_count;
     entity_count := entity_count;
     entities := lit <$> entities;
     similarity_score := similarity_score;
     node_id := lit node_id;
     cross_encoder_score := None |}.

Definition mock_subgraphs : list Subgraph := [
  mock_subgraph "1" "AdverseEffects"
    "May cause allergic reactions in sensitive individuals."
    ["Allergic Reactions"] (Q2Qc (75 # 100)) 100 1;
  mock_subgraph "2" "Safety"
    "Likely safe when used in food amounts during pregnancy."
    ["Pregnancy"] (Q2Qc (70 # 100)) 150 1;
  mock_subgraph "3" "Effectiveness"
    "Insufficient reliable evidence for effectiveness."
    [] (Q2Qc (65 # 100)) 80 0
].

(** The three mock candidates at the references 1, 2 and 3. *)
Definition mock_state : PyState :=
  {| heap := list_to_map (zip [1; 2; 3]%positive mock_subgraphs);
     ticks := 0;
     posts := [] |}.

Definition empty_state : PyState := {| heap := ∅; ticks := 0; posts := [] |}.

Definition mock_row (node_id section_name : string) (score : float) : NodeRecord :=
  {| rec_substance_name := lit "Asparagus";
     rec_section_name := lit section_name;
     rec_section_text := lit "Text of the section.";
     rec_word_count := 4;
     rec_entity_count := 1;
     rec_score := score;
     rec_node_id := lit node_id |}.

(** Three rows with the similarities 0.85, 0.72 and 0.40. *)
Definition mock_rows : list NodeRecord := [
  mock_row "1" "Safety" (Q2Qc (85 # 100));
  mock_row "2" "AdverseEffects" (Q2Qc (72 # 100));
  mock_row "3" "Effectiveness" (Q2Qc (40 # 100))
].

Definition mock_terms (substance_name section_name : str) : Res (list (str * str)) :=
  Ok [(lit "Pregnancy", lit "Condition")].

(** A world with a clock that advances by one second at each reading, a
    graph database that answers with [rows] and [terms], a cross-encoder
    that answers with the first of [scores], and a generation service that
    answers with [reply]. *)
Definition mock_world (rows : list NodeRecord)
    (terms : str → str → Res (list (str * str)))
    (scores : list float) (reply : Res Response) : World :=
  {| clock := λ n, Q2Qc (inject_Z (Z.of_nat n));
     encode := λ _, Ok [Q2Qc 1; Q2Qc 0];
     run_vector_query := λ _ top_k _, Ok (slice_to rows top_k);
     run_entity_query := terms;
     predict := λ pairs, Ok (take (length pairs) scores);
     post := λ _ _ _, reply |}.

Definition completion_reply (text : string) : Res Response :=
  Ok {| status_code := 200;
        json := Ok (JObject {[ lit "response" := JStr (lit text) ]}) |}.

(** Relevance scores 0.6, 0.9 and 0.3 for the three candidates. *)
Definition mock_scores : list float :=
  [Q2Qc (6 # 10); Q2Qc (9 # 10); Q2Qc (3 # 10)].

(** Relevance scores with a tie between the first and the third candidate. *)
Definition tied_scores : list float :=
  [Q2Qc (5 # 10); Q2Qc (9 # 10); Q2Qc (5 # 10)].

Definition mock_query : str := lit "Is asparagus safe during pregnancy?".

(** The rows that pass the similarity floor. *)
Definition retained (cfg : Config) (rows : list NodeRecord) : list NodeRecord :=
  filter (λ r, (MIN_SIMILARITY_THRESHOLD cfg ≤ rec_score r)%Qc) rows.

(** The related-terms lookup of a row. *)
Definition lookup_terms (W : World) (r : NodeRecord) : Res (list (str * str)) :=
  run_entity_query W (rec_substance_name r) (rec_section_name r).

(** A statement that never reads the clock. *)
Definition keeps_clock {A} (m : M PyState A) : Prop :=
  ∀ s, ticks (m s).2 = ticks s.

(** A clock that never runs backwards. *)
Definition monotone_clock (W : World) : Prop :=
  ∀ i j, i ≤ j → (clock W i ≤ clock W j)%Qc.

(** The differences of the readings that a call of [process_query] in the
    state [s] takes (it reads the clock at most eight times) are binary64
    numbers: the subtractions do not round. *)
Definition exact_differences (W : World) (s : PyState) : Prop :=
  ∀ i j, ticks s ≤ i → i ≤ j → j ≤ ticks s + 7 →
    float_sub (clock W j) (clock W i) = (clock W j - clock W i)%Qc.

(** [result['timing'].get(stage, 0)], as [process_query] prints it. *)
Definition stage_time (r : QueryResult) (stage : string) : float :=
  default float_zero (timing r !! stage).

(** The terminal states of the pipeline. *)
Inductive terminal :=
  | DONE_NO_RESULTS
  | DONE (llm_result : LLMResult)
  | FAILED (e : exn).

(** The terminal state that a call of [process_query] in the state [s]
    reaches.  Two readings of the clock come before each stage. *)
Inductive reaches (W : World) (cfg : Config) (query : str) (s : PyState) :
    terminal → Prop :=
  | search_raises e s1 :
      search_with_subgraphs W cfg query (Some (TOP_K_VECTOR_SEARCH cfg))
        (tick (tick s)) = (Raise e, s1) →
      reaches W cfg query s (FAILED e)
  | search_finds_nothing s1 :
      search_with_subgraphs W cfg query (Some (TOP_K_VECTOR_SEARCH cfg))
        (tick (tick s)) = (Ok [], s1) →
      reaches W cfg query s DONE_NO_RESULTS
  | rerank_raises subgraphs s1 e s2 :
      search_with_subgraphs W cfg query (Some (TOP_K_VECTOR_SEARCH cfg))
        (tick (tick s)) = (Ok subgraphs, s1) →
      subgraphs ≠ [] →
      rerank W cfg query subgraphs (Some (TOP_N_RERANKED cfg))
        (tick (tick s1)) = (Raise e, s2) →
      reaches W cfg query s (FAILED e)
  | generate_raises subgraphs s1 reranked s2 e s3 :
      search_with_subgraphs W cfg query (Some (TOP_K_VECTOR_SEARCH cfg))
        (tick (tick s)) = (Ok subgraphs, s1) →
      subgraphs ≠ [] →
      rerank W cfg query subgraphs (Some (TOP_N_RERANKED cfg))
        (tick (tick s1)) = (Ok reranked, s2) →
      generate_answer W cfg query reranked (tick (tick s2)) = (Raise e, s3) →
      reaches W cfg query s (FAILED e)
  | generate_returns subgraphs s1 reranked s2 llm_result s3 :
      search_with_subgraphs W cfg query (Some (TOP_K_VECTOR_SEARCH cfg))
        (tick (tick s)) = (Ok subgraphs, s1) →
      subgraphs ≠ [] →
      rerank W cfg query subgraphs (Some (TOP_N_RERANKED cfg))
        (tick (tick s1)) = (Ok reranked, s2) →
      generate_answer W cfg query reranked (tick (tick s2)) = (Ok llm_result, s3) →
      reaches W cfg query s (DONE llm_result).

(** The pipeline failed with the message [msg]: a stage raised, or the
    generator reported an error. *)
Definition failure (t : terminal) (msg : str) : Prop :=
  match t with
  | DONE_NO_RESULTS => False
  | DONE llm_result => llm_error llm_result = Some msg
  | FAILED e => msg = str_exn e
  end.

(** Every oracle answers; the completion is a sentence. *)
Definition healthy_world : World :=
  mock_world mock_rows mock_terms mock_scores
    (completion_reply "  Asparagus is likely safe in food amounts (Asparagus, Safety).
").

(** The cross-encoder gives the first and the third candidate one score. *)
Definition tied_world : World :=
  mock_world mock_rows mock_terms tied_scores (completion_reply "").

(** The generation service answers 200 with a completion of blanks. *)
Definition blank_world : World :=
  mock_world mock_rows mock_terms mock_scores (completion_reply "
  ").

(** The generation service does not answer in time. *)
Definition timeout_world : World :=
  mock_world mock_rows mock_terms mock_scores
    (Raise (Timeout (lit "Read timed out. (read timeout=120)"))).

(** The lookup of related terms raises for the section AdverseEffects. *)
Definition failing_terms (substance_name section_name : str) : Res (list (str * str)) :=
  if decide (section_name = lit "AdverseEffects")
  then Raise (Exception (lit "Failed to read from defunct connection"))
  else mock_terms substance_name section_name.

Definition degraded_world : World :=
  mock_world mock_rows failing_terms mock_scores (completion_reply "").

(** The float that a decimal literal denotes. *)
Definition float_of (x : Q) : float := Q2Qc (round_binary64 x).

(** A clock whose readings are 0.0, 0.0, 0.1, 0.1, 0.3, 0.3 and then 0.9. *)
Definition rounding_clock (n : nat) : float :=
  if decide (n < 2) then float_of 0
  else if decide (n < 4) then float_of (1 # 10)
  else if decide (n < 6) then float_of (3 # 10)
  else float_of (9 # 10).

(** The healthy world under that clock. *)
Definition rounding_world : World :=
  {| clock := rounding_clock;
     encode := encode healthy_world;
     run_vector_query := run_vector_query healthy_world;
     run_entity_query := run_entity_query healthy_world;
     predict := predict healthy_world;
     post := post healthy_world |}.

(** The shipped configuration with another similarity floor. *)
Definition config_with_threshold (threshold : float) : Config :=
  {| TOP_K_VECTOR_SEARCH := TOP_K_VECTOR_SEARCH config;
     VECTOR_INDEX_NAME := VECTOR_INDEX_NAME config;
     TOP_N_RERANKED := TOP_N_RERANKED config;
     OLLAMA_MODEL := OLLAMA_MODEL config;
     OLLAMA_API_URL := OLLAMA_API_URL config;
     OLLAMA_TEMPERATURE := OLLAMA_TEMPERATURE config;
     OLLAMA_MAX_TOKENS := OLLAMA_MAX_TOKENS config;
     SYSTEM_PROMPT := SYSTEM_PROMPT config;
     ENHANCED_CONTEXT_FORMAT := ENHANCED_CONTEXT_FORMAT config;
     MIN_SIMILARITY_THRESHOLD := threshold;
     MAX_CONTEXT_LENGTH := MAX_CONTEXT_LENGTH config |}.

(** The shipped configuration with another context budget. *)
Definition config_with_max_context (max_context_length : Z) : Config :=
  {| TOP_K_VECTOR_SEARCH := TOP_K_VECTOR_SEARCH config;
     VECTOR_INDEX_NAME := VECTOR_INDEX_NAME config;
     TOP_N_RERANKED := TOP_N_RERANKED config;
     OLLAMA_MODEL := OLLAMA_MODEL config;
     OLLAMA_API_URL := OLLAMA_API_URL config;
     OLLAMA_TEMPERATURE := OLLAMA_TEMPERATURE config;
     OLLAMA_MAX_TOKENS := OLLAMA_MAX_TOKENS config;
     SYSTEM_PROMPT := SYSTEM_PROMPT config;
     ENHANCED_CONTEXT_FORMAT := ENHANCED_CONTEXT_FORMAT config;
     MIN_SIMILARITY_THRESHOLD := MIN_SIMILARITY_THRESHOLD config;
     MAX_CONTEXT_LENGTH := max_context_length |}.

(** * The rest of the code

    The functions of src/core that the pipeline does not call on its main
    path, the callers of the pipeline, and the vocabulary of their
    properties. *)

(** A statement that leaves the observation [f] of the state as it was. *)
Definition preserves {A X} (f : PyState → X) (m : M PyState A) : Prop :=
  ∀ s, f (m s).2 = f s.

(** The cross-encoder honours its interface: one score per pair. *)
Definition scorer_contract (W : World) : Prop :=
  ∀ pairs, ∃ scores, predict W pairs = Ok scores ∧ length scores = length pairs.

(** ** cross_encoder_ranker.py, continued *)

(** The dictionary returned by [get_score_comparison]. *)
Record ScoreComparison := {
  top_result_changed : bool;
  position_changes : nat;
  total_results : nat
}.

(** [sum(1 for i, node_id in enumerate(after_ids)
         if i >= len(before_ids) or node_id != before_ids[i])],
    for the identifiers from position [i] on. *)
Fixpoint count_position_changes (i : nat) (before_ids after_ids : list str) : nat :=
  match after_ids with
  | [] => 0
  | node_id :: after_ids' =>
      (if decide (before_ids !! i = Some node_id) then 0 else 1)
      + count_position_changes (S i) before_ids after_ids'
  end.

Section RankerExtras.

Context (cfg : Config).

Definition get_score_comparison (subgraphs_before subgraphs_after : list loc) :
    M PyState ScoreComparison :=
  before ← for_each deref subgraphs_before;
  after ← for_each deref subgraphs_after;
  (* Check if top result changed *)
  let top_changed :=
    match before, after with
    | b :: _, a :: _ => bool_decide (node_id b ≠ node_id a)
    | _, _ => false
    end in
  (* Count how many results changed position *)
  let before_ids := node_id <$> slice_to before (TOP_N_RERANKED cfg) in
  let after_ids := node_id <$> after in
  let position_changes := count_position_changes 0 before_ids after_ids in
  ret {| top_result_changed := top_changed;
         position_changes := position_changes;
         total_results := length after |}.

End RankerExtras.

(** The characters that [build_prompt] adds around the system prompt, the
    context and the query. *)
Definition PROMPT_FRAME_LENGTH : nat := 358.

(** ** Display (llm_generator.py and query_pipeline.py, continued)

    [config.INCLUDE_SOURCE_ATTRIBUTION] is read at call time: it is a
    parameter of the two display functions, shipped as [True]. *)

Definition SHIPPED_INCLUDE_SOURCE_ATTRIBUTION : bool := true.

(** [f"{x:.2f}"]: the value rounded to two decimals, ties to even, with
    its sign. *)
Definition format_2f (x : float) : str :=
  let hundredths := round_half_even (Z.abs (Qnum (this x)) * 100) (Zpos (Qden (this x))) in
  let cents := (hundredths mod 100)%Z in
  (if (Qnum (this x) <? 0)%Z then lit "-" else [])
  ++ str_int (hundredths / 100) ++ lit "."
  ++ str_int (cents / 10) ++ str_int (cents mod 10).

(** [f"{i}. {source['substance_name']} - {source['section_name']}"] *)
Definition source_line (i : nat) (source : Source) : str :=
  str_int (Z.of_nat i) ++ lit ". " ++ src_substance_name source
  ++ lit " - " ++ src_section_name source.

(** ['\n'.join(output)], which wants every item to be a string. *)
Fixpoint join_lines (i : nat) (output : list (option str)) : Res (list str) :=
  match output with
  | [] => Ok []
  | Some line :: output' =>
      match join_lines (S i) output' with
      | Ok lines => Ok (line :: lines)
      | Raise e => Raise e
      end
  | None :: _ =>
      Raise (Exception (lit "sequence item " ++ str_int (Z.of_nat i)
                        ++ lit ": expected str instance, NoneType found"))
  end.

Section Display.

Context (INCLUDE_SOURCE_ATTRIBUTION : bool).

(** llm_generator.py *)
Definition format_answer_with_sources (result : LLMResult) : str :=
  let answer := llm_answer result in
  let sources := llm_sources result in
  (* Add source attribution if enabled *)
  if INCLUDE_SOURCE_ATTRIBUTION && bool_decide (sources ≠ []) then
    let sources_text :=
      NL ++ NL ++ str_repeat BOX_DASH 60 ++ NL ++ lit "Sources:" ++ NL
      ++ concat (imap (λ i source, source_line (S i) source ++ NL) sources) in
    answer ++ sources_text
  else answer.

(** query_pipeline.py *)
Definition format_result_for_display (result : QueryResult) : Res str :=
  (* Answer *)
  let output :=
    [Some (lit "ANSWER:"); Some (str_repeat BOX_DASH 60); answer result] in
  (* Sources *)
  let output :=
    if bool_decide (sources result ≠ []) && INCLUDE_SOURCE_ATTRIBUTION then
      output
      ++ [Some (NL ++ str_repeat BOX_DASH 60); Some (lit "SOURCES:")]
      ++ imap (λ i source, Some (source_line (S i) source)) (sources result)
    else output in
  (* Timing *)
  match
    (if bool_decide (timing result ≠ ∅) then
       match timing result !! "total" with
       | Some total =>
           Ok (output
               ++ [Some (NL ++ str_repeat BOX_DASH 60);
                   Some (lit "Response time: " ++ format_2f total ++ lit "s")])
       | None => Raise (KeyError (lit "total"))
       end
     else Ok output)
  with
  | Ok output =>
      match join_lines 0 output with
      | Ok lines => Ok (str_join NL lines)
      | Raise e => Raise e
      end
  | Raise e => Raise e
  end.

End Display.


(** ** The query endpoint (backend/api/models.py and backend/api/routes.py) *)

Record QueryRequest := {
  rq_query : str;
  rq_verbose : bool;
}.

Record SourceResponse := {
  sr_substance_name : str;
  sr_section_name : str;
  sr_similarity_score : option float;
  sr_cross_encoder_score : option float;
}.

Record TimingResponse := {
  tr_total : float;
  tr_vector_search : option float;
  tr_reranking : option float;
  tr_llm_generation : option float;
}.

Record QueryResponse := {
  qr_answer : str;
  qr_sources : list SourceResponse;
  qr_timing : TimingResponse;
  qr_error : option str;
}.

(** What the endpoint hands to the framework: the response that it
    returns, or the [HTTPException] that it raises. *)
Inductive Reply :=
  | Responded (response : QueryResponse)
  | HTTPException (status : Z) (detail : str).

Definition PIPELINE_NOT_INITIALIZED : str :=
  lit "Pipeline is not initialized. Please wait a moment and try again.".

Module routes.
Section Routes.

(** [validation_error] is the text of the error that the model class
    raises for an answer that is not a string; it depends on the version
    of the validation library. *)
Context (cfg : Config) (validation_error : str).

(** [QueryResponse(answer=..., sources=..., timing=..., error=...)]: the
    field [answer] is declared [str], so [None] is refused. *)
Definition new_QueryResponse (answer : option str) (sources : list SourceResponse)
    (timing : TimingResponse) (error : option str) : Res QueryResponse :=
  match answer with
  | Some answer =>
      Ok {| qr_answer := answer; qr_sources := sources;
            qr_timing := timing; qr_error := error |}
  | None => Raise (Exception validation_error)
  end.

Definition source_response (src : Source) : SourceResponse :=
  {| sr_substance_name := src_substance_name src;
     sr_section_name := src_section_name src;
     sr_similarity_score := Some (src_similarity_score src);
     sr_cross_encoder_score := Some (src_cross_encoder_score src) |}.

(** The global [pipeline] is [None] until the application has built the
    pipeline, whose stages are the services of a [World]. *)
Definition process_query (pipeline : option World) (request : QueryRequest) :
    M PyState Reply :=
  match pipeline with
  | None => ret (HTTPException 503 PIPELINE_NOT_INITIALIZED)
  | Some W =>
      try_except
        ((* Process query using existing pipeline *)
         result ← process_query W cfg (rq_query request) (rq_verbose request);
         (* Convert sources to response model *)
         let sources := source_response <$> sources result in
         (* Convert timing to response model *)
         let timing_data := timing result in
         let timing :=
           {| tr_total := default float_zero (timing_data !! "total");
              tr_vector_search := timing_data !! "vector_search";
              tr_reranking := timing_data !! "reranking";
              tr_llm_generation := timing_data !! "llm_generation" |} in
         (* Build response *)
         response ← of_res (new_QueryResponse (answer result) sources timing
                              (error result));
         ret (Responded response))
        (λ e, ret (HTTPException 500
                     (lit "Error processing query: " ++ str_exn e)))
  end.

End Routes.
End routes.

(** * Further example data *)

Definition mock_response (text : string) : Response :=
  {| status_code := 200;
     json := Ok (JObject {[ lit "response" := JStr (lit text) ]}) |}.

(** [W] with another embedding model. *)
Definition with_encode (W : World) (encode : str → Res (list float)) : World :=
  {| clock := clock W;
     encode := encode;
     run_vector_query := run_vector_query W;
     run_entity_query := run_entity_query W;
     predict := predict W;
     post := post W |}.

(** [W] with another cross-encoder. *)
Definition with_predict (W : World)
    (predict : list (str * str) → Res (list float)) : World :=
  {| clock := clock W;
     encode := encode W;
     run_vector_query := run_vector_query W;
     run_entity_query := run_entity_query W;
     predict := predict;
     post := post W |}.

(** The generation service answers 200 with a text between blanks. *)
Definition plain_world : World :=
  mock_world mock_rows mock_terms mock_scores
    (Ok (mock_response "  It is likely safe in food amounts.  ")).

(** The generation service answers 200 with a body that has no completion. *)
Definition keyless_world : World :=
  mock_world mock_rows mock_terms mock_scores
    (Ok {| status_code := 200;
           json := Ok (JObject {[ lit "error" := JStr (lit "model not found") ]}) |}).

(** The embedding model cannot be reached. *)
Definition offline_world : World :=
  with_encode healthy_world (λ _, Raise (Exception (lit "Connection refused"))).

(** The cross-encoder raises. *)
Definition scorer_down_world : World :=
  with_predict healthy_world (λ _, Raise (Exception (lit "CUDA out of memory"))).

(** The cross-encoder answers with two scores, whatever it is asked. *)
Definition short_scores_world : World :=
  mock_world mock_rows mock_terms (take 2 mock_scores) (completion_reply "").

(** Relevance scores 0.9, 0.6 and 0.3: best first. *)
Definition agreeing_scores : list float :=
  [Q2Qc (9 # 10); Q2Qc (6 # 10); Q2Qc (3 # 10)].

Definition agreeing_world : World :=
  mock_world mock_rows mock_terms agreeing_scores (completion_reply "").

(** A cross-encoder that scores every pair, by the length of its context. *)
Definition length_scorer_world : World :=
  with_predict plain_world
    (λ pairs, Ok ((λ p, Q2Qc (Z.of_nat (length p.2) # 1000)) <$> pairs)).

(** A result whose timings lack the total. *)
Definition untimed_result : QueryResult :=
  {| query := mock_query; answer := Some (lit "It is likely safe.");
     sources := []; error := None;
     timing := {[ "vector_search" := Q2Qc 1 ]} |}.
(** * Verification *)

(** ** Running statements *)

Section monad_facts.
Context {Σ A B : Type}.
Implicit Types (m : M Σ A) (k : A → M Σ B) (s : Σ).

Lemma bind_ok m k s a s' : m s = (Ok a, s') → bind m k s = k a s'.
Proof. unfold bind. by intros ->. Qed.

Lemma bind_raise m k s e s' : m s = (Raise e, s') → bind m k s = (Raise e, s').
Proof. unfold bind. by intros ->. Qed.

Lemma bind_inv_ok m k s b s2 :
  bind m k s = (Ok b, s2) → ∃ a s1, m s = (Ok a, s1) ∧ k a s1 = (Ok b, s2).
Proof. unfold bind. destruct (m s) as [[a|e] s1]; [eauto | done]. Qed.

End monad_facts.

Lemma for_each_pure {Σ A B} (g : Σ → A → B) (act : A → M Σ B) xs s :
  (∀ x, act x s = (Ok (g s x), s)) →
  for_each act xs s = (Ok (g s <$> xs), s).
Proof.
  intros Hact. induction xs as [|x xs IH]; [done|].
  cbn [for_each]. rewrite (bind_ok _ _ _ _ _ (Hact x)).
  by rewrite (bind_ok _ _ _ _ _ IH).
Qed.

Lemma for_each_deref xs s :
  for_each deref xs s = (Ok ((λ l, heap s !!! l) <$> xs), s).
Proof. by apply (for_each_pure (λ s l, heap s !!! l)). Qed.

(** ** The answer generator *)

Section generator.
Context (W : World) (cfg : Config).

Lemma generate_answer_nonempty query subgraphs s :
  subgraphs ≠ [] →
  generate_answer W cfg query subgraphs s =
    try_except
      (response ← requests_post W (OLLAMA_API_URL cfg)
                    (request_of cfg query ((λ l, heap s !!! l) <$> subgraphs)) 120%Z;
       if decide (status_code response ≠ 200%Z) then
         ret (failed GENERATION_ERROR_ANSWER
                (lit "Ollama API error: " ++ str_int (status_code response)))
       else
         result ← of_res (json response);
         answer ← of_res (response_text result);
         sources ← for_each (λ l, sg ← deref l; ret (source_of sg)) subgraphs;
         ret {| llm_answer := answer; llm_sources := sources; llm_error := None;
                llm_model := Some (OLLAMA_MODEL cfg);
                llm_temperature := Some (OLLAMA_TEMPERATURE cfg) |})
      (λ e,
         match e with
         | Timeout _ =>
             ret (failed GENERATION_TIMEOUT_ANSWER (lit "Ollama request timed out"))
         | _ =>
             ret (failed GENERATION_ERROR_ANSWER
                    (lit "Error calling Ollama: " ++ str_exn e))
         end) s.
Proof.
  intros Hne. destruct subgraphs as [|l ls]; [done|].
  unfold generate_answer. by rewrite (bind_ok _ _ _ _ _ (for_each_deref _ _)).
Qed.

(** With candidates, exactly one request is sent, whatever comes back. *)
Lemma generate_answer_one_request query subgraphs s :
  subgraphs ≠ [] →
  posts (generate_answer W cfg query subgraphs s).2 =
    (OLLAMA_API_URL cfg,
     request_of cfg query ((λ l, heap s !!! l) <$> subgraphs)) :: posts s.
Proof.
  intros Hne. rewrite generate_answer_nonempty by done.
  unfold try_except, requests_post, bind, modify, of_res, ret. cbn.
  destruct (post W _ _ _) as [response|e]; cbn.
  - case_decide; cbn; [done|].
    destruct (json response) as [result|e]; cbn; [|by destruct e].
    destruct (response_text result) as [answer|e]; cbn; [|by destruct e].
    by rewrite (for_each_pure (λ s l, source_of (heap s !!! l))).
  - by destruct e.
Qed.

(** C5. With no ranked candidate [generate_answer] returns the fixed
    no-information answer with no source and no error, and sends no
    request to the generation service: the state, and with it the list of
    the requests sent, is left as it was, whereas every call with a
    candidate sends one request. *)
Theorem generate_answer_empty query s :
  generate_answer W cfg query [] s =
    (Ok {| llm_answer := NO_INFORMATION_ANSWER; llm_sources := [];
           llm_error := None; llm_model := None; llm_temperature := None |},
     s) ∧
  posts (generate_answer W cfg query [] s).2 = posts s ∧
  ∀ subgraphs,
    length (posts (generate_answer W cfg query subgraphs s).2) = length (posts s)
    ↔ subgraphs = [].
Proof.
  split_and!; [done|done|]. intros subgraphs. split.
  - intros Hposts. destruct (decide (subgraphs = [])) as [|Hne]; [done|].
    rewrite generate_answer_one_request in Hposts by done. cbn in Hposts. lia.
  - by intros ->.
Qed.

(** C6. With candidates, when the generation service fails
    [generate_answer] returns, without raising, a result whose error is a
    non-empty diagnostic and whose answer is a fixed message: the timeout
    message after a timeout, the generic one otherwise. *)
Theorem generate_answer_service_failure query subgraphs s :
  subgraphs ≠ [] →
  let contexts := (λ l, heap s !!! l) <$> subgraphs in
  let outcome := post W (OLLAMA_API_URL cfg) (request_of cfg query contexts) 120%Z in
  service_failure outcome →
  ∃ r s',
    generate_answer W cfg query subgraphs s = (Ok r, s') ∧
    (∃ diagnostic, llm_error r = Some diagnostic ∧ diagnostic ≠ []) ∧
    (is_timeout outcome →
       llm_answer r = GENERATION_TIMEOUT_ANSWER ∧
       llm_error r = Some (lit "Ollama request timed out")) ∧
    (¬ is_timeout outcome → llm_answer r = GENERATION_ERROR_ANSWER).
Proof.
  intros Hne contexts outcome Hfail.
  rewrite generate_answer_nonempty by done.
  unfold try_except, requests_post, bind, modify, of_res, ret. cbn.
  fold contexts. fold outcome.
  inversion Hfail as [e He|response Hstatus Hout].
  - destruct e as [key|msg|msg|msg]; cbn;
      (eexists _, _; split; [done|]);
      (split; [eexists; split; [done|done]|]).
    1,2,4: split; [by intros [? ?]|done].
    split; [done|]. intros []. by eexists.
  - cbn. rewrite decide_True by done. cbn.
    eexists _, _; split; [done|].
    split; [eexists; split; [done|done]|].
    split; [by intros [? ?]|done].
Qed.

(** With candidates, a status 200 and a usable body give the completion,
    the attributions of the candidates and no error. *)
Lemma generate_answer_success query subgraphs s response answer :
  subgraphs ≠ [] →
  let contexts := (λ l, heap s !!! l) <$> subgraphs in
  let payload := request_of cfg query contexts in
  post W (OLLAMA_API_URL cfg) payload 120%Z = Ok response →
  status_code response = 200%Z →
  completion_of response = Ok answer →
  generate_answer W cfg query subgraphs s =
    (Ok {| llm_answer := answer;
           llm_sources := source_of <$> contexts;
           llm_error := None;
           llm_model := Some (OLLAMA_MODEL cfg);
           llm_temperature := Some (OLLAMA_TEMPERATURE cfg) |},
     log_post (OLLAMA_API_URL cfg) payload s).
Proof.
  intros Hne contexts payload Hpost Hstatus Hcompletion.
  rewrite generate_answer_nonempty by done.
  unfold try_except, requests_post, bind, modify, of_res, ret. cbn.
  fold contexts. fold payload. rewrite Hpost. cbn.
  rewrite decide_False by (by intros ?). cbn.
  unfold completion_of in Hcompletion.
  destruct (json response) as [result|e]; [|done]. cbn. rewrite Hcompletion. cbn.
  rewrite (for_each_pure (λ s l, source_of (heap s !!! l))) by done. cbn.
  unfold contexts. by rewrite <-list_fmap_compose.
Qed.

(** The generator reports an error only when the request raised, when the
    status is not 200, or when no completion can be drawn from the body. *)
Lemma generate_answer_error_only_on_failure query subgraphs s llm_result s' msg :
  generate_answer W cfg query subgraphs s = (Ok llm_result, s') →
  llm_error llm_result = Some msg →
  subgraphs ≠ [] ∧
  let contexts := (λ l, heap s !!! l) <$> subgraphs in
  let outcome := post W (OLLAMA_API_URL cfg) (request_of cfg query contexts) 120%Z in
  service_failure outcome ∨
  ∃ response e, outcome = Ok response ∧ completion_of response = Raise e.
Proof.
  intros Hrun Hmsg.
  destruct (decide (subgraphs = [])) as [->|Hne].
  { cbn in Hrun. injection Hrun as <- <-. done. }
  split; [done|]. intros contexts outcome.
  destruct outcome as [response|e] eqn:Houtcome; [|left; constructor].
  destruct (decide (status_code response = 200%Z)) as [Hstatus|Hstatus];
    [|left; by constructor].
  destruct (completion_of response) as [answer|e] eqn:Hcompletion;
    [|right; by eexists _, _].
  rewrite (generate_answer_success _ _ _ _ _ Hne Houtcome Hstatus Hcompletion)
    in Hrun.
  injection Hrun as <- <-. done.
Qed.

End generator.

(** ** The context assembler *)

Lemma slice_to_length_le {A} (l : list A) (stop : Z) :
  (0 ≤ stop)%Z → (Z.of_nat (length (slice_to l stop)) ≤ stop)%Z.
Proof.
  intros Hstop. unfold slice_to.
  destruct (Z.leb_spec 0 stop); [|lia]. rewrite length_take. lia.
Qed.

Lemma slice_to_take {A} (l : list A) (stop : Z) :
  ∃ n, slice_to l stop = take n l.
Proof. unfold slice_to. case_match; eauto. Qed.

(** C8. The assembled context is never longer than the configured maximum
    plus the length of the truncation marker. *)
Theorem format_context_length cfg subgraphs :
  (0 ≤ MAX_CONTEXT_LENGTH cfg)%Z →
  (Z.of_nat (length (format_context cfg subgraphs))
   ≤ MAX_CONTEXT_LENGTH cfg + Z.of_nat (length TRUNCATION_MARKER))%Z.
Proof.
  intros Hmax. unfold format_context.
  set (full_context := NL ++ _).
  destruct (Z.ltb_spec (MAX_CONTEXT_LENGTH cfg) (Z.of_nat (length full_context))).
  - rewrite length_app, Nat2Z.inj_add.
    pose proof (slice_to_length_le full_context _ Hmax). lia.
  - lia.
Qed.

(** A context that is longer than the budget is cut to the budget and
    marked. *)
Lemma format_context_truncated cfg subgraphs full_context :
  full_context =
    NL ++ str_repeat BOX_DASH 80
    ++ str_join NL (imap (λ i sg, context_block (S i) sg) subgraphs) →
  (0 ≤ MAX_CONTEXT_LENGTH cfg < Z.of_nat (length full_context))%Z →
  format_context cfg subgraphs =
    take (Z.to_nat (MAX_CONTEXT_LENGTH cfg)) full_context ++ TRUNCATION_MARKER.
Proof.
  intros -> [Hmax Hlong]. unfold format_context, slice_to.
  destruct (Z.ltb_spec (MAX_CONTEXT_LENGTH cfg)
              (Z.of_nat (length (NL ++ str_repeat BOX_DASH 80
                 ++ str_join NL (imap (λ i sg, context_block (S i) sg)
                                      subgraphs)))));
    [|lia].
  by destruct (Z.leb_spec 0 (MAX_CONTEXT_LENGTH cfg)); [|lia].
Qed.

(** ** Stable sorting *)

Section sorting.
Context {A : Type}.
Implicit Types (x y : float * A) (l : list (float * A)).

Lemma insert_desc_Permutation x l : insert_desc x l ≡ₚ x :: l.
Proof.
  induction l as [|y l IH]; cbn; [done|].
  case_decide; [|done]. by rewrite IH, Permutation_swap.
Qed.

Lemma stable_sort_desc_Permutation l : stable_sort_desc l ≡ₚ l.
Proof.
  induction l as [|x l IH]; cbn; [done|].
  by rewrite insert_desc_Permutation, IH.
Qed.

Lemma insert_desc_descending x l :
  descending (l.*1) → descending ((insert_desc x l).*1).
Proof.
  unfold descending. induction l as [|y l IH]; cbn.
  { intros _. by repeat constructor. }
  rewrite StronglySorted_cons. intros [Hy Hl]. case_decide as Hlt; cbn.
  - apply StronglySorted_cons. split; [|by apply IH].
    rewrite insert_desc_Permutation. cbn. constructor; [|done].
    by apply Qclt_le_weak.
  - apply Qcnot_lt_le in Hlt.
    apply StronglySorted_cons. split; [|by apply StronglySorted_cons].
    constructor; [done|].
    eapply Forall_impl; [done|]. intros k Hk; cbn in *. by etrans.
Qed.

Lemma stable_sort_desc_descending l : descending ((stable_sort_desc l).*1).
Proof.
  induction l as [|x l IH]; cbn; [constructor|].
  by apply insert_desc_descending.
Qed.

(** Inserting does not reorder the elements of one score. *)
Lemma filter_insert_desc (q : float) x l :
  filter (λ p, p.1 = q) (insert_desc x l) = filter (λ p, p.1 = q) (x :: l).
Proof.
  induction l as [|y l IH]; cbn; [done|].
  case_decide as Hlt; [|done].
  rewrite !filter_cons in *. rewrite IH.
  destruct (decide (y.1 = q)) as [Hy|Hy]; [|done].
  destruct (decide (x.1 = q)) as [Hx|Hx]; [|done].
  rewrite Hx, Hy in Hlt. by apply Qclt_not_eq in Hlt.
Qed.

(** Stability: the elements of one score keep their order. *)
Lemma filter_stable_sort_desc (q : float) l :
  filter (λ p, p.1 = q) (stable_sort_desc l) = filter (λ p, p.1 = q) l.
Proof.
  unfold stable_sort_desc. induction l as [|x l IH]; cbn; [done|].
  rewrite filter_insert_desc, !filter_cons. by rewrite IH.
Qed.

End sorting.

Lemma filter_take_prefix {A} (P : A → Prop) `{!∀ x, Decision (P x)} (l : list A) n :
  filter P (take n l) `prefix_of` filter P l.
Proof.
  rewrite <-(take_drop n l) at 2. rewrite filter_app. by apply prefix_app_r.
Qed.

Lemma filter_app_cons_inv {A} (P : A → Prop) `{!∀ x, Decision (P x)}
    (l : list A) k1 x k2 :
  filter P l = k1 ++ x :: k2 →
  ∃ l1 l2, l = l1 ++ x :: l2 ∧ filter P l1 = k1 ∧ filter P l2 = k2.
Proof.
  revert k1. induction l as [|y l IH]; intros k1; [by destruct k1|].
  rewrite filter_cons. destruct (decide (P y)) as [Hy|Hy].
  - destruct k1 as [|z k1]; cbn.
    + intros [= -> Hl]. exists [], l. by rewrite filter_nil.
    + intros [= -> Hl]. destruct (IH _ Hl) as (l1 & l2 & -> & <- & <-).
      exists (z :: l1), l2. by rewrite filter_cons_True.
  - intros Hl. destruct (IH _ Hl) as (l1 & l2 & -> & <- & <-).
    exists (y :: l1), l2. by rewrite filter_cons_False.
Qed.

(** What stays in order class by class stays in order pair by pair. *)
Lemma prefix_filter_before {A} (P : A → Prop) `{!∀ x, Decision (P x)}
    (out l : list A) x y :
  filter P out `prefix_of` filter P l →
  P x → P y → before x y out → before x y l.
Proof.
  intros [k Hk] Hx Hy (o1 & o2 & o3 & ->).
  rewrite filter_app, filter_cons_True, filter_app, filter_cons_True in Hk by done.
  rewrite <-!app_assoc in Hk. cbn in Hk. rewrite <-!app_assoc in Hk. cbn in Hk.
  apply filter_app_cons_inv in Hk as (l1 & l' & -> & _ & Hk).
  apply filter_app_cons_inv in Hk as (l2 & l3 & -> & _ & _).
  by exists l1, l2, l3.
Qed.

(** ** The reranker *)

Lemma set_heap_id s : set_heap (λ h, h) s = s.
Proof. by destruct s. Qed.

Lemma assign_scores_notin h zs l :
  l ∉ zs.*1 → assign_scores h zs !! l = h !! l.
Proof.
  revert h. induction zs as [|[l0 q0] zs IH]; intros h; cbn; [done|].
  rewrite not_elem_of_cons. intros [Hne Hnotin].
  fold (assign_scores (<[l0 := set_cross_encoder_score q0 (h !!! l0)]> h) zs).
  rewrite IH by done. by rewrite lookup_insert_ne.
Qed.

(** A candidate that is given scores ends with the last of them, and keeps
    every other field. *)
Lemma assign_scores_in h zs l :
  l ∈ zs.*1 →
  ∃ q, (l, q) ∈ zs ∧
       assign_scores h zs !! l = Some (set_cross_encoder_score q (h !!! l)).
Proof.
  revert h. induction zs as [|[l0 q0] zs IH]; intros h; cbn.
  { by intros ?%elem_of_nil. }
  fold (assign_scores (<[l0 := set_cross_encoder_score q0 (h !!! l0)]> h) zs).
  intros Hin. destruct (decide (l ∈ zs.*1)) as [Hzs|Hzs].
  - destruct (IH (<[l0 := set_cross_encoder_score q0 (h !!! l0)]> h) Hzs)
      as (q & Hq & ->).
    exists q. split; [by apply elem_of_cons; right|]. f_equal.
    destruct (decide (l0 = l)) as [->|Hne].
    + by rewrite lookup_total_insert_eq.
    + by rewrite lookup_total_insert_ne.
  - apply elem_of_cons in Hin as [->|Hin]; [|done].
    exists q0. split; [by apply elem_of_cons; left|].
    rewrite assign_scores_notin by done. by rewrite lookup_insert_eq.
Qed.

Lemma NoDup_fst_functional {A B} (zs : list (A * B)) x y1 y2 :
  NoDup (zs.*1) → (x, y1) ∈ zs → (x, y2) ∈ zs → y1 = y2.
Proof.
  induction zs as [|[x0 y0] zs IH]; cbn; [by intros _ ?%elem_of_nil|].
  rewrite NoDup_cons, !elem_of_cons. intros [Hnotin Hnodup] [H1|H1] [H2|H2].
  - congruence.
  - simplify_eq. destruct Hnotin. apply list_elem_of_fmap. by exists (x0, y2).
  - simplify_eq. destruct Hnotin. apply list_elem_of_fmap. by exists (x0, y1).
  - by apply IH.
Qed.

Lemma assign_scores_NoDup h zs l q :
  NoDup (zs.*1) → (l, q) ∈ zs →
  assign_scores h zs !! l = Some (set_cross_encoder_score q (h !!! l)).
Proof.
  intros Hnodup Hin.
  destruct (assign_scores_in h zs l) as (q' & Hq' & ->).
  { apply list_elem_of_fmap. by exists (l, q). }
  do 2 f_equal. by eapply NoDup_fst_functional.
Qed.

Lemma for_each_setitem zs s :
  for_each (λ '(l, score), setitem_cross_encoder_score l score) zs s =
    (Ok ((λ _, tt) <$> zs), set_heap (λ h, assign_scores h zs) s).
Proof.
  revert s. induction zs as [|[l q] zs IH]; intros s; cbn [for_each].
  { by rewrite set_heap_id. }
  unfold setitem_cross_encoder_score at 1.
  erewrite bind_ok by (unfold modify; reflexivity).
  erewrite bind_ok by apply IH. by destruct s.
Qed.

Lemma for_each_getitem xs keys s :
  Forall2 (λ l k, score_in (heap s) l = Some k) xs keys →
  for_each getitem_cross_encoder_score xs s = (Ok keys, s).
Proof.
  induction 1 as [|l k xs keys Hl _ IH]; [done|]. cbn [for_each].
  assert (getitem_cross_encoder_score l s = (Ok k, s)) as Hget.
  { unfold getitem_cross_encoder_score, bind, deref. unfold score_in in Hl.
    by rewrite Hl. }
  by rewrite (bind_ok _ _ _ _ _ Hget), (bind_ok _ _ _ _ _ IH).
Qed.

Lemma slice_to_nil {A} (stop : Z) : slice_to (@nil A) stop = [].
Proof. unfold slice_to. case_match; apply take_nil. Qed.

Section reranker.
Context (W : World) (cfg : Config).

Lemma rerank_nonempty query subgraphs top_n :
  subgraphs ≠ [] →
  rerank W cfg query subgraphs top_n =
    (pairs ← for_each (λ l, subgraph ← deref l;
                           ret (query, prepare_pair cfg query subgraph)) subgraphs;
     scores ← of_res (predict W pairs);
     for_each (λ '(l, score), setitem_cross_encoder_score l score)
              (zip subgraphs scores);;
     reranked ← sorted_reverse getitem_cross_encoder_score subgraphs;
     ret (slice_to reranked (default (TOP_N_RERANKED cfg) top_n))).
Proof. by destruct subgraphs. Qed.

(** Given one score per pair, [rerank] returns the best of the sorted
    candidates and leaves the scores in the store. *)
Lemma rerank_returns query subgraphs top_n s scores :
  predict W (rerank_pairs cfg query (heap s) subgraphs) = Ok scores →
  length scores = length subgraphs →
  let s' := set_heap (λ h, assign_scores h (zip subgraphs scores)) s in
  ∃ keys,
    Forall2 (λ l k, score_in (heap s') l = Some k) subgraphs keys ∧
    rerank W cfg query subgraphs top_n s =
      (Ok (slice_to ((stable_sort_desc (zip keys subgraphs)).*2)
             (default (TOP_N_RERANKED cfg) top_n)), s').
Proof.
  intros Hpredict Hlen s'.
  assert (∀ l, l ∈ subgraphs → is_Some (score_in (heap s') l)) as Hsome.
  { intros l Hl.
    destruct (assign_scores_in (heap s) (zip subgraphs scores) l) as (q & _ & Hq).
    { rewrite fst_zip by lia. done. }
    unfold score_in. cbn. rewrite lookup_total_alt, Hq. by eexists. }
  exists ((λ l, default float_zero (score_in (heap s') l)) <$> subgraphs).
  assert (Forall2 (λ l k, score_in (heap s') l = Some k) subgraphs
            ((λ l, default float_zero (score_in (heap s') l)) <$> subgraphs))
    as Hkeys.
  { apply Forall2_fmap_r, Forall_Forall2_diag, Forall_forall.
    intros l Hl. unfold compose. destruct (Hsome l Hl) as [k Hk]. by rewrite Hk. }
  split; [done|].
  destruct (decide (subgraphs = [])) as [->|Hne].
  { destruct scores; [|done]. cbn. unfold s'. cbn.
    by rewrite set_heap_id, slice_to_nil. }
  rewrite rerank_nonempty by done.
  erewrite bind_ok; last first.
  { apply (for_each_pure (λ s l, (query, prepare_pair cfg query (heap s !!! l)))).
    intros l. done. }
  fold (rerank_pairs cfg query (heap s) subgraphs).
  erewrite bind_ok by (unfold of_res; rewrite Hpredict; reflexivity).
  erewrite bind_ok by apply for_each_setitem.
  unfold sorted_reverse.
  erewrite bind_ok; last first.
  { erewrite bind_ok by (apply for_each_getitem, Hkeys). reflexivity. }
  done.
Qed.

End reranker.

Lemma filter_fmap_Forall {A B} (f : A → B) (P : B → Prop) (P' : A → Prop)
    `{!∀ y, Decision (P y)} `{!∀ x, Decision (P' x)} (l : list A) :
  Forall (λ x, P' x ↔ P (f x)) l →
  filter P (f <$> l) = f <$> filter P' l.
Proof.
  induction 1 as [|x l Hx _ IH]; [done|].
  rewrite fmap_cons, !filter_cons, IH.
  destruct (decide (P (f x))), (decide (P' x)); try done; exfalso; tauto.
Qed.

Section reranker_properties.
Context (W : World) (cfg : Config).

(** The sorted, decorated candidates of a run of [rerank]. *)
Lemma sorted_candidates (h' : gmap loc Subgraph) subgraphs keys :
  Forall2 (λ l k, score_in h' l = Some k) subgraphs keys →
  let sorted := stable_sort_desc (zip keys subgraphs) in
  Forall (λ p, score_in h' p.2 = Some p.1) sorted ∧
  sorted.*2 ≡ₚ subgraphs ∧
  descending (sorted.*1) ∧
  ∀ q, filter (λ l, score_in h' l = Some q) (sorted.*2)
       = filter (λ l, score_in h' l = Some q) subgraphs.
Proof.
  intros Hkeys sorted.
  assert (Forall (λ p, score_in h' p.2 = Some p.1) (zip keys subgraphs)) as Hzip.
  { induction Hkeys; cbn; by constructor. }
  assert ((zip keys subgraphs).*2 = subgraphs) as Hsnd.
  { apply snd_zip. by rewrite (Forall2_length _ _ _ Hkeys). }
  assert (Forall (λ p, score_in h' p.2 = Some p.1) sorted) as Hsorted.
  { unfold sorted. by rewrite stable_sort_desc_Permutation. }
  split_and!.
  - done.
  - unfold sorted. by rewrite stable_sort_desc_Permutation, Hsnd.
  - apply stable_sort_desc_descending.
  - intros q. rewrite <-Hsnd at 1.
    rewrite (filter_fmap_Forall snd _ (λ p, p.1 = q) sorted),
            (filter_fmap_Forall snd _ (λ p, p.1 = q) (zip keys subgraphs)).
    + unfold sorted. by rewrite filter_stable_sort_desc.
    + eapply Forall_impl; [exact Hzip|]. intros [k l] Hp; cbn in *.
      rewrite Hp. naive_solver.
    + eapply Forall_impl; [exact Hsorted|]. intros [k l] Hp; cbn in *.
      rewrite Hp. naive_solver.
Qed.

(** C2, as amended. On an empty candidate list [rerank] returns the empty
    list, for every [top_n] and without consulting the cross-encoder.
    When the cross-encoder answers with one score per pair and [top_n] is
    not negative, [rerank] returns exactly [min(top_n, len(candidates))]
    candidates. *)
Theorem rerank_length query subgraphs top_n s scores :
  let n := default (TOP_N_RERANKED cfg) top_n in
  rerank W cfg query [] top_n s = (Ok [], s) ∧
  (predict W (rerank_pairs cfg query (heap s) subgraphs) = Ok scores →
   length scores = length subgraphs →
   (0 ≤ n)%Z →
   ∃ out s',
     rerank W cfg query subgraphs top_n s = (Ok out, s') ∧
     Z.of_nat (length out) = Z.min n (Z.of_nat (length subgraphs))).
Proof.
  intros n. split; [done|]. intros Hpredict Hlen Hn.
  destruct (rerank_returns W cfg query subgraphs top_n s scores Hpredict Hlen)
    as (keys & Hkeys & ->).
  eexists _, _. split; [done|].
  destruct (sorted_candidates _ _ _ Hkeys) as (_ & Hperm & _).
  fold n. unfold slice_to. destruct (Z.leb_spec 0 n); [|lia].
  rewrite length_take, Hperm. lia.
Qed.

(** C3. When the cross-encoder answers with one score per pair, the
    candidates that [rerank] returns are sorted by relevance score, best
    first, and the sort is stable: for every score the returned candidates
    of that score are, in order, the first input candidates of that score,
    so two returned candidates of equal score stand in their input order. *)
Theorem rerank_sorted_stable query subgraphs top_n s scores :
  predict W (rerank_pairs cfg query (heap s) subgraphs) = Ok scores →
  length scores = length subgraphs →
  ∃ out s' keys,
    rerank W cfg query subgraphs top_n s = (Ok out, s') ∧
    score_in (heap s') <$> out = Some <$> keys ∧
    descending keys ∧
    (∀ q, filter (λ l, score_in (heap s') l = Some q) out
          `prefix_of` filter (λ l, score_in (heap s') l = Some q) subgraphs) ∧
    (∀ a b, score_in (heap s') a = score_in (heap s') b →
            before a b out → before a b subgraphs).
Proof.
  intros Hpredict Hlen.
  destruct (rerank_returns W cfg query subgraphs top_n s scores Hpredict Hlen)
    as (keys0 & Hkeys & Hrun).
  set (s' := set_heap _ s) in *.
  destruct (sorted_candidates _ _ _ Hkeys) as (Hall & Hperm & Hdesc & Hstable).
  set (sorted := stable_sort_desc (zip keys0 subgraphs)) in *.
  destruct (slice_to_take (sorted.*2) (default (TOP_N_RERANKED cfg) top_n))
    as [m Hm].
  rewrite Hm in Hrun.
  assert (∀ q, filter (λ l, score_in (heap s') l = Some q) (take m (sorted.*2))
               `prefix_of` filter (λ l, score_in (heap s') l = Some q) subgraphs)
    as Hprefix.
  { intros q. rewrite <-Hstable. apply filter_take_prefix. }
  assert (score_in (heap s') <$> take m (sorted.*2) = Some <$> take m (sorted.*1))
    as Hscores.
  { rewrite <-!fmap_take, <-!list_fmap_compose.
    apply Forall_fmap_ext. eapply Forall_impl.
    - apply Forall_take, Hall.
    - by intros [k l]. }
  exists (take m (sorted.*2)), s', (take m (sorted.*1)). split_and!.
  - done.
  - done.
  - unfold descending in *. rewrite <-(take_drop m (sorted.*1)) in Hdesc.
    by apply StronglySorted_app_1_l in Hdesc.
  - done.
  - intros a b Hab Hbefore.
    assert (∃ q, score_in (heap s') a = Some q) as [q Ha].
    { destruct Hbefore as (o1 & o2 & o3 & Hout).
      assert (score_in (heap s') a ∈ Some <$> take m (sorted.*1)) as Hin.
      { rewrite <-Hscores, Hout. apply list_elem_of_fmap.
        exists a. split; [done|]. apply elem_of_app. right. by left. }
      apply list_elem_of_fmap in Hin as (q & -> & _). by exists q. }
    eapply (prefix_filter_before (λ l, score_in (heap s') l = Some q)).
    + apply Hprefix.
    + done.
    + by rewrite <-Hab.
    + done.
Qed.

(** C10. When the cross-encoder answers with one score per pair, [rerank]
    writes into the dictionaries it was given: every input dictionary,
    returned or not, ends as itself with a ['cross_encoder_score'] (the
    score of its pair when the input has no repeated dictionary), no other
    dictionary changes, and the returned list holds references to input
    dictionaries, each at most as often as the input does. *)
Theorem rerank_mutates_in_place query subgraphs top_n s scores :
  predict W (rerank_pairs cfg query (heap s) subgraphs) = Ok scores →
  length scores = length subgraphs →
  ∃ out s',
    rerank W cfg query subgraphs top_n s = (Ok out, s') ∧
    (∀ l sg, l ∈ subgraphs → heap s !! l = Some sg →
       ∃ q, q ∈ scores ∧ heap s' !! l = Some (set_cross_encoder_score q sg)) ∧
    (∀ i l sg q, NoDup subgraphs →
       subgraphs !! i = Some l → scores !! i = Some q → heap s !! l = Some sg →
       heap s' !! l = Some (set_cross_encoder_score q sg)) ∧
    (∀ l, l ∉ subgraphs → heap s' !! l = heap s !! l) ∧
    (∃ dropped, out ++ dropped ≡ₚ subgraphs) ∧
    ticks s' = ticks s ∧ posts s' = posts s.
Proof.
  intros Hpredict Hlen.
  destruct (rerank_returns W cfg query subgraphs top_n s scores Hpredict Hlen)
    as (keys & Hkeys & Hrun).
  set (s' := set_heap _ s) in *.
  destruct (sorted_candidates _ _ _ Hkeys) as (_ & Hperm & _).
  destruct (slice_to_take ((stable_sort_desc (zip keys subgraphs)).*2)
              (default (TOP_N_RERANKED cfg) top_n)) as [m Hm].
  rewrite Hm in Hrun.
  assert ((zip subgraphs scores).*1 = subgraphs) as Hfst by (apply fst_zip; lia).
  eexists _, s'. split_and!.
  - done.
  - intros l sg Hl Hsg.
    destruct (assign_scores_in (heap s) (zip subgraphs scores) l)
      as (q & Hq & Hq'); [by rewrite Hfst|].
    exists q. split.
    + apply (list_elem_of_fmap_2 snd) in Hq. by rewrite snd_zip in Hq by lia.
    + cbn. by rewrite Hq', lookup_total_alt, Hsg.
  - intros i l sg q Hnodup Hl Hq Hsg. cbn.
    rewrite (assign_scores_NoDup _ _ l q).
    + by rewrite lookup_total_alt, Hsg.
    + by rewrite Hfst.
    + apply list_elem_of_lookup. exists i. by apply lookup_zip_Some.
  - intros l Hl. cbn. apply assign_scores_notin. by rewrite Hfst.
  - exists (drop m ((stable_sort_desc (zip keys subgraphs)).*2)).
    by rewrite take_drop.
  - done.
  - done.
Qed.

End reranker_properties.

(** ** The vector store client *)

Section searcher.
Context (W : World) (cfg : Config).

Lemma vector_search_returns query top_k s embedding rows :
  encode W query = Ok embedding →
  run_vector_query W (VECTOR_INDEX_NAME cfg)
    (default (TOP_K_VECTOR_SEARCH cfg) top_k) embedding = Ok rows →
  vector_search W cfg query top_k s = (Ok (section_of_record <$> rows), s).
Proof.
  intros Hencode Hrun.
  unfold vector_search, generate_query_embedding, bind, of_res, ret.
  by rewrite Hencode, Hrun.
Qed.

Lemma filter_sections rows :
  filter (λ sec, (MIN_SIMILARITY_THRESHOLD cfg ≤ sec_similarity_score sec)%Qc)
    (section_of_record <$> rows)
  = section_of_record <$> retained cfg rows.
Proof. by apply filter_fmap_Forall, Forall_true. Qed.

Lemma build_subgraph_context_returns r s names :
  lookup_terms W r = Ok names →
  build_subgraph_context W (section_of_record r) s =
    (Ok (fresh (dom (heap s))),
     set_heap <[fresh (dom (heap s)) :=
                  subgraph_of_section (section_of_record r) (names.*1)]> s).
Proof.
  intros Hnames.
  unfold build_subgraph_context, get_section_entities, bind, of_res, ret, alloc.
  cbn. unfold lookup_terms in Hnames. by rewrite Hnames.
Qed.

Lemma build_subgraph_context_raises r s e :
  lookup_terms W r = Raise e →
  build_subgraph_context W (section_of_record r) s = (Raise e, s).
Proof.
  intros Hnames.
  unfold build_subgraph_context, get_section_entities, bind, of_res.
  cbn. unfold lookup_terms in Hnames. by rewrite Hnames.
Qed.

(** The loop that builds the subgraphs allocates one new dictionary per
    row, in order, and touches nothing else. *)
Lemma build_all_returns rows s :
  Forall (λ r, ∃ names, lookup_terms W r = Ok names) rows →
  ∃ out s',
    for_each (build_subgraph_context W) (section_of_record <$> rows) s
      = (Ok out, s') ∧
    Forall2 (λ r l, ∃ names,
               lookup_terms W r = Ok names ∧
               heap s' !! l =
                 Some (subgraph_of_section (section_of_record r) (names.*1)))
            rows out ∧
    heap s ⊆ heap s' ∧
    Forall (λ l, heap s !! l = None) out ∧
    NoDup out ∧
    ticks s' = ticks s ∧ posts s' = posts s.
Proof.
  intros Hrows. revert s.
  induction Hrows as [|r rows [names Hnames] _ IH]; intros s.
  { exists [], s. split_and!; by try constructor. }
  rewrite fmap_cons. cbn [for_each].
  set (l := fresh (dom (heap s))).
  set (s1 := set_heap <[l := subgraph_of_section (section_of_record r) (names.*1)]> s).
  assert (heap s !! l = None) as Hfresh.
  { apply not_elem_of_dom, is_fresh. }
  destruct (IH s1) as (out & s' & Hrun & Hout & Hsub & Hnew & Hnodup & Hticks & Hposts).
  exists (l :: out), s'.
  assert (heap s1 !! l =
            Some (subgraph_of_section (section_of_record r) (names.*1))) as Hl.
  { cbn. apply lookup_insert_eq. }
  split_and!.
  - erewrite bind_ok by by apply build_subgraph_context_returns.
    fold l s1. by erewrite bind_ok by exact Hrun.
  - constructor; [|done]. exists names. split; [done|].
    by eapply lookup_weaken.
  - trans (heap s1); [|done]. cbn. by apply insert_subseteq.
  - constructor; [done|]. eapply Forall_impl; [exact Hnew|].
    cbn. intros l' Hl'. apply lookup_insert_None in Hl'. tauto.
  - constructor; [|done]. intros Hin.
    rewrite Forall_forall in Hnew. specialize (Hnew _ Hin). congruence.
  - done.
  - done.
Qed.

Lemma build_all_raises rows s :
  Exists (λ r, ∃ e, lookup_terms W r = Raise e) rows →
  ∃ before r after e s',
    rows = before ++ r :: after ∧
    Forall (λ r', ∃ names, lookup_terms W r' = Ok names) before ∧
    lookup_terms W r = Raise e ∧
    for_each (build_subgraph_context W) (section_of_record <$> rows) s
      = (Raise e, s').
Proof.
  revert s. induction rows as [|r rows IH]; intros s Hfails.
  { by apply Exists_nil in Hfails. }
  rewrite fmap_cons. cbn [for_each].
  destruct (lookup_terms W r) as [names|e] eqn:Hr.
  - apply Exists_cons in Hfails as [[e He]|Hfails]; [congruence|].
    erewrite bind_ok by by apply build_subgraph_context_returns.
    destruct (IH (set_heap
                    <[fresh (dom (heap s)) :=
                        subgraph_of_section (section_of_record r) (names.*1)]> s)
                 Hfails) as (before & r' & after & e & s' & -> & Hbefore & He & Hrun).
    exists (r :: before), r', after, e, s'. split_and!; [done| |done|].
    + constructor; [by exists names|done].
    + by erewrite bind_raise by exact Hrun.
  - exists [], r, rows, e, s. split_and!; [done|done|done|].
    by erewrite bind_raise by by apply build_subgraph_context_raises.
Qed.

Lemma search_with_subgraphs_run query top_k s embedding rows :
  encode W query = Ok embedding →
  run_vector_query W (VECTOR_INDEX_NAME cfg)
    (default (TOP_K_VECTOR_SEARCH cfg) top_k) embedding = Ok rows →
  search_with_subgraphs W cfg query top_k s =
    for_each (build_subgraph_context W)
      (section_of_record <$> retained cfg rows) s.
Proof.
  intros Hencode Hrun. unfold search_with_subgraphs.
  rewrite (bind_ok _ _ _ _ _ (vector_search_returns _ _ _ _ _ Hencode Hrun)).
  rewrite filter_sections. by destruct (retained cfg rows).
Qed.

(** C4. When the vector query and the lookups of related terms succeed,
    [search_with_subgraphs] returns one new subgraph per row whose
    similarity is at least the configured minimum, in the order of the
    rows: every returned subgraph is at or above the minimum, and the
    similarities returned are the similarities of the rows without those
    below the minimum. *)
Theorem search_with_subgraphs_threshold query top_k s embedding rows :
  encode W query = Ok embedding →
  run_vector_query W (VECTOR_INDEX_NAME cfg)
    (default (TOP_K_VECTOR_SEARCH cfg) top_k) embedding = Ok rows →
  Forall (λ r, ∃ names, lookup_terms W r = Ok names) (retained cfg rows) →
  ∃ out s',
    search_with_subgraphs W cfg query top_k s = (Ok out, s') ∧
    Forall2 (λ r l, ∃ names,
               lookup_terms W r = Ok names ∧
               heap s' !! l =
                 Some (subgraph_of_section (section_of_record r) (names.*1)))
            (retained cfg rows) out ∧
    Forall (λ l, (MIN_SIMILARITY_THRESHOLD cfg
                  ≤ similarity_score (heap s' !!! l))%Qc) out ∧
    (λ l, similarity_score (heap s' !!! l)) <$> out
      = filter (λ x, (MIN_SIMILARITY_THRESHOLD cfg ≤ x)%Qc) (rec_score <$> rows) ∧
    (∀ r, r ∈ rows → (rec_score r < MIN_SIMILARITY_THRESHOLD cfg)%Qc →
          r ∉ retained cfg rows).
Proof.
  intros Hencode Hrun Hterms.
  destruct (build_all_returns (retained cfg rows) s Hterms)
    as (out & s' & Hbuild & Hout & _).
  exists out, s'.
  assert ((λ l, similarity_score (heap s' !!! l)) <$> out
          = rec_score <$> retained cfg rows) as Hsims.
  { clear Hbuild Hterms.
    induction Hout as [|r l rs ls (names & _ & Hl) _ IH]; [done|].
    rewrite !fmap_cons, IH. f_equal. by rewrite lookup_total_alt, Hl. }
  split_and!.
  - by rewrite (search_with_subgraphs_run _ _ _ _ _ Hencode Hrun).
  - done.
  - apply Forall_fmap with (f := λ l, similarity_score (heap s' !!! l))
                           (P := λ x, (MIN_SIMILARITY_THRESHOLD cfg ≤ x)%Qc).
    rewrite Hsims. apply Forall_fmap, Forall_forall.
    intros r Hr. by apply list_elem_of_filter in Hr as [? _].
  - rewrite Hsims. symmetry. by apply filter_fmap_Forall, Forall_true.
  - intros r _ Hlow Hr. apply list_elem_of_filter in Hr as [Hr _].
    by apply Qclt_not_le in Hlow.
Qed.

(** C7, as amended. When the lookup of related terms raises for a retained
    row, [search_with_subgraphs] does not recover: it raises the exception
    of the first lookup that raises, and returns no result. *)
Theorem search_with_subgraphs_lookup_failure query top_k s embedding rows :
  encode W query = Ok embedding →
  run_vector_query W (VECTOR_INDEX_NAME cfg)
    (default (TOP_K_VECTOR_SEARCH cfg) top_k) embedding = Ok rows →
  Exists (λ r, ∃ e, lookup_terms W r = Raise e) (retained cfg rows) →
  ∃ before r after e s',
    retained cfg rows = before ++ r :: after ∧
    Forall (λ r', ∃ names, lookup_terms W r' = Ok names) before ∧
    lookup_terms W r = Raise e ∧
    search_with_subgraphs W cfg query top_k s = (Raise e, s').
Proof.
  intros Hencode Hrun Hfails.
  rewrite (search_with_subgraphs_run _ _ _ _ _ Hencode Hrun).
  by apply build_all_raises.
Qed.

End searcher.

(** ** Statements that leave the clock alone *)

Section clock.
Context {A B : Type}.

Lemma keeps_clock_ret (a : A) : keeps_clock (ret a).
Proof. done. Qed.

Lemma keeps_clock_raise (e : exn) : keeps_clock (@raise PyState A e).
Proof. done. Qed.

Lemma keeps_clock_of_res (r : Res A) : keeps_clock (of_res r).
Proof. done. Qed.

Lemma keeps_clock_bind (m : M PyState A) (k : A → M PyState B) :
  keeps_clock m → (∀ a, keeps_clock (k a)) → keeps_clock (bind m k).
Proof.
  intros Hm Hk s. unfold bind. specialize (Hm s).
  destruct (m s) as [[a|e] s1]; cbn in *; [|done]. by rewrite Hk.
Qed.

Lemma keeps_clock_try_except (m : M PyState A) (handler : exn → M PyState A) :
  keeps_clock m → (∀ e, keeps_clock (handler e)) → keeps_clock (try_except m handler).
Proof.
  intros Hm Hh s. unfold try_except. specialize (Hm s).
  destruct (m s) as [[a|e] s1]; cbn in *; [done|]. by rewrite Hh.
Qed.

Lemma keeps_clock_for_each (f : A → M PyState B) xs :
  (∀ x, keeps_clock (f x)) → keeps_clock (for_each f xs).
Proof.
  intros Hf. induction xs as [|x xs IH]; cbn [for_each].
  - done.
  - intros s. unfold bind. specialize (Hf x s).
    destruct (f x s) as [[y|e] s1]; cbn in *; [|done].
    specialize (IH s1). destruct (for_each f xs s1) as [[ys|e] s2]; cbn in *;
      congruence.
Qed.

End clock.

Lemma keeps_clock_deref l : keeps_clock (deref l).
Proof. done. Qed.

Lemma keeps_clock_alloc sg : keeps_clock (alloc sg).
Proof. done. Qed.

Lemma keeps_clock_set_heap f : keeps_clock (modify (set_heap f)).
Proof. done. Qed.

Lemma keeps_clock_log_post url payload : keeps_clock (modify (log_post url payload)).
Proof. done. Qed.

Ltac keeps_clock_step :=
  first
    [ apply keeps_clock_bind; [|intros ?]
    | apply keeps_clock_try_except; [|intros ?]
    | apply keeps_clock_for_each; intros ?
    | apply keeps_clock_ret
    | apply keeps_clock_raise
    | apply keeps_clock_of_res
    | apply keeps_clock_deref
    | apply keeps_clock_alloc
    | apply keeps_clock_set_heap
    | apply keeps_clock_log_post
    | case_match ].

Section stages_keep_clock.
Context (W : World) (cfg : Config).

Lemma search_with_subgraphs_keeps_clock query top_k :
  keeps_clock (search_with_subgraphs W cfg query top_k).
Proof.
  unfold search_with_subgraphs, vector_search, generate_query_embedding,
    build_subgraph_context, get_section_entities.
  repeat keeps_clock_step.
Qed.

Lemma rerank_keeps_clock query subgraphs top_n :
  keeps_clock (rerank W cfg query subgraphs top_n).
Proof.
  unfold rerank, sorted_reverse, setitem_cross_encoder_score,
    getitem_cross_encoder_score.
  repeat keeps_clock_step.
Qed.

Lemma generate_answer_keeps_clock query subgraphs :
  keeps_clock (generate_answer W cfg query subgraphs).
Proof.
  unfold generate_answer, requests_post.
  repeat keeps_clock_step.
Qed.

End stages_keep_clock.

(** ** The orchestrator *)

(** Linear arithmetic over [Qc], through [Q]. *)
Ltac qc_linear :=
  unfold float_zero, Qcle, Qcminus, Qcplus, Qcopp in *;
  cbn [this Q2Qc] in *;
  rewrite ?Qred_correct in *;
  lra.

Lemma lit_cons_ne_nil a s : lit (String a s) ≠ [].
Proof. done. Qed.

Section orchestrator.
Context (W : World) (cfg : Config).

(** [generate_answer] never raises, and an error comes with one of the two
    fixed messages. *)
Lemma generate_answer_returns query subgraphs s :
  ∃ llm_result s',
    generate_answer W cfg query subgraphs s = (Ok llm_result, s') ∧
    (∀ msg, llm_error llm_result = Some msg →
            llm_answer llm_result = GENERATION_ERROR_ANSWER ∨
            llm_answer llm_result = GENERATION_TIMEOUT_ANSWER).
Proof.
  destruct (decide (subgraphs = [])) as [->|Hne].
  { eexists _, _. split; [done|]. by intros msg [=]. }
  rewrite generate_answer_nonempty by done.
  unfold try_except, requests_post, bind, modify, of_res, ret. cbn.
  destruct (post W _ _ _) as [response|e]; cbn.
  - case_decide; cbn.
    { eexists _, _. split; [done|]. by left. }
    destruct (json response) as [result|e]; cbn.
    + destruct (response_text result) as [answer|e]; cbn.
      * rewrite (for_each_pure (λ s l, source_of (heap s !!! l))) by done.
        eexists _, _. split; [done|]. by intros msg [=].
      * destruct e; (eexists _, _; split; [done|]); intros _ _; first [by left | by right].
    + destruct e; (eexists _, _; split; [done|]); intros _ _; first [by left | by right].
  - destruct e; (eexists _, _; split; [done|]); intros _ _; first [by left | by right].
Qed.

Lemma generate_answer_error_answer query subgraphs s llm_result s' msg :
  generate_answer W cfg query subgraphs s = (Ok llm_result, s') →
  llm_error llm_result = Some msg →
  llm_answer llm_result ≠ [].
Proof.
  intros Hrun Hmsg.
  destruct (generate_answer_returns query subgraphs s) as (r & s1 & Hr & Hfixed).
  rewrite Hrun in Hr. injection Hr as <- <-.
  by destruct (Hfixed msg Hmsg) as [-> | ->].
Qed.

(** The runs of [process_query], terminal state by terminal state. *)
Ltac process_query_simpl :=
  cbn -[NO_RESULTS_ANSWER PIPELINE_ERROR_ANSWER
        search_with_subgraphs rerank generate_answer].

Ltac process_query_cases s :=
  unfold process_query, with_result, try_except, bind, lift, update_result,
    modify, get_result, ret, time_time;
  process_query_simpl;
  destruct (search_with_subgraphs W cfg _ _ (tick (tick s)))
    as [[[|l ls]|e] s1] eqn:Hsearch;
  process_query_simpl;
  [ | destruct (rerank W cfg _ (l :: ls) _ (tick (tick s1)))
        as [[reranked|e] s2] eqn:Hrerank;
      process_query_simpl;
      [ destruct (generate_answer W cfg _ reranked (tick (tick s2)))
          as [[llm_result|e] s3] eqn:Hgenerate;
        process_query_simpl | ] | ].

(** C1, as amended. Called with [verbose=False], [process_query] never
    raises: whatever the stages do, it returns a result whose answer is not
    [None].  The error is set only when a stage raised or the generator
    reported an error, and the answer is then a fixed, non-empty message.
    When no stage fails the answer is the fixed no-results message or the
    answer of the generator. *)
Theorem process_query_never_raises query s :
  ∃ r s' a t,
    process_query W cfg query false s = (Ok r, s') ∧
    answer r = Some a ∧
    reaches W cfg query s t ∧
    match t with
    | DONE_NO_RESULTS => a = NO_RESULTS_ANSWER ∧ error r = None
    | DONE llm_result => a = llm_answer llm_result ∧ error r = llm_error llm_result
    | FAILED e => a = PIPELINE_ERROR_ANSWER ∧ error r = Some (str_exn e)
    end ∧
    (∀ msg, error r = Some msg → failure t msg ∧ a ≠ []) ∧
    (a = [] → ∃ llm_result,
       t = DONE llm_result ∧
       llm_answer llm_result = [] ∧ llm_error llm_result = None).
Proof.
  process_query_cases s.
  - eexists _, _, _, DONE_NO_RESULTS. split_and!; try done.
    by eapply search_finds_nothing.
  - eexists _, _, _, (DONE llm_result). split_and!; try done.
    + by eapply generate_returns.
    + cbn. intros msg Hmsg. split; [done|].
      by eapply generate_answer_error_answer.
    + intros Hempty. exists llm_result. split_and!; [done|done|].
      destruct (llm_error llm_result) as [msg|] eqn:Hmsg; [|done].
      by destruct (generate_answer_error_answer _ _ _ _ _ _ Hgenerate Hmsg).
  - eexists _, _, _, (FAILED e). split_and!; try done.
    + by eapply generate_raises.
    + cbn. by intros msg [= <-].
  - eexists _, _, _, (FAILED e). split_and!; try done.
    + by eapply rerank_raises.
    + cbn. by intros msg [= <-].
  - eexists _, _, _, (FAILED e). split_and!; try done.
    + by eapply search_raises.
    + cbn. by intros msg [= <-].
Qed.

(** C9, as amended. Called with [verbose=False] under a clock that never
    runs backwards, when the differences of the readings are computed
    without rounding, the total time that [process_query] records is at
    least the sum of the stage times it recorded, a stage without a
    recorded time counting for zero. *)
Theorem process_query_timing query s :
  monotone_clock W →
  exact_differences W s →
  ∃ r s' total,
    process_query W cfg query false s = (Ok r, s') ∧
    timing r !! "total" = Some total ∧
    (stage_time r "vector_search" + stage_time r "reranking"
     + stage_time r "llm_generation" ≤ total)%Qc.
Proof.
  intros Hclock Hexact.
  assert (∀ i, clock W i ≤ clock W (S i))%Qc as Hstep.
  { intros i. apply Hclock. lia. }
  pose proof (Hstep (ticks s)) as H0.
  pose proof (Hstep (S (ticks s))) as H1.
  pose proof (search_with_subgraphs_keeps_clock W cfg query
                (Some (TOP_K_VECTOR_SEARCH cfg)) (tick (tick s))) as Hs1.
  process_query_cases s; cbn in Hs1.
  - eexists _, _, _. split; [done|].
    unfold stage_time, set_timing, set_answer; cbn.
    rewrite lookup_insert_eq. split; [done|].
    rewrite !lookup_insert_ne, lookup_insert_eq, !lookup_insert_ne by done.
    rewrite !lookup_empty; cbn.
    pose proof (Hstep (ticks s1)) as H2. rewrite Hs1 in *.
    rewrite !Hexact by lia. qc_linear.
  - pose proof (rerank_keeps_clock W cfg query (l :: ls)
                  (Some (TOP_N_RERANKED cfg)) (tick (tick s1))) as Hs2.
    pose proof (generate_answer_keeps_clock W cfg query reranked
                  (tick (tick s2))) as Hs3.
    rewrite Hrerank in Hs2. rewrite Hgenerate in Hs3. cbn in Hs2, Hs3.
    eexists _, _, _. split; [done|].
    unfold stage_time, set_timing, set_answer, set_sources, set_error; cbn.
    rewrite lookup_insert_eq. split; [done|].
    rewrite !lookup_insert_ne by done.
    rewrite lookup_insert_eq.
    rewrite !lookup_insert_ne by done.
    rewrite lookup_insert_eq.
    rewrite !lookup_insert_ne by done.
    rewrite lookup_insert_eq. cbn.
    pose proof (Hstep (ticks s1)) as H2. pose proof (Hstep (S (ticks s1))) as H3.
    pose proof (Hstep (ticks s2)) as H4. pose proof (Hstep (S (ticks s2))) as H5.
    pose proof (Hstep (ticks s3)) as H6.
    rewrite Hs3, Hs2, Hs1 in *.
    rewrite !Hexact by lia. qc_linear.
  - pose proof (rerank_keeps_clock W cfg query (l :: ls)
                  (Some (TOP_N_RERANKED cfg)) (tick (tick s1))) as Hs2.
    pose proof (generate_answer_keeps_clock W cfg query reranked
                  (tick (tick s2))) as Hs3.
    rewrite Hrerank in Hs2. rewrite Hgenerate in Hs3. cbn in Hs2, Hs3.
    eexists _, _, _. split; [done|].
    unfold stage_time, set_timing, set_answer, set_sources, set_error; cbn.
    rewrite lookup_insert_eq. split; [done|].
    rewrite !lookup_insert_ne by done.
    rewrite lookup_insert_eq.
    rewrite !lookup_insert_ne by done.
    rewrite lookup_insert_eq.
    rewrite !lookup_insert_ne, lookup_empty by done. cbn.
    pose proof (Hstep (ticks s1)) as H2. pose proof (Hstep (S (ticks s1))) as H3.
    pose proof (Hstep (ticks s2)) as H4. pose proof (Hstep (S (ticks s2))) as H5.
    rewrite Hs3, Hs2, Hs1 in *.
    rewrite !Hexact by lia. qc_linear.
  - pose proof (rerank_keeps_clock W cfg query (l :: ls)
                  (Some (TOP_N_RERANKED cfg)) (tick (tick s1))) as Hs2.
    rewrite Hrerank in Hs2. cbn in Hs2.
    eexists _, _, _. split; [done|].
    unfold stage_time, set_timing, set_answer, set_sources, set_error; cbn.
    rewrite lookup_insert_eq. split; [done|].
    rewrite !lookup_insert_ne by done.
    rewrite lookup_insert_eq.
    rewrite !lookup_insert_ne, !lookup_empty by done. cbn.
    pose proof (Hstep (ticks s1)) as H2. pose proof (Hstep (S (ticks s1))) as H3.
    rewrite Hs2, Hs1 in *.
    rewrite !Hexact by lia. qc_linear.
  - eexists _, _, _. split; [done|].
    unfold stage_time, set_timing, set_answer, set_sources, set_error; cbn.
    rewrite lookup_insert_eq. split; [done|].
    rewrite !lookup_insert_ne, !lookup_empty by done. cbn.
    rewrite Hs1 in *.
    rewrite !Hexact by lia. qc_linear.
Qed.

End orchestrator.
(** * Runs on the example data *)

(** *** The reranker on the mock candidates *)

(** With the scores 0.6, 0.9 and 0.3 and [top_n = 2] the second candidate
    comes first, the first comes second and the third is dropped, yet it
    holds its score. *)
Example rerank_mock :
  ∃ s', rerank healthy_world config mock_query [1; 2; 3]%positive (Some 2%Z) mock_state
          = (Ok [2; 1]%positive, s') ∧
        score_in (heap s') 3%positive = Some (Q2Qc (3 # 10)).
Proof. eexists. split; vm_compute; reflexivity. Qed.

Lemma rerank_length_witness :
  ∃ out s',
    rerank healthy_world config mock_query [1; 2; 3]%positive (Some 2%Z) mock_state
      = (Ok out, s') ∧
    Z.of_nat (length out) = Z.min 2 (Z.of_nat (length [1; 2; 3]%positive)).
Proof.
  apply (proj2 (rerank_length healthy_world config mock_query [1; 2; 3]%positive (Some 2%Z)
                  mock_state mock_scores)).
  - vm_compute. reflexivity.
  - reflexivity.
  - vm_compute. discriminate.
Defined.

(** C2 as it is stated fails for a negative [top_n], which Python reads as
    a number of candidates to leave out at the end: with three candidates
    and [top_n = -1], two are returned. *)
Lemma rerank_length_negative_top_n :
  ∃ out s',
    rerank healthy_world config mock_query [1; 2; 3]%positive (Some (-1)%Z) mock_state
      = (Ok out, s') ∧
    Z.of_nat (length out) ≠ Z.min (-1) (Z.of_nat (length [1; 2; 3]%positive)).
Proof. eexists _, _. split; [vm_compute; reflexivity|]. vm_compute. discriminate. Qed.

Lemma rerank_sorted_stable_witness :
  ∃ out s' keys,
    rerank tied_world config mock_query [1; 2; 3]%positive (Some 3%Z) mock_state
      = (Ok out, s') ∧
    score_in (heap s') <$> out = Some <$> keys ∧
    descending keys ∧
    (∀ q, filter (λ l, score_in (heap s') l = Some q) out
          `prefix_of`
          filter (λ l, score_in (heap s') l = Some q) [1; 2; 3]%positive) ∧
    (∀ a b, score_in (heap s') a = score_in (heap s') b →
            before a b out → before a b [1; 2; 3]%positive).
Proof.
  apply (rerank_sorted_stable tied_world config mock_query [1; 2; 3]%positive (Some 3%Z)
           mock_state tied_scores).
  - vm_compute. reflexivity.
  - reflexivity.
Defined.

(** With a tie between the first and the third candidate, the first stays
    ahead of the third. *)
Example rerank_tie :
  (rerank tied_world config mock_query [1; 2; 3]%positive (Some 3%Z) mock_state).1
    = Ok [2; 1; 3]%positive.
Proof. vm_compute. reflexivity. Qed.

(** A cross-encoder that answers with two scores for three pairs: the loop
    over [zip] stops after two candidates and the sort raises on the third,
    which has no score. *)
Example rerank_short_scores :
  let W := mock_world mock_rows mock_terms (take 2 mock_scores) (completion_reply "") in
  ∃ s',
    rerank W config mock_query [1; 2; 3]%positive (Some 2%Z) mock_state
      = (Raise (KeyError (lit "cross_encoder_score")), s') ∧
    score_in (heap s') <$> [1; 2; 3]%positive
      = [Some (Q2Qc (6 # 10)); Some (Q2Qc (9 # 10)); None].
Proof. eexists. split; vm_compute; reflexivity. Qed.

Lemma rerank_mutates_in_place_witness :
  let s := mock_state in
  let subgraphs := [1; 2; 3]%positive in
  ∃ out s',
    rerank healthy_world config mock_query subgraphs (Some 2%Z) s = (Ok out, s') ∧
    (∀ l sg, l ∈ subgraphs → heap s !! l = Some sg →
       ∃ q, q ∈ mock_scores ∧ heap s' !! l = Some (set_cross_encoder_score q sg)) ∧
    (∀ i l sg q, NoDup subgraphs →
       subgraphs !! i = Some l → mock_scores !! i = Some q → heap s !! l = Some sg →
       heap s' !! l = Some (set_cross_encoder_score q sg)) ∧
    (∀ l, l ∉ subgraphs → heap s' !! l = heap s !! l) ∧
    (∃ dropped, out ++ dropped ≡ₚ subgraphs) ∧
    ticks s' = ticks s ∧ posts s' = posts s.
Proof.
  intros s subgraphs.
  apply (rerank_mutates_in_place healthy_world config mock_query subgraphs (Some 2%Z) s
           mock_scores).
  - vm_compute. reflexivity.
  - reflexivity.
Defined.


(** *** The vector store client on the mock rows *)

Lemma mock_rows_retained : retained config mock_rows = mock_rows.
Proof. vm_compute. reflexivity. Qed.

(** With the similarities 0.85, 0.72 and 0.40 and the floor 0.3, the three
    rows pass. *)
Lemma search_with_subgraphs_threshold_witness :
  ∃ out s',
    search_with_subgraphs healthy_world config mock_query None empty_state
      = (Ok out, s') ∧
    (λ l, similarity_score (heap s' !!! l)) <$> out
      = [Q2Qc (85 # 100); Q2Qc (72 # 100); Q2Qc (40 # 100)].
Proof.
  destruct (search_with_subgraphs_threshold healthy_world config mock_query None
              empty_state [Q2Qc 1; Q2Qc 0] mock_rows)
    as (out & s' & Hrun & _ & _ & Hsims & _).
  - reflexivity.
  - reflexivity.
  - apply Forall_forall. intros r _. eexists. reflexivity.
  - exists out, s'. split; [exact Hrun|].
    rewrite Hsims. vm_compute. reflexivity.
Defined.

(** With the floor 0.5, two rows pass. *)
Example search_with_subgraphs_floor_half :
  ∃ out s',
    search_with_subgraphs healthy_world (config_with_threshold (Q2Qc (5 # 10)))
      mock_query None empty_state = (Ok out, s') ∧
    (λ l, similarity_score (heap s' !!! l)) <$> out
      = [Q2Qc (85 # 100); Q2Qc (72 # 100)].
Proof. eexists _, _. split; vm_compute; reflexivity. Qed.

(** C7 as it is stated fails: when the lookup of related terms raises for
    the second of three retained rows, the search raises and returns
    nothing. *)
Lemma search_with_subgraphs_aborts :
  ∃ s',
    search_with_subgraphs degraded_world config mock_query None empty_state
      = (Raise (Exception (lit "Failed to read from defunct connection")), s').
Proof. eexists. vm_compute. reflexivity. Qed.

Lemma search_with_subgraphs_lookup_failure_witness :
  ∃ before r after e s',
    retained config mock_rows = before ++ r :: after ∧
    Forall (λ r', ∃ names, lookup_terms degraded_world r' = Ok names) before ∧
    lookup_terms degraded_world r = Raise e ∧
    search_with_subgraphs degraded_world config mock_query None empty_state
      = (Raise e, s').
Proof.
  apply (search_with_subgraphs_lookup_failure degraded_world config mock_query
           None empty_state [Q2Qc 1; Q2Qc 0] mock_rows).
  - reflexivity.
  - reflexivity.
  - rewrite mock_rows_retained. apply Exists_cons_tl, Exists_cons_hd.
    eexists. vm_compute. reflexivity.
Defined.

(** *** The answer generator on the mock candidates *)

Lemma generate_answer_service_failure_witness :
  ∃ r s',
    generate_answer timeout_world config mock_query [1; 2]%positive mock_state
      = (Ok r, s') ∧
    llm_answer r = GENERATION_TIMEOUT_ANSWER ∧
    llm_error r = Some (lit "Ollama request timed out").
Proof.
  destruct (generate_answer_service_failure timeout_world config mock_query
              [1; 2]%positive mock_state)
    as (r & s' & Hrun & _ & Htimeout & _).
  - done.
  - apply request_raises.
  - exists r, s'. split; [exact Hrun|]. apply Htimeout. by eexists.
Defined.

(** A status other than 200 gives the generic message and names the status. *)
Example generate_answer_status_500 :
  let W := mock_world mock_rows mock_terms mock_scores
             (Ok {| status_code := 500; json := Raise (Exception []) |}) in
  (generate_answer W config mock_query [1; 2]%positive mock_state).1
    = Ok (failed GENERATION_ERROR_ANSWER (lit "Ollama API error: 500")).
Proof. vm_compute. reflexivity. Qed.

(** *** The context assembler on the mock candidates *)

Lemma format_context_length_witness :
  (Z.of_nat (length (format_context (config_with_max_context 100) mock_subgraphs))
   ≤ 100 + Z.of_nat (length TRUNCATION_MARKER))%Z.
Proof.
  apply (format_context_length (config_with_max_context 100) mock_subgraphs).
  cbn. lia.
Defined.

(** The bound is reached when the context is cut; the shipped budget is
    large enough for the three mock candidates. *)
Example format_context_mock_lengths :
  length (format_context (config_with_max_context 100) mock_subgraphs) = 115 ∧
  length (format_context config mock_subgraphs) = 535.
Proof. split; vm_compute; reflexivity. Qed.

(** *** The orchestrator *)

Lemma mock_clock_monotone rows terms scores reply :
  monotone_clock (mock_world rows terms scores reply).
Proof.
  intros i j Hij. unfold Qcle.
  change (Qred (inject_Z (Z.of_nat i)) <= Qred (inject_Z (Z.of_nat j)))%Q.
  rewrite !Qred_correct, <-Zle_Qle. lia.
Qed.

Lemma mock_clock_exact rows terms scores reply :
  exact_differences (mock_world rows terms scores reply) empty_state.
Proof.
  intros i j _ Hij Hj. cbn in Hj.
  apply Qc_is_canon.
  do 8 (destruct j as [|j]; [do 8 (destruct i as [|i]; [by vm_compute|]); lia|]).
  lia.
Qed.

Lemma process_query_timing_witness :
  ∃ r s' total,
    process_query healthy_world config mock_query false empty_state = (Ok r, s') ∧
    timing r !! "total" = Some total ∧
    (stage_time r "vector_search" + stage_time r "reranking"
     + stage_time r "llm_generation" ≤ total)%Qc.
Proof.
  apply (process_query_timing healthy_world config mock_query empty_state).
  - apply mock_clock_monotone.
  - apply mock_clock_exact.
Defined.

(** C9 as it is stated fails: the code subtracts floats, and a difference
    of two readings is rounded.  With the readings 0.0, 0.0, 0.1, 0.1, 0.3,
    0.3, 0.9 and 0.9 the recorded stage times are 0.1, 0.19999999999999998
    and 0.6000000000000001, and the recorded total is 0.9, which is less
    than their sum. *)
Lemma process_query_timing_rounding :
  monotone_clock rounding_world ∧
  ∃ r s' total,
    process_query rounding_world config mock_query false empty_state = (Ok r, s') ∧
    timing r !! "vector_search" = Some (float_of (1 # 10)) ∧
    timing r !! "reranking"
      = Some (float_of (19999999999999998 # 100000000000000000)) ∧
    timing r !! "llm_generation"
      = Some (float_of (6000000000000001 # 10000000000000000)) ∧
    timing r !! "total" = Some total ∧
    total = float_of (9 # 10) ∧
    (total < stage_time r "vector_search" + stage_time r "reranking"
             + stage_time r "llm_generation")%Qc.
Proof.
  split.
  - intros i j Hij. unfold rounding_world, rounding_clock. cbn [clock].
    repeat case_decide; try lia; by vm_compute.
  - eexists _, _, _. split_and!; vm_compute; reflexivity.
Qed.

(** A run in which every stage succeeds: the answer is the completion
    without the blanks around it, the sources follow the reranked order,
    and with one second per reading of the clock each stage takes one
    second and the whole call seven. *)
Example process_query_healthy :
  ∃ r s',
    process_query healthy_world config mock_query false empty_state = (Ok r, s') ∧
    answer r = Some (lit "Asparagus is likely safe in food amounts (Asparagus, Safety).") ∧
    error r = None ∧
    src_section_name <$> sources r
      = [lit "AdverseEffects"; lit "Safety"; lit "Effectiveness"] ∧
    this <$> timing r !! "vector_search" = Some (1 # 1) ∧
    this <$> timing r !! "reranking" = Some (1 # 1) ∧
    this <$> timing r !! "llm_generation" = Some (1 # 1) ∧
    this <$> timing r !! "total" = Some (7 # 1) ∧
    length (posts s') = 1.
Proof. eexists _, _. split_and!; vm_compute; reflexivity. Qed.

(** C1 as it is stated fails: when the generation service answers 200 with
    a completion of blanks, the answer returned is the empty string, with
    no error. *)
Lemma process_query_empty_answer :
  ∃ r s',
    process_query blank_world config mock_query false empty_state = (Ok r, s') ∧
    answer r = Some [] ∧ error r = None.
Proof. eexists _, _. split_and!; vm_compute; reflexivity. Qed.

(** When the search aborts, [process_query] reports the exception. *)
Example process_query_degraded :
  ∃ r s',
    process_query degraded_world config mock_query false empty_state = (Ok r, s') ∧
    answer r = Some PIPELINE_ERROR_ANSWER ∧
    error r = Some (lit "Failed to read from defunct connection") ∧
    sources r = [].
Proof. eexists _, _. split_and!; vm_compute; reflexivity. Qed.

(** * The rest of the code, verified *)

(** ** Statements and what they leave alone *)

Section preserves.
Context {A B X : Type} (f : PyState → X).

Lemma preserves_bind (m : M PyState A) (k : A → M PyState B) :
  preserves f m → (∀ a, preserves f (k a)) → preserves f (bind m k).
Proof.
  intros Hm Hk s. unfold bind. specialize (Hm s).
  destruct (m s) as [[a|e] s1]; cbn in *; [|done]. by rewrite Hk.
Qed.

Lemma preserves_try_except (m : M PyState A) (handler : exn → M PyState A) :
  preserves f m → (∀ e, preserves f (handler e)) → preserves f (try_except m handler).
Proof.
  intros Hm Hh s. unfold try_except. specialize (Hm s).
  destruct (m s) as [[a|e] s1]; cbn in *; [done|]. by rewrite Hh.
Qed.

Lemma preserves_for_each (act : A → M PyState B) xs :
  (∀ x, preserves f (act x)) → preserves f (for_each act xs).
Proof.
  intros Hact. induction xs as [|x xs IH]; cbn [for_each]; [done|].
  intros s. unfold bind. specialize (Hact x s).
  destruct (act x s) as [[y|e] s1]; cbn in *; [|done].
  specialize (IH s1). destruct (for_each act xs s1) as [[ys|e] s2]; cbn in *;
    congruence.
Qed.

Lemma preserves_ret (a : A) : preserves f (ret a).
Proof. done. Qed.

Lemma preserves_raise (e : exn) : preserves f (@raise PyState A e).
Proof. done. Qed.

Lemma preserves_of_res (r : Res A) : preserves f (of_res r).
Proof. done. Qed.

End preserves.

Lemma preserves_deref {X} (f : PyState → X) l : preserves f (deref l).
Proof. done. Qed.

Ltac preserves_step :=
  first
    [ apply preserves_bind; [|intros ?]
    | apply preserves_try_except; [|intros ?]
    | apply preserves_for_each; intros ?
    | apply preserves_ret
    | apply preserves_raise
    | apply preserves_of_res
    | apply preserves_deref
    | done
    | case_match ].

(** Reading the scores changes nothing. *)
Lemma for_each_getitem_state xs s :
  (for_each getitem_cross_encoder_score xs s).2 = s.
Proof.
  apply (preserves_for_each (λ s, s)). intros l.
  unfold getitem_cross_encoder_score. repeat preserves_step.
Qed.

(** ** The reranker, continued *)

Lemma fst_zip_take {A B} (l : list A) (k : list B) :
  (zip l k).*1 = take (length k) l.
Proof.
  revert k. induction l as [|x l IH]; intros [|y k]; cbn; try done.
  by rewrite IH.
Qed.

Lemma for_each_getitem_raises xs s :
  Exists (λ l, score_in (heap s) l = None) xs →
  for_each getitem_cross_encoder_score xs s
    = (Raise (KeyError (lit "cross_encoder_score")), s).
Proof.
  induction xs as [|l xs IH]; intros Hnone; [by apply Exists_nil in Hnone|].
  cbn [for_each]. unfold score_in in *.
  destruct (cross_encoder_score (heap s !!! l)) as [k|] eqn:Hl.
  - apply Exists_cons in Hnone as [Hnone|Hnone]; [congruence|].
    assert (getitem_cross_encoder_score l s = (Ok k, s)) as Hget.
    { unfold getitem_cross_encoder_score, bind, deref. by rewrite Hl. }
    rewrite (bind_ok _ _ _ _ _ Hget). by rewrite (bind_raise _ _ _ _ _ (IH Hnone)).
  - apply bind_raise.
    unfold getitem_cross_encoder_score, bind, deref. by rewrite Hl.
Qed.

(** A sorted list is left as it is. *)
Lemma stable_sort_desc_sorted {A} (l : list (float * A)) :
  descending (l.*1) → stable_sort_desc l = l.
Proof.
  unfold descending, stable_sort_desc.
  induction l as [|x l IH]; cbn; [done|].
  rewrite StronglySorted_cons. intros [Hx Hl]. rewrite IH by done.
  destruct l as [|y l]; cbn; [done|].
  apply Forall_cons in Hx as [Hy _].
  rewrite decide_False; [done|]. by apply Qcle_not_lt.
Qed.

Lemma descending_app_elem_of (l1 l2 : list float) k1 k2 :
  descending (l1 ++ l2) → k1 ∈ l1 → k2 ∈ l2 → (k2 ≤ k1)%Qc.
Proof.
  unfold descending. rewrite StronglySorted_app. intros (Hall & _ & _) H1 H2.
  by apply Hall.
Qed.

Section reranker_extras.
Context (W : World) (cfg : Config).

(** X1. When the cross-encoder raises, [rerank] raises the same exception
    and no dictionary has been written to. *)
Theorem rerank_scorer_raises query subgraphs top_n s e :
  subgraphs ≠ [] →
  predict W (rerank_pairs cfg query (heap s) subgraphs) = Raise e →
  rerank W cfg query subgraphs top_n s = (Raise e, s).
Proof.
  intros Hne Hpredict. rewrite rerank_nonempty by done.
  erewrite bind_ok; last first.
  { apply (for_each_pure (λ s l, (query, prepare_pair cfg query (heap s !!! l)))).
    intros l. done. }
  fold (rerank_pairs cfg query (heap s) subgraphs).
  apply bind_raise. unfold of_res. by rewrite Hpredict.
Qed.

(** X2. When the cross-encoder answers with fewer scores than there are
    candidates, [rerank] raises [KeyError('cross_encoder_score')] from the
    sort, after the loop has written the scores it was given: the first
    candidates hold their score, the others are as they were. *)
Theorem rerank_too_few_scores query subgraphs top_n s scores :
  predict W (rerank_pairs cfg query (heap s) subgraphs) = Ok scores →
  length scores < length subgraphs →
  NoDup subgraphs →
  Forall (λ l, score_in (heap s) l = None) subgraphs →
  ∃ s',
    rerank W cfg query subgraphs top_n s
      = (Raise (KeyError (lit "cross_encoder_score")), s') ∧
    (∀ i l q, subgraphs !! i = Some l → scores !! i = Some q →
       heap s' !! l = Some (set_cross_encoder_score q (heap s !!! l))) ∧
    (∀ i l, subgraphs !! i = Some l → length scores ≤ i →
       heap s' !! l = heap s !! l) ∧
    ticks s' = ticks s ∧ posts s' = posts s.
Proof.
  intros Hpredict Hlen Hnodup Hnone.
  assert (subgraphs ≠ []) as Hne by (intros ->; cbn in Hlen; lia).
  set (zs := zip subgraphs scores).
  set (s' := set_heap (λ h, assign_scores h zs) s).
  assert (zs.*1 = take (length scores) subgraphs) as Hfst by apply fst_zip_take.
  assert (∀ i l, subgraphs !! i = Some l → length scores ≤ i →
            heap s' !! l = heap s !! l) as Hrest.
  { intros i l Hl Hi. cbn. apply assign_scores_notin. rewrite Hfst.
    intros (j & Hj & Hlt)%elem_of_take.
    pose proof (NoDup_lookup _ _ _ _ Hnodup Hl Hj). lia. }
  exists s'. split_and!; [|  |done|done|done].
  - rewrite rerank_nonempty by done.
    erewrite bind_ok; last first.
    { apply (for_each_pure (λ s l, (query, prepare_pair cfg query (heap s !!! l)))).
      intros l. done. }
    fold (rerank_pairs cfg query (heap s) subgraphs).
    erewrite bind_ok by (unfold of_res; rewrite Hpredict; reflexivity).
    erewrite bind_ok by apply for_each_setitem.
    apply bind_raise. unfold sorted_reverse. apply bind_raise.
    apply for_each_getitem_raises.
    destruct (lookup_lt_is_Some_2 subgraphs (length scores) Hlen) as [l Hl].
    apply Exists_exists. exists l. split; [by eapply list_elem_of_lookup_2|].
    unfold score_in. rewrite lookup_total_alt. fold s'.
    rewrite (Hrest _ _ Hl) by done. rewrite <-lookup_total_alt.
    rewrite Forall_forall in Hnone. apply Hnone. by eapply list_elem_of_lookup_2.
  - intros i l q Hl Hq. cbn. apply assign_scores_NoDup.
    + rewrite Hfst. eapply sublist_NoDup; [exact Hnodup|apply sublist_take].
    + apply list_elem_of_lookup. exists i. by apply lookup_zip_Some.
Qed.

(** X3. Given one score per pair, [rerank] keeps the best candidates: no
    candidate that it leaves out has a higher relevance score than one that
    it returns. *)
Theorem rerank_keeps_best query subgraphs top_n s scores :
  predict W (rerank_pairs cfg query (heap s) subgraphs) = Ok scores →
  length scores = length subgraphs →
  ∃ out dropped s',
    rerank W cfg query subgraphs top_n s = (Ok out, s') ∧
    out ++ dropped ≡ₚ subgraphs ∧
    ∀ l d kl kd,
      l ∈ out → d ∈ dropped →
      score_in (heap s') l = Some kl → score_in (heap s') d = Some kd →
      (kd ≤ kl)%Qc.
Proof.
  intros Hpredict Hlen.
  destruct (rerank_returns W cfg query subgraphs top_n s scores Hpredict Hlen)
    as (keys & Hkeys & Hrun).
  set (s' := set_heap _ s) in *.
  destruct (sorted_candidates _ _ _ Hkeys) as (Hall & Hperm & Hdesc & _).
  set (sorted := stable_sort_desc (zip keys subgraphs)) in *.
  destruct (slice_to_take (sorted.*2) (default (TOP_N_RERANKED cfg) top_n))
    as [m Hm].
  rewrite Hm in Hrun.
  exists (take m (sorted.*2)), (drop m (sorted.*2)), s'. split_and!.
  - done.
  - by rewrite take_drop.
  - intros l d kl kd Hl Hd Hkl Hkd.
    rewrite <-fmap_take in Hl. rewrite <-fmap_drop in Hd.
    apply list_elem_of_fmap in Hl as ([k1 l1] & -> & Hl).
    apply list_elem_of_fmap in Hd as ([k2 d1] & -> & Hd).
    rewrite Forall_forall in Hall.
    assert ((k1, l1) ∈ sorted) as H1.
    { rewrite <-(take_drop m sorted). apply elem_of_app. by left. }
    assert ((k2, d1) ∈ sorted) as H2.
    { rewrite <-(take_drop m sorted). apply elem_of_app. by right. }
    pose proof (Hall _ H1) as E1. pose proof (Hall _ H2) as E2. cbn in *.
    assert (k1 = kl) as -> by congruence. assert (k2 = kd) as -> by congruence.
    rewrite <-(take_drop m sorted), fmap_app in Hdesc.
    eapply descending_app_elem_of; [exact Hdesc| |].
    + apply list_elem_of_fmap. by exists (kl, l1).
    + apply list_elem_of_fmap. by exists (kd, d1).
Qed.

(** When the scores arrive best first, the order of the candidates stays. *)
Lemma rerank_sorted_scores query subgraphs top_n s scores :
  predict W (rerank_pairs cfg query (heap s) subgraphs) = Ok scores →
  length scores = length subgraphs →
  NoDup subgraphs →
  descending scores →
  rerank W cfg query subgraphs top_n s =
    (Ok (slice_to subgraphs (default (TOP_N_RERANKED cfg) top_n)),
     set_heap (λ h, assign_scores h (zip subgraphs scores)) s).
Proof.
  intros Hpredict Hlen Hnodup Hdesc.
  destruct (rerank_returns W cfg query subgraphs top_n s scores Hpredict Hlen)
    as (keys & Hkeys & ->).
  assert (keys = scores) as ->.
  { apply list_eq. intros i.
    destruct (subgraphs !! i) as [l|] eqn:Hl.
    - destruct (Forall2_lookup_l _ _ _ _ _ Hkeys Hl) as (k & Hk & Hscore).
      destruct (lookup_lt_is_Some_2 scores i) as [q Hq].
      { rewrite Hlen. by eapply lookup_lt_Some. }
      rewrite Hk, Hq. f_equal.
      unfold score_in in Hscore. cbn in Hscore.
      rewrite lookup_total_alt, (assign_scores_NoDup _ _ l q) in Hscore.
      + cbn in Hscore. congruence.
      + by rewrite fst_zip by lia.
      + apply list_elem_of_lookup. exists i. by apply lookup_zip_Some.
    - apply lookup_ge_None in Hl.
      rewrite (lookup_ge_None_2 keys), (lookup_ge_None_2 scores); [done|lia|].
      rewrite <-(Forall2_length _ _ _ Hkeys). done. }
  rewrite stable_sort_desc_sorted.
  - by rewrite snd_zip by lia.
  - by rewrite fst_zip by lia.
Qed.

(** X4. When the cross-encoder ranks the candidates as the vector search
    did (its scores arrive best first), [rerank] returns the first [top_n]
    candidates in their input order. *)
Theorem rerank_agreeing_scores query subgraphs top_n s scores :
  predict W (rerank_pairs cfg query (heap s) subgraphs) = Ok scores →
  length scores = length subgraphs →
  NoDup subgraphs →
  descending scores →
  (rerank W cfg query subgraphs top_n s).1
    = Ok (slice_to subgraphs (default (TOP_N_RERANKED cfg) top_n)).
Proof. intros. by rewrite (rerank_sorted_scores _ _ _ _ scores). Qed.

End reranker_extras.

(** ** The comparison of two rankings *)

Lemma count_position_changes_le i before_ids after_ids :
  count_position_changes i before_ids after_ids ≤ length after_ids.
Proof.
  revert i. induction after_ids as [|x after_ids IH]; intros i; cbn; [done|].
  specialize (IH (S i)). case_decide; lia.
Qed.

Lemma count_position_changes_0 i before_ids after_ids :
  count_position_changes i before_ids after_ids = 0
  ↔ after_ids `prefix_of` drop i before_ids.
Proof.
  revert i. induction after_ids as [|x after_ids IH]; intros i; cbn.
  { split; [intros _; apply prefix_nil|done]. }
  case_decide as Hi.
  - rewrite Nat.add_0_l, IH.
    rewrite (drop_S _ _ _ Hi). split.
    + apply prefix_cons.
    + by intros ?%prefix_cons_inv_2.
  - split; [lia|]. intros [k Hk]. destruct Hi.
    assert (drop i before_ids !! 0 = Some x) as H0 by (by rewrite Hk).
    by rewrite lookup_drop, Nat.add_0_r in H0.
Qed.

Lemma slice_to_fmap {A B} (f : A → B) (l : list A) (stop : Z) :
  slice_to (f <$> l) stop = f <$> slice_to l stop.
Proof. unfold slice_to. rewrite length_fmap. case_match; by rewrite fmap_take. Qed.

Lemma slice_to_prefix {A} (l : list A) (stop : Z) : slice_to l stop `prefix_of` l.
Proof. destruct (slice_to_take l stop) as [n ->]. apply prefix_take. Qed.

Section comparison.
Context (cfg : Config).

Lemma get_score_comparison_returns subgraphs_before subgraphs_after s :
  let before := (λ l, heap s !!! l) <$> subgraphs_before in
  let after := (λ l, heap s !!! l) <$> subgraphs_after in
  get_score_comparison cfg subgraphs_before subgraphs_after s =
    (Ok {| top_result_changed :=
             match before, after with
             | b :: _, a :: _ => bool_decide (node_id b ≠ node_id a)
             | _, _ => false
             end;
           position_changes :=
             count_position_changes 0
               (node_id <$> slice_to before (TOP_N_RERANKED cfg))
               (node_id <$> after);
           total_results := length after |}, s).
Proof.
  intros before after. unfold get_score_comparison.
  rewrite (bind_ok _ _ _ _ _ (for_each_deref _ _)).
  by rewrite (bind_ok _ _ _ _ _ (for_each_deref _ _)).
Qed.

(** X5. [get_score_comparison] counts every result of the second ranking,
    and never reports more changed positions than there are results. *)
Theorem get_score_comparison_bounds subgraphs_before subgraphs_after s :
  ∃ c,
    get_score_comparison cfg subgraphs_before subgraphs_after s = (Ok c, s) ∧
    total_results c = length subgraphs_after ∧
    position_changes c ≤ total_results c.
Proof.
  eexists. split; [apply get_score_comparison_returns|]. cbn.
  rewrite length_fmap. split; [done|].
  etrans; [apply count_position_changes_le|]. by rewrite !length_fmap.
Qed.

(** X6. [get_score_comparison] reports no changed position exactly when
    the identifiers of the second ranking are, in order, the first
    identifiers of the first ranking cut to [TOP_N_RERANKED]. *)
Theorem get_score_comparison_no_change subgraphs_before subgraphs_after s :
  let ids := fmap (λ l, node_id (heap s !!! l)) in
  ∃ c,
    get_score_comparison cfg subgraphs_before subgraphs_after s = (Ok c, s) ∧
    (position_changes c = 0
     ↔ ids subgraphs_after
         `prefix_of` ids (slice_to subgraphs_before (TOP_N_RERANKED cfg))).
Proof.
  intros ids. eexists. split; [apply get_score_comparison_returns|]. cbn.
  rewrite count_position_changes_0, drop_0.
  unfold ids. by rewrite slice_to_fmap, <-!list_fmap_compose.
Qed.

(** X7. When [get_score_comparison] reports that the top result changed,
    it reports at least one changed position. *)
Theorem get_score_comparison_top_changed subgraphs_before subgraphs_after s c :
  get_score_comparison cfg subgraphs_before subgraphs_after s = (Ok c, s) →
  top_result_changed c = true →
  1 ≤ position_changes c.
Proof.
  rewrite get_score_comparison_returns. intros [= <-]. cbn.
  destruct subgraphs_before as [|b before]; [done|].
  destruct subgraphs_after as [|a after]; [done|].
  rewrite !fmap_cons. cbn [count_position_changes].
  intros Hne%bool_decide_eq_true. rewrite decide_False; [lia|].
  intros Hfirst. destruct Hne.
  destruct (slice_to_prefix ((heap s !!! b) :: ((λ l, heap s !!! l) <$> before))
              (TOP_N_RERANKED cfg)) as [k Hk].
  destruct (slice_to _ _) as [|b' kept]; [done|].
  cbn in Hfirst. injection Hk as <- _. by injection Hfirst.
Qed.

End comparison.

Section comparison_after_rerank.
Context (W : World) (cfg : Config).

(** X8. When the scores of the cross-encoder arrive best first, comparing
    the candidates with what [rerank] returns for the configured number of
    results reports no change at all. *)
Theorem get_score_comparison_after_agreeing_rerank query subgraphs s scores :
  predict W (rerank_pairs cfg query (heap s) subgraphs) = Ok scores →
  length scores = length subgraphs →
  NoDup subgraphs →
  descending scores →
  ∃ reranked s' c,
    rerank W cfg query subgraphs None s = (Ok reranked, s') ∧
    get_score_comparison cfg subgraphs reranked s' = (Ok c, s') ∧
    top_result_changed c = false ∧
    position_changes c = 0 ∧
    total_results c = length reranked.
Proof.
  intros Hpredict Hlen Hnodup Hdesc.
  set (s' := set_heap (λ h, assign_scores h (zip subgraphs scores)) s).
  set (reranked := slice_to subgraphs (TOP_N_RERANKED cfg)).
  eexists reranked, s', _. split.
  { by apply (rerank_sorted_scores W cfg query subgraphs None s scores). }
  split; [apply get_score_comparison_returns|].
  cbn [top_result_changed position_changes total_results].
  rewrite length_fmap. split_and!; [| |done].
  - destruct (slice_to_prefix subgraphs (TOP_N_RERANKED cfg)) as [k Hk].
    fold reranked in Hk. destruct reranked as [|l kept];
      [by destruct (_ <$> subgraphs)|].
    rewrite Hk. cbn. by apply bool_decide_eq_false_2; intros [].
  - apply count_position_changes_0. by rewrite drop_0, slice_to_fmap.
Qed.

End comparison_after_rerank.

(** ** The vector store client, continued *)

Lemma StronglySorted_filter {A} (R : relation A) (P : A → Prop)
    `{!∀ x, Decision (P x)} (l : list A) :
  StronglySorted R l → StronglySorted R (filter P l).
Proof.
  induction 1 as [|x l Hl IH Hx]; [constructor|].
  rewrite filter_cons. destruct (decide (P x)); [|done].
  constructor; [done|]. apply Forall_forall.
  intros y [_ Hy]%list_elem_of_filter. rewrite Forall_forall in Hx. auto.
Qed.

Section searcher_extras.
Context (W : World) (cfg : Config).

(** X9. When the embedding model or the vector query raises,
    [search_with_subgraphs] raises the same exception, and nothing has been
    allocated or changed. *)
Theorem search_with_subgraphs_upstream_failure query top_k s e :
  encode W query = Raise e ∨
  (∃ embedding,
     encode W query = Ok embedding ∧
     run_vector_query W (VECTOR_INDEX_NAME cfg)
       (default (TOP_K_VECTOR_SEARCH cfg) top_k) embedding = Raise e) →
  search_with_subgraphs W cfg query top_k s = (Raise e, s).
Proof.
  intros Hfail. apply bind_raise.
  unfold vector_search, generate_query_embedding, bind, of_res.
  destruct Hfail as [->|(embedding & -> & ->)]; done.
Qed.

(** X10. When the vector query and the lookups succeed,
    [search_with_subgraphs] returns as many subgraphs as rows reach the
    similarity floor, hence at most as many as there are rows, and it
    returns none exactly when every row is below the floor. *)
Theorem search_with_subgraphs_count query top_k s embedding rows :
  encode W query = Ok embedding →
  run_vector_query W (VECTOR_INDEX_NAME cfg)
    (default (TOP_K_VECTOR_SEARCH cfg) top_k) embedding = Ok rows →
  Forall (λ r, ∃ names, lookup_terms W r = Ok names) (retained cfg rows) →
  ∃ out s',
    search_with_subgraphs W cfg query top_k s = (Ok out, s') ∧
    length out = length (retained cfg rows) ∧
    length out ≤ length rows ∧
    (out = [] ↔ Forall (λ r, (rec_score r < MIN_SIMILARITY_THRESHOLD cfg)%Qc) rows).
Proof.
  intros Hencode Hrun Hterms.
  destruct (build_all_returns W (retained cfg rows) s Hterms)
    as (out & s' & Hbuild & Hout & _).
  exists out, s'.
  assert (length out = length (retained cfg rows)) as Hlen.
  { symmetry. by eapply Forall2_length. }
  split_and!.
  - by rewrite (search_with_subgraphs_run _ _ _ _ _ _ _ Hencode Hrun).
  - done.
  - rewrite Hlen. apply length_filter.
  - split.
    + intros ->. apply Forall_forall. intros r Hr.
      apply Qcnot_le_lt. intros Hle.
      assert (r ∈ retained cfg rows) as Hin by (by apply list_elem_of_filter).
      destruct (retained cfg rows); [by apply elem_of_nil in Hin|done].
    + intros Hlow. apply length_zero_iff_nil. rewrite Hlen.
      destruct (retained cfg rows) as [|r kept] eqn:Hkept; [done|].
      assert (r ∈ retained cfg rows) as Hin by (rewrite Hkept; by left).
      apply list_elem_of_filter in Hin as [Hle Hr].
      rewrite Forall_forall in Hlow. by apply Hlow, Qclt_not_le in Hr.
Qed.

(** X11. The subgraphs that [search_with_subgraphs] returns are new
    dictionaries, one per reference, without a ['cross_encoder_score']; no
    dictionary that existed before is changed, no request is sent and the
    clock is not read. *)
Theorem search_with_subgraphs_fresh query top_k s embedding rows :
  encode W query = Ok embedding →
  run_vector_query W (VECTOR_INDEX_NAME cfg)
    (default (TOP_K_VECTOR_SEARCH cfg) top_k) embedding = Ok rows →
  Forall (λ r, ∃ names, lookup_terms W r = Ok names) (retained cfg rows) →
  ∃ out s',
    search_with_subgraphs W cfg query top_k s = (Ok out, s') ∧
    NoDup out ∧
    Forall (λ l, heap s !! l = None ∧ is_Some (heap s' !! l) ∧
                 score_in (heap s') l = None) out ∧
    heap s ⊆ heap s' ∧
    dom (heap s') = dom (heap s) ∪ list_to_set out ∧
    ticks s' = ticks s ∧ posts s' = posts s.
Proof.
  intros Hencode Hrun Hterms.
  rewrite (search_with_subgraphs_run _ _ _ _ _ _ _ Hencode Hrun).
  clear Hencode Hrun. revert s.
  induction Hterms as [|r kept [names Hnames] _ IH]; intros s.
  { exists [], s. split_and!; try done; try constructor.
    by rewrite list_to_set_nil, (right_id_L ∅ (∪)). }
  rewrite fmap_cons. cbn [for_each].
  set (l := fresh (dom (heap s))).
  set (s1 := set_heap <[l := subgraph_of_section (section_of_record r) (names.*1)]> s).
  assert (heap s !! l = None) as Hfresh by apply not_elem_of_dom, is_fresh.
  destruct (IH s1) as (out & s' & Hrun & Hnodup & Hout & Hsub & Hdom & Hticks & Hposts).
  assert (heap s1 !! l =
            Some (subgraph_of_section (section_of_record r) (names.*1))) as Hl.
  { cbn. apply lookup_insert_eq. }
  assert (heap s' !! l =
            Some (subgraph_of_section (section_of_record r) (names.*1))) as Hl'.
  { by eapply lookup_weaken. }
  exists (l :: out), s'. split_and!.
  - erewrite bind_ok by by apply build_subgraph_context_returns.
    fold l s1. by erewrite bind_ok by exact Hrun.
  - constructor; [|done]. intros Hin.
    rewrite Forall_forall in Hout. destruct (Hout _ Hin) as (Hnone & _).
    congruence.
  - constructor.
    + split_and!; [done|by eexists|].
      unfold score_in. by rewrite lookup_total_alt, Hl'.
    + eapply Forall_impl; [exact Hout|]. cbn.
      intros l' (Hl1 & Hl2 & Hl3). split_and!; [|done|done].
      apply lookup_insert_None in Hl1. tauto.
  - trans (heap s1); [|done]. cbn. by apply insert_subseteq.
  - rewrite Hdom. cbn. rewrite dom_insert_L.
    by rewrite (comm_L (∪) {[l]} (dom (heap s))), <-(assoc_L (∪)).
  - done.
  - done.
Qed.

(** X12. When the rows of the vector query arrive by decreasing
    similarity, so do the subgraphs that [search_with_subgraphs] returns. *)
Theorem search_with_subgraphs_ordered query top_k s embedding rows :
  encode W query = Ok embedding →
  run_vector_query W (VECTOR_INDEX_NAME cfg)
    (default (TOP_K_VECTOR_SEARCH cfg) top_k) embedding = Ok rows →
  Forall (λ r, ∃ names, lookup_terms W r = Ok names) (retained cfg rows) →
  descending (rec_score <$> rows) →
  ∃ out s',
    search_with_subgraphs W cfg query top_k s = (Ok out, s') ∧
    descending ((λ l, similarity_score (heap s' !!! l)) <$> out).
Proof.
  intros Hencode Hrun Hterms Hsorted.
  destruct (build_all_returns W (retained cfg rows) s Hterms)
    as (out & s' & Hbuild & Hout & _).
  exists out, s'. split.
  { by rewrite (search_with_subgraphs_run _ _ _ _ _ _ _ Hencode Hrun). }
  assert ((λ l, similarity_score (heap s' !!! l)) <$> out
          = rec_score <$> retained cfg rows) as ->.
  { clear Hbuild Hterms.
    induction Hout as [|r l rs ls (names & _ & Hl) _ IH]; [done|].
    rewrite !fmap_cons, IH. f_equal. by rewrite lookup_total_alt, Hl. }
  assert (rec_score <$> retained cfg rows
          = filter (λ x, (MIN_SIMILARITY_THRESHOLD cfg ≤ x)%Qc) (rec_score <$> rows))
    as ->.
  { symmetry. by apply filter_fmap_Forall, Forall_true. }
  by apply StronglySorted_filter.
Qed.

End searcher_extras.

(** ** The answer generator, continued *)

Lemma lstrip_spec (s : str) :
  ∃ blanks,
    s = blanks ++ lstrip s ∧
    Forall (λ c, isspace c = true) blanks ∧
    ∀ c, head (lstrip s) = Some c → isspace c = false.
Proof.
  induction s as [|c s (blanks & Hs & Hblanks & Hhead)]; cbn.
  { exists []. by split_and!. }
  destruct (isspace c) eqn:Hc.
  - exists (c :: blanks). split_and!; [by rewrite Hs at 1|by constructor|done].
  - exists []. split_and!; [done|constructor|]. by intros c' [= <-].
Qed.

(** [strip] cuts blanks at both ends and nothing else. *)
Lemma strip_spec (s : str) :
  ∃ before after,
    s = before ++ strip s ++ after ∧
    Forall (λ c, isspace c = true) before ∧
    Forall (λ c, isspace c = true) after ∧
    (∀ c, head (strip s) = Some c → isspace c = false) ∧
    (∀ c, last (strip s) = Some c → isspace c = false).
Proof.
  unfold strip.
  destruct (lstrip_spec s) as (before & Hs & Hbefore & Hhead).
  destruct (lstrip_spec (reverse (lstrip s))) as (blanks & Ht & Hblanks & Hlast).
  set (u := lstrip (reverse (lstrip s))) in *.
  assert (lstrip s = reverse u ++ reverse blanks) as Hsplit.
  { by rewrite <-reverse_app, <-Ht, reverse_involutive. }
  exists before, (reverse blanks). split_and!.
  - by rewrite <-Hsplit.
  - done.
  - by apply Forall_reverse.
  - intros c Hc. apply Hhead. rewrite Hsplit.
    destruct (reverse u); [done|]. done.
  - intros c Hc. apply Hlast. by rewrite last_reverse in Hc.
Qed.

Section generator_extras.
Context (W : World) (cfg : Config).

Lemma generate_answer_preserves_heap query subgraphs :
  preserves heap (generate_answer W cfg query subgraphs).
Proof. unfold generate_answer, requests_post. repeat preserves_step. Qed.

(** X13. [generate_answer] never raises, whatever the generation service
    does and whatever the body of its answer holds, and it changes no
    dictionary. *)
Theorem generate_answer_never_raises query subgraphs s :
  ∃ llm_result s',
    generate_answer W cfg query subgraphs s = (Ok llm_result, s') ∧
    heap s' = heap s ∧ ticks s' = ticks s.
Proof.
  destruct (generate_answer_returns W cfg query subgraphs s)
    as (llm_result & s' & Hrun & _).
  exists llm_result, s'. split_and!; [done| |].
  - pose proof (generate_answer_preserves_heap query subgraphs s) as H.
    by rewrite Hrun in H.
  - pose proof (generate_answer_keeps_clock W cfg query subgraphs s) as H.
    by rewrite Hrun in H.
Qed.

(** X14. When the generation service answers 200 with a completion,
    [generate_answer] returns the completion with no error, and one
    attribution per candidate, in the order of the candidates and read off
    the candidates alone: names and both scores, the relevance score being
    0.0 for a candidate that has none. *)
Theorem generate_answer_on_success query subgraphs s response completion :
  subgraphs ≠ [] →
  let contexts := (λ l, heap s !!! l) <$> subgraphs in
  post W (OLLAMA_API_URL cfg) (request_of cfg query contexts) 120%Z = Ok response →
  status_code response = 200%Z →
  completion_of response = Ok completion →
  ∃ llm_result s',
    generate_answer W cfg query subgraphs s = (Ok llm_result, s') ∧
    llm_answer llm_result = completion ∧
    llm_error llm_result = None ∧
    length (llm_sources llm_result) = length subgraphs ∧
    ∀ i l, subgraphs !! i = Some l →
      llm_sources llm_result !! i =
        Some {| src_substance_name := substance_name (heap s !!! l);
                src_section_name := section_name (heap s !!! l);
                src_similarity_score := similarity_score (heap s !!! l);
                src_cross_encoder_score :=
                  default float_zero (cross_encoder_score (heap s !!! l)) |}.
Proof.
  intros Hne contexts Hpost Hstatus Hcompletion.
  eexists _, _. split.
  { by apply (generate_answer_success W cfg query subgraphs s response completion). }
  cbn. split_and!; [done|done|by rewrite !length_fmap|].
  intros i l Hl. by rewrite !list_lookup_fmap, Hl.
Qed.

(** X15. [generate_answer] reports an error only when something failed:
    the request raised, the status is not 200, or no completion can be
    drawn from the body. *)
Theorem generate_answer_no_spurious_error query subgraphs s llm_result s' msg :
  generate_answer W cfg query subgraphs s = (Ok llm_result, s') →
  llm_error llm_result = Some msg →
  subgraphs ≠ [] ∧
  let contexts := (λ l, heap s !!! l) <$> subgraphs in
  let outcome := post W (OLLAMA_API_URL cfg) (request_of cfg query contexts) 120%Z in
  service_failure outcome ∨
  ∃ response e, outcome = Ok response ∧ completion_of response = Raise e.
Proof. apply generate_answer_error_only_on_failure. Qed.

(** X16. With candidates, [generate_answer] sends exactly one request,
    whatever comes back: to the configured address, for the configured
    model, temperature and number of tokens, without streaming, and with
    the prompt built from the query and the candidates. *)
Theorem generate_answer_single_request query subgraphs s :
  subgraphs ≠ [] →
  ∃ payload,
    posts (generate_answer W cfg query subgraphs s).2
      = (OLLAMA_API_URL cfg, payload) :: posts s ∧
    pl_model payload = OLLAMA_MODEL cfg ∧
    pl_stream payload = false ∧
    pl_temperature payload = OLLAMA_TEMPERATURE cfg ∧
    pl_num_predict payload = OLLAMA_MAX_TOKENS cfg ∧
    pl_prompt payload
      = build_prompt cfg query ((λ l, heap s !!! l) <$> subgraphs).
Proof.
  intros Hne. eexists. split; [by apply generate_answer_one_request|done].
Qed.

(** X17. When the generation service answers 200 with a body that has no
    ['response'] key, [generate_answer] returns the empty answer and no
    error. *)
Theorem generate_answer_missing_response query subgraphs s response fields :
  subgraphs ≠ [] →
  let contexts := (λ l, heap s !!! l) <$> subgraphs in
  post W (OLLAMA_API_URL cfg) (request_of cfg query contexts) 120%Z = Ok response →
  status_code response = 200%Z →
  json response = Ok (JObject fields) →
  fields !! lit "response" = None →
  ∃ llm_result s',
    generate_answer W cfg query subgraphs s = (Ok llm_result, s') ∧
    llm_answer llm_result = [] ∧ llm_error llm_result = None.
Proof.
  intros Hne contexts Hpost Hstatus Hjson Hmissing.
  eexists _, _. split.
  - apply (generate_answer_success W cfg query subgraphs s response []); try done.
    unfold completion_of, response_text. by rewrite Hjson, Hmissing.
  - done.
Qed.

(** X18. When the generation service answers 200 with a text, the answer
    of [generate_answer] is that text without the blanks at its ends: the
    text is the answer between two runs of blanks, and the answer neither
    starts nor ends with a blank. *)
Theorem generate_answer_trimmed query subgraphs s response fields text :
  subgraphs ≠ [] →
  let contexts := (λ l, heap s !!! l) <$> subgraphs in
  post W (OLLAMA_API_URL cfg) (request_of cfg query contexts) 120%Z = Ok response →
  status_code response = 200%Z →
  json response = Ok (JObject fields) →
  fields !! lit "response" = Some (JStr text) →
  ∃ llm_result s' before after,
    generate_answer W cfg query subgraphs s = (Ok llm_result, s') ∧
    text = before ++ llm_answer llm_result ++ after ∧
    Forall (λ c, isspace c = true) before ∧
    Forall (λ c, isspace c = true) after ∧
    (∀ c, head (llm_answer llm_result) = Some c → isspace c = false) ∧
    (∀ c, last (llm_answer llm_result) = Some c → isspace c = false).
Proof.
  intros Hne contexts Hpost Hstatus Hjson Htext.
  destruct (strip_spec text) as (before & after & H1 & H2 & H3 & H4 & H5).
  eexists _, _, before, after. split.
  - apply (generate_answer_success W cfg query subgraphs s response (strip text));
      try done.
    unfold completion_of, response_text. by rewrite Hjson, Htext.
  - done.
Qed.

End generator_extras.

(** The length of a prompt. *)
Lemma build_prompt_length cfg query subgraphs :
  length (build_prompt cfg query subgraphs)
  = length (SYSTEM_PROMPT cfg) + length (format_context cfg subgraphs)
    + length query + PROMPT_FRAME_LENGTH.
Proof.
  unfold build_prompt. rewrite !length_app.
  change (length NL) with 1.
  change (length (str_repeat (lit "=") 80)) with 80.
  change (length (lit "User Question: ")) with 15.
  set (instructions := lit _).
  replace (length instructions) with 255 by (vm_compute; reflexivity).
  unfold PROMPT_FRAME_LENGTH. lia.
Qed.

(** X19. The prompt that [build_prompt] assembles is never longer than
    the system prompt, the query, the configured maximum of the context,
    the truncation marker and 358 characters of fixed text together. *)
Theorem build_prompt_bounded cfg query subgraphs :
  (0 ≤ MAX_CONTEXT_LENGTH cfg)%Z →
  (Z.of_nat (length (build_prompt cfg query subgraphs))
   ≤ Z.of_nat (length (SYSTEM_PROMPT cfg)) + Z.of_nat (length query)
     + MAX_CONTEXT_LENGTH cfg + Z.of_nat (length TRUNCATION_MARKER)
     + Z.of_nat PROMPT_FRAME_LENGTH)%Z.
Proof.
  intros Hmax. rewrite build_prompt_length.
  assert (Z.of_nat (length (format_context cfg subgraphs))
          ≤ MAX_CONTEXT_LENGTH cfg + Z.of_nat (length TRUNCATION_MARKER))%Z.
  { unfold format_context. set (full_context := NL ++ _).
    destruct (Z.ltb_spec (MAX_CONTEXT_LENGTH cfg) (Z.of_nat (length full_context))).
    - rewrite length_app, Nat2Z.inj_add.
      pose proof (slice_to_length_le full_context _ Hmax). lia.
    - lia. }
  lia.
Qed.

(** ** Display *)

Lemma join_lines_Some i (lines : list str) :
  join_lines i (Some <$> lines) = Ok lines.
Proof.
  revert i. induction lines as [|line lines IH]; intros i; cbn; [done|].
  by rewrite IH.
Qed.

Lemma join_lines_app_Some i (l1 : list str) (l2 : list (option str)) :
  join_lines i ((Some <$> l1) ++ l2) =
    match join_lines (i + length l1) l2 with
    | Ok lines => Ok (l1 ++ lines)
    | Raise e => Raise e
    end.
Proof.
  revert i. induction l1 as [|line l1 IH]; intros i; cbn.
  { rewrite Nat.add_0_r. by destruct (join_lines i l2). }
  rewrite IH. replace (S i + length l1) with (i + S (length l1)) by lia.
  by destruct (join_lines _ l2).
Qed.

Lemma imap_Some {A} (f : nat → A → str) (l : list A) :
  imap (λ i x, Some (f i x)) l = Some <$> imap f l.
Proof.
  revert f. induction l as [|x l IH]; intros f; cbn; [done|].
  f_equal. apply (IH (f ∘ S)).
Qed.

Lemma str_join_cons sep p ps :
  ps ≠ [] → str_join sep (p :: ps) = p ++ sep ++ str_join sep ps.
Proof. by destruct ps. Qed.

Lemma str_join_snoc sep ps p :
  ps ≠ [] → str_join sep (ps ++ [p]) = str_join sep ps ++ sep ++ p.
Proof.
  induction ps as [|q ps IH]; [done|]. intros _.
  destruct ps as [|q' ps]; [done|].
  change ((q :: q' :: ps) ++ [p]) with (q :: ((q' :: ps) ++ [p])).
  rewrite !str_join_cons by done. rewrite IH by done. by rewrite <-!app_assoc.
Qed.

Lemma str_join_app sep l1 l2 :
  l1 ≠ [] → l2 ≠ [] →
  str_join sep (l1 ++ l2) = str_join sep l1 ++ sep ++ str_join sep l2.
Proof.
  intros Hl1 Hl2. induction l1 as [|p l1 IH]; [done|].
  destruct l1 as [|q l1].
  - cbn [app]. by rewrite str_join_cons.
  - change ((p :: q :: l1) ++ l2) with (p :: ((q :: l1) ++ l2)).
    rewrite !str_join_cons by done. rewrite IH by done.
    by rewrite <-!app_assoc.
Qed.

Lemma str_join_prefix sep l1 l2 :
  str_join sep l1 `prefix_of` str_join sep (l1 ++ l2).
Proof.
  destruct l1 as [|p l1]; [apply prefix_nil|].
  destruct l2 as [|q l2]; [by rewrite app_nil_r|].
  rewrite str_join_app by done. by eexists.
Qed.

Lemma str_join_suffix sep l1 l2 :
  str_join sep l2 `suffix_of` str_join sep (l1 ++ l2).
Proof.
  destruct l2 as [|q l2]; [apply suffix_nil|].
  destruct l1 as [|p l1]; [done|].
  rewrite str_join_app by done. exists (str_join sep (p :: l1) ++ sep).
  by rewrite <-app_assoc.
Qed.

Section display.
Context (INCLUDE_SOURCE_ATTRIBUTION : bool).

(** X20. [format_answer_with_sources] never alters the answer: the text
    it returns starts with the answer, and it is the answer alone exactly
    when the attribution is switched off or there is no source. *)
Theorem format_answer_with_sources_keeps_answer result :
  let text := format_answer_with_sources INCLUDE_SOURCE_ATTRIBUTION result in
  llm_answer result `prefix_of` text ∧
  (text = llm_answer result
   ↔ INCLUDE_SOURCE_ATTRIBUTION = false ∨ llm_sources result = []).
Proof.
  unfold format_answer_with_sources.
  destruct INCLUDE_SOURCE_ATTRIBUTION; cbn; [|by split; [|split; [left|]]].
  case_bool_decide as Hsources; cbn.
  - split; [by eexists|]. split; [|by intros [|]].
    intros Htext. rewrite <-(app_nil_r (llm_answer result)) in Htext at 2.
    by apply app_inv_head in Htext.
  - split; [done|]. split; [|done]. intros _. right.
    by destruct (llm_sources result) as [|]; [|destruct Hsources].
Qed.

(** What [format_result_for_display] returns for a result with an answer
    and, when it has timings, a total. *)
Lemma format_result_for_display_Ok result a :
  answer result = Some a →
  timing result = ∅ ∨ is_Some (timing result !! "total") →
  ∃ text,
    format_result_for_display INCLUDE_SOURCE_ATTRIBUTION result = Ok text ∧
    (lit "ANSWER:" ++ NL ++ str_repeat BOX_DASH 60 ++ NL ++ a) `prefix_of` text ∧
    (∀ total, timing result !! "total" = Some total →
       (lit "Response time: " ++ format_2f total ++ lit "s") `suffix_of` text).
Proof.
  intros Ha Htiming. unfold format_result_for_display. rewrite Ha.
  set (head_lines := [lit "ANSWER:"; str_repeat BOX_DASH 60; a]).
  set (source_lines :=
         if bool_decide (sources result ≠ []) && INCLUDE_SOURCE_ATTRIBUTION
         then [NL ++ str_repeat BOX_DASH 60; lit "SOURCES:"]
              ++ imap (λ i source, source_line (S i) source) (sources result)
         else []).
  assert ((if bool_decide (sources result ≠ []) && INCLUDE_SOURCE_ATTRIBUTION
           then [Some (lit "ANSWER:"); Some (str_repeat BOX_DASH 60); Some a]
                ++ [Some (NL ++ str_repeat BOX_DASH 60); Some (lit "SOURCES:")]
                ++ imap (λ i source, Some (source_line (S i) source))
                        (sources result)
           else [Some (lit "ANSWER:"); Some (str_repeat BOX_DASH 60); Some a])
          = Some <$> (head_lines ++ source_lines)) as ->.
  { unfold source_lines, head_lines. case_match; [|done].
    rewrite imap_Some. by rewrite !fmap_app. }
  assert (str_join NL head_lines
          = lit "ANSWER:" ++ NL ++ str_repeat BOX_DASH 60 ++ NL ++ a) as Hhead.
  { done. }
  case_bool_decide as Hnonempty.
  - destruct Htiming as [Hempty|[total Htotal]]; [done|]. rewrite Htotal.
    change [Some (NL ++ str_repeat BOX_DASH 60);
            Some (lit "Response time: " ++ format_2f total ++ lit "s")]
      with (Some <$> [NL ++ str_repeat BOX_DASH 60;
                      lit "Response time: " ++ format_2f total ++ lit "s"]).
    rewrite <-fmap_app, join_lines_Some.
    eexists. split; [done|]. split.
    + rewrite <-Hhead, <-app_assoc. apply str_join_prefix.
    + intros total' [= <-].
      change [NL ++ str_repeat BOX_DASH 60;
              lit "Response time: " ++ format_2f total ++ lit "s"]
        with ([NL ++ str_repeat BOX_DASH 60]
              ++ [lit "Response time: " ++ format_2f total ++ lit "s"]).
      rewrite (app_assoc (head_lines ++ source_lines)).
      apply (str_join_suffix NL
               ((head_lines ++ source_lines) ++ [NL ++ str_repeat BOX_DASH 60])
               [lit "Response time: " ++ format_2f total ++ lit "s"]).
  - rewrite join_lines_Some.
    eexists. split; [done|]. split.
    + rewrite <-Hhead. apply str_join_prefix.
    + intros total Htotal. by rewrite Hnonempty in Htotal.
Qed.

(** X21. [format_result_for_display] fails in two cases only: with
    [KeyError('total')] on a result that has timings but no total, and, the
    timings being in order, with the error of joining [None] on a result
    whose answer is [None].  Otherwise it returns a text that starts with
    the header and the answer. *)
Theorem format_result_for_display_failures result :
  (timing result ≠ ∅ → timing result !! "total" = None →
     format_result_for_display INCLUDE_SOURCE_ATTRIBUTION result
       = Raise (KeyError (lit "total"))) ∧
  (timing result = ∅ ∨ is_Some (timing result !! "total") →
     answer result = None →
     format_result_for_display INCLUDE_SOURCE_ATTRIBUTION result
       = Raise (Exception
                  (lit "sequence item 2: expected str instance, NoneType found"))) ∧
  (timing result = ∅ ∨ is_Some (timing result !! "total") →
     ∀ a, answer result = Some a →
     ∃ text,
       format_result_for_display INCLUDE_SOURCE_ATTRIBUTION result = Ok text ∧
       (lit "ANSWER:" ++ NL ++ str_repeat BOX_DASH 60 ++ NL ++ a) `prefix_of` text).
Proof.
  split_and!.
  - intros Hnonempty Hmissing. unfold format_result_for_display.
    by rewrite bool_decide_eq_true_2, Hmissing.
  - intros Htiming Hanswer. unfold format_result_for_display. rewrite Hanswer.
    assert (∀ rest,
              join_lines 0 ([Some (lit "ANSWER:"); Some (str_repeat BOX_DASH 60);
                             None] ++ rest)
              = Raise (Exception
                  (lit "sequence item 2: expected str instance, NoneType found")))
      as Hjoin by done.
    assert (∃ rest,
              (if bool_decide (sources result ≠ []) && INCLUDE_SOURCE_ATTRIBUTION
               then [Some (lit "ANSWER:"); Some (str_repeat BOX_DASH 60); None]
                    ++ [Some (NL ++ str_repeat BOX_DASH 60); Some (lit "SOURCES:")]
                    ++ imap (λ i source, Some (source_line (S i) source))
                            (sources result)
               else [Some (lit "ANSWER:"); Some (str_repeat BOX_DASH 60); None])
              = [Some (lit "ANSWER:"); Some (str_repeat BOX_DASH 60); None] ++ rest)
      as [rest ->].
    { case_match; [by eexists|]. exists []. by rewrite app_nil_r. }
    case_bool_decide as Hnonempty.
    + destruct Htiming as [Hempty|[total Htotal]]; [done|]. rewrite Htotal.
      by rewrite <-app_assoc, Hjoin.
    + by rewrite Hjoin.
  - intros Htiming a Ha.
    destruct (format_result_for_display_Ok result a Ha Htiming)
      as (text & Htext & Hprefix & _).
    by exists text.
Qed.

End display.

(** ** The orchestrator, continued *)

Ltac process_query_unfold :=
  unfold process_query, with_result, try_except, bind, lift, update_result,
    modify, get_result, ret, time_time;
  cbn -[NO_RESULTS_ANSWER PIPELINE_ERROR_ANSWER
        search_with_subgraphs rerank generate_answer].

Ltac process_query_next :=
  cbn -[NO_RESULTS_ANSWER PIPELINE_ERROR_ANSWER
        search_with_subgraphs rerank generate_answer].

Section orchestrator_runs.
Context (W : World) (cfg : Config).
Implicit Types (query : str) (verbose : bool) (s : PyState).

(** The five ways through [process_query]. *)
Lemma process_query_search_raises query verbose s e s1 :
  search_with_subgraphs W cfg query (Some (TOP_K_VECTOR_SEARCH cfg))
    (tick (tick s)) = (Raise e, s1) →
  process_query W cfg query verbose s =
    (Ok {| query := query; answer := Some PIPELINE_ERROR_ANSWER; sources := [];
           error := Some (str_exn e);
           timing :=
             <["total" :=
                  float_sub (clock W (ticks s1)) (clock W (ticks s))]> ∅ |},
     tick s1).
Proof. intros Hsearch. process_query_unfold. by rewrite Hsearch. Qed.

Lemma process_query_no_results query verbose s s1 :
  search_with_subgraphs W cfg query (Some (TOP_K_VECTOR_SEARCH cfg))
    (tick (tick s)) = (Ok [], s1) →
  process_query W cfg query verbose s =
    (Ok {| query := query; answer := Some NO_RESULTS_ANSWER; sources := [];
           error := None;
           timing :=
             <["total" :=
                  float_sub (clock W (S (ticks s1))) (clock W (ticks s))]>
               (<["vector_search" :=
                    float_sub (clock W (ticks s1))
                      (clock W (S (ticks s)))]> ∅) |},
     tick (tick s1)).
Proof. intros Hsearch. process_query_unfold. by rewrite Hsearch. Qed.

Lemma process_query_rerank_raises query verbose s subgraphs s1 e s2 :
  search_with_subgraphs W cfg query (Some (TOP_K_VECTOR_SEARCH cfg))
    (tick (tick s)) = (Ok subgraphs, s1) →
  subgraphs ≠ [] →
  rerank W cfg query subgraphs (Some (TOP_N_RERANKED cfg)) (tick (tick s1)) = (Raise e, s2) →
  process_query W cfg query verbose s =
    (Ok {| query := query; answer := Some PIPELINE_ERROR_ANSWER; sources := [];
           error := Some (str_exn e);
           timing :=
             <["total" := float_sub (clock W (ticks s2)) (clock W (ticks s))]>
               (<["vector_search" :=
                    float_sub (clock W (ticks s1))
                      (clock W (S (ticks s)))]> ∅) |},
     tick s2).
Proof.
  intros Hsearch Hne Hrerank. process_query_unfold. rewrite Hsearch.
  destruct subgraphs as [|l ls]; [done|]. process_query_next.
  by rewrite Hrerank.
Qed.

Lemma process_query_generate_raises query verbose s subgraphs s1 reranked s2 e s3 :
  search_with_subgraphs W cfg query (Some (TOP_K_VECTOR_SEARCH cfg))
    (tick (tick s)) = (Ok subgraphs, s1) →
  subgraphs ≠ [] →
  rerank W cfg query subgraphs (Some (TOP_N_RERANKED cfg)) (tick (tick s1)) = (Ok reranked, s2) →
  generate_answer W cfg query reranked (tick (tick s2)) = (Raise e, s3) →
  process_query W cfg query verbose s =
    (Ok {| query := query; answer := Some PIPELINE_ERROR_ANSWER; sources := [];
           error := Some (str_exn e);
           timing :=
             <["total" := float_sub (clock W (ticks s3)) (clock W (ticks s))]>
               (<["reranking" :=
                    float_sub (clock W (ticks s2)) (clock W (S (ticks s1)))]>
                  (<["vector_search" :=
                       float_sub (clock W (ticks s1))
                         (clock W (S (ticks s)))]> ∅)) |},
     tick s3).
Proof.
  intros Hsearch Hne Hrerank Hgenerate. process_query_unfold. rewrite Hsearch.
  destruct subgraphs as [|l ls]; [done|]. process_query_next.
  rewrite Hrerank. process_query_next. by rewrite Hgenerate.
Qed.

Lemma process_query_generated query verbose s subgraphs s1 reranked s2 llm_result s3 :
  search_with_subgraphs W cfg query (Some (TOP_K_VECTOR_SEARCH cfg))
    (tick (tick s)) = (Ok subgraphs, s1) →
  subgraphs ≠ [] →
  rerank W cfg query subgraphs (Some (TOP_N_RERANKED cfg)) (tick (tick s1)) = (Ok reranked, s2) →
  generate_answer W cfg query reranked (tick (tick s2)) = (Ok llm_result, s3) →
  process_query W cfg query verbose s =
    (Ok {| query := query; answer := Some (llm_answer llm_result);
           sources := llm_sources llm_result;
           error := llm_error llm_result;
           timing :=
             <["total" :=
                  float_sub (clock W (S (ticks s3))) (clock W (ticks s))]>
               (<["llm_generation" :=
                    float_sub (clock W (ticks s3)) (clock W (S (ticks s2)))]>
                  (<["reranking" :=
                       float_sub (clock W (ticks s2)) (clock W (S (ticks s1)))]>
                     (<["vector_search" :=
                          float_sub (clock W (ticks s1))
                            (clock W (S (ticks s)))]> ∅))) |},
     tick (tick s3)).
Proof.
  intros Hsearch Hne Hrerank Hgenerate. process_query_unfold. rewrite Hsearch.
  destruct subgraphs as [|l ls]; [done|]. process_query_next.
  rewrite Hrerank. process_query_next. by rewrite Hgenerate.
Qed.

(** Every result of [process_query] has an answer and a total time. *)
Lemma process_query_shape query verbose s :
  ∃ r s' a total,
    process_query W cfg query verbose s = (Ok r, s') ∧
    answer r = Some a ∧ timing r !! "total" = Some total.
Proof.
  destruct (search_with_subgraphs W cfg query (Some (TOP_K_VECTOR_SEARCH cfg))
              (tick (tick s))) as [[subgraphs|e] s1] eqn:Hsearch.
  - destruct (decide (subgraphs = [])) as [->|Hne].
    { eexists _, _, _, _. split; [by apply process_query_no_results|].
      split; [done|]. apply lookup_insert_eq. }
    destruct (rerank W cfg query subgraphs (Some (TOP_N_RERANKED cfg))
                (tick (tick s1))) as [[reranked|e] s2] eqn:Hrerank.
    + destruct (generate_answer W cfg query reranked (tick (tick s2))) as [[llm_result|e] s3] eqn:Hgenerate.
      * eexists _, _, _, _. split; [by eapply process_query_generated|].
        split; [done|]. apply lookup_insert_eq.
      * eexists _, _, _, _. split; [by eapply process_query_generate_raises|].
        split; [done|]. apply lookup_insert_eq.
    + eexists _, _, _, _. split; [by eapply process_query_rerank_raises|].
      split; [done|]. apply lookup_insert_eq.
  - eexists _, _, _, _. split; [by eapply process_query_search_raises|].
    split; [done|]. apply lookup_insert_eq.
Qed.

End orchestrator_runs.

(** ** What a query leaves behind *)

Section frame.
Context (W : World) (cfg : Config).

Lemma vector_search_state query top_k s :
  (vector_search W cfg query top_k s).2 = s.
Proof.
  apply (preserves_bind (λ s, s)); [|intros embedding].
  { unfold generate_query_embedding. apply preserves_of_res. }
  apply preserves_bind; [apply preserves_of_res|intros rows]. done.
Qed.

Lemma build_subgraph_context_extends section s :
  let r := build_subgraph_context W section s in
  heap s ⊆ heap r.2 ∧ posts r.2 = posts s ∧
  ∀ l, r.1 = Ok l → heap s !! l = None.
Proof.
  unfold build_subgraph_context, get_section_entities, bind, of_res, ret, alloc.
  destruct (run_entity_query W _ _) as [names|e]; cbn.
  - split_and!; [|done|].
    + apply insert_subseteq, not_elem_of_dom, is_fresh.
    + intros l [= <-]. apply not_elem_of_dom, is_fresh.
  - done.
Qed.

Lemma build_all_extends sections s :
  let r := for_each (build_subgraph_context W) sections s in
  heap s ⊆ heap r.2 ∧ posts r.2 = posts s ∧
  ∀ out, r.1 = Ok out → Forall (λ l, heap s !! l = None) out.
Proof.
  revert s. induction sections as [|section sections IH]; intros s.
  { cbn. split_and!; [done..|]. by intros out [= <-]. }
  cbn [for_each].
  destruct (build_subgraph_context_extends section s) as (Hsub & Hposts & Hnew).
  destruct (build_subgraph_context W section s) as [[l|e] s1] eqn:Hbuild;
    cbn in Hsub, Hposts, Hnew.
  - rewrite (bind_ok _ _ _ _ _ Hbuild).
    destruct (IH s1) as (Hsub' & Hposts' & Hnew').
    destruct (for_each _ sections s1) as [[out|e] s2] eqn:Hrest;
      cbn in Hsub', Hposts', Hnew'.
    + rewrite (bind_ok _ _ _ _ _ Hrest). cbn.
      split_and!; [by etrans|congruence|]. intros out' [= <-].
      constructor; [by apply Hnew|].
      eapply Forall_impl; [by apply Hnew'|]. cbn. intros l' Hl'.
      by eapply lookup_weaken_None.
    + rewrite (bind_raise _ _ _ _ _ Hrest). cbn.
      split_and!; [by etrans|congruence|done].
  - rewrite (bind_raise _ _ _ _ _ Hbuild). done.
Qed.

(** [search_with_subgraphs] only adds dictionaries, and sends nothing. *)
Lemma search_with_subgraphs_extends query top_k s :
  let r := search_with_subgraphs W cfg query top_k s in
  heap s ⊆ heap r.2 ∧ posts r.2 = posts s ∧
  ∀ out, r.1 = Ok out → Forall (λ l, heap s !! l = None) out.
Proof.
  unfold search_with_subgraphs, bind.
  pose proof (vector_search_state query top_k s) as Hstate.
  destruct (vector_search W cfg query top_k s) as [[sections|e] s0];
    cbn in Hstate; subst s0; [|done].
  destruct (filter _ sections) as [|section kept] eqn:Hkept.
  { cbn. split_and!; [done..|]. by intros out [= <-]. }
  apply build_all_extends.
Qed.

(** [rerank] writes to its candidates only, and sends nothing. *)
Lemma rerank_frame query subgraphs top_n s :
  let r := rerank W cfg query subgraphs top_n s in
  posts r.2 = posts s ∧
  ∀ l, l ∉ subgraphs → heap r.2 !! l = heap s !! l.
Proof.
  destruct (decide (subgraphs = [])) as [->|Hne]; [done|].
  cbn zeta. rewrite rerank_nonempty by done.
  erewrite bind_ok; last first.
  { apply (for_each_pure (λ s l, (query, prepare_pair cfg query (heap s !!! l)))).
    intros l. done. }
  destruct (predict W _) as [scores|e].
  - erewrite bind_ok by (unfold of_res; reflexivity).
    erewrite bind_ok by apply for_each_setitem.
    set (s1 := set_heap _ s).
    assert (preserves (λ s, s)
              (bind (sorted_reverse getitem_cross_encoder_score subgraphs)
                 (λ reranked,
                    ret (slice_to reranked (default (TOP_N_RERANKED cfg) top_n)))))
      as Hsame.
    { unfold sorted_reverse, getitem_cross_encoder_score.
      repeat preserves_step. }
    rewrite (Hsame s1). split; [done|]. intros l Hl. cbn.
    apply assign_scores_notin. rewrite fst_zip_take.
    intros Hin. apply Hl. by eapply subseteq_take.
  - erewrite bind_raise by (unfold of_res; reflexivity).
    done.
Qed.

(** What [rerank] returns is a selection of its candidates, no longer than
    it was asked for. *)
Lemma rerank_selection query subgraphs top_n s reranked s' :
  rerank W cfg query subgraphs top_n s = (Ok reranked, s') →
  reranked ⊆ subgraphs ∧
  ((0 ≤ default (TOP_N_RERANKED cfg) top_n)%Z →
   (Z.of_nat (length reranked) ≤ default (TOP_N_RERANKED cfg) top_n)%Z).
Proof.
  destruct (decide (subgraphs = [])) as [->|Hne].
  { intros [= <- <-]. split; [done|]. cbn. lia. }
  rewrite rerank_nonempty by done.
  intros (pairs & s1 & _ & Hrun)%bind_inv_ok.
  apply bind_inv_ok in Hrun as (scores & s2 & _ & Hrun).
  apply bind_inv_ok in Hrun as (units & s3 & _ & Hrun).
  apply bind_inv_ok in Hrun as (sorted & s4 & Hsorted & Hrun).
  injection Hrun as <- <-.
  unfold sorted_reverse in Hsorted.
  apply bind_inv_ok in Hsorted as (keys & s5 & Hkeys & Hsorted).
  injection Hsorted as <- <-.
  assert (length keys = length subgraphs) as Hlen.
  { clear -Hkeys. revert keys s3 s5 Hkeys.
    induction subgraphs as [|l ls IH]; intros keys s3 s5 Hkeys.
    - by injection Hkeys as <- <-.
    - cbn [for_each] in Hkeys.
      apply bind_inv_ok in Hkeys as (k & s6 & _ & Hkeys).
      apply bind_inv_ok in Hkeys as (ks & s7 & Hks & Hkeys).
      injection Hkeys as <- <-. cbn. f_equal. by eapply IH. }
  split.
  - intros l Hl.
    destruct (slice_to_take ((stable_sort_desc (zip keys subgraphs)).*2)
                (default (TOP_N_RERANKED cfg) top_n)) as [n Hn].
    rewrite Hn in Hl. apply subseteq_take in Hl.
    apply list_elem_of_fmap in Hl as ([k l'] & -> & Hl).
    rewrite stable_sort_desc_Permutation in Hl.
    by apply elem_of_zip_r in Hl.
  - apply slice_to_length_le.
Qed.

(** A failed generation has no attribution. *)
Lemma generate_answer_failed_sources query subgraphs s llm_result s' msg :
  generate_answer W cfg query subgraphs s = (Ok llm_result, s') →
  llm_error llm_result = Some msg → llm_sources llm_result = [].
Proof.
  destruct (decide (subgraphs = [])) as [->|Hne].
  { by intros [= <- <-]. }
  rewrite generate_answer_nonempty by done.
  unfold try_except, requests_post, bind, modify, of_res, ret. cbn.
  destruct (post W _ _ _) as [response|e]; cbn.
  - case_decide; cbn; [by intros [= <- <-]|].
    destruct (json response) as [result|e]; cbn; [|by destruct e; intros [= <- <-]].
    destruct (response_text result) as [answer|e]; cbn;
      [|by destruct e; intros [= <- <-]].
    rewrite (for_each_pure (λ s l, source_of (heap s !!! l))) by done.
    by intros [= <- <-].
  - by destruct e; intros [= <- <-].
Qed.

(** One attribution per candidate, or none. *)
Lemma generate_answer_sources_length query subgraphs s llm_result s' :
  generate_answer W cfg query subgraphs s = (Ok llm_result, s') →
  length (llm_sources llm_result) ≤ length subgraphs.
Proof.
  destruct (decide (subgraphs = [])) as [->|Hne].
  { by intros [= <- <-]. }
  rewrite generate_answer_nonempty by done.
  unfold try_except, requests_post, bind, modify, of_res, ret. cbn.
  destruct (post W _ _ _) as [response|e]; cbn.
  - case_decide; cbn; [intros [= <- <-]; cbn; lia|].
    destruct (json response) as [result|e]; cbn;
      [|destruct e; intros [= <- <-]; cbn; lia].
    destruct (response_text result) as [answer|e]; cbn;
      [|destruct e; intros [= <- <-]; cbn; lia].
    rewrite (for_each_pure (λ s l, source_of (heap s !!! l))) by done.
    intros [= <- <-]. cbn. by rewrite !length_fmap.
  - destruct e; intros [= <- <-]; cbn; lia.
Qed.

End frame.

Section orchestrator_extras.
Context (W : World) (cfg : Config).

(** X22. Every result of [process_query] can be displayed: whatever the
    stages do, [format_result_for_display] returns a text for it, which
    starts with the heading and the answer and ends with the total time. *)
Theorem process_query_displayable attribution query verbose s :
  ∃ r s' a total text,
    process_query W cfg query verbose s = (Ok r, s') ∧
    answer r = Some a ∧
    timing r !! "total" = Some total ∧
    format_result_for_display attribution r = Ok text ∧
    (lit "ANSWER:" ++ NL ++ str_repeat BOX_DASH 60 ++ NL ++ a) `prefix_of` text ∧
    (lit "Response time: " ++ format_2f total ++ lit "s") `suffix_of` text.
Proof.
  destruct (process_query_shape W cfg query verbose s)
    as (r & s' & a & total & Hrun & Ha & Htotal).
  destruct (format_result_for_display_Ok attribution r a Ha)
    as (text & Htext & Hprefix & Hsuffix).
  { right. by eexists. }
  exists r, s', a, total, text. split_and!; try done. by apply Hsuffix.
Qed.

(** X23. When the vector query succeeds and every row is below the
    similarity floor, [process_query] called with [verbose=False] answers
    with the fixed no-results message, without error and without sources,
    times the vector search and the whole only, allocates nothing and sends
    no request. *)
Theorem process_query_nothing_relevant query s embedding rows :
  encode W query = Ok embedding →
  run_vector_query W (VECTOR_INDEX_NAME cfg) (TOP_K_VECTOR_SEARCH cfg) embedding
    = Ok rows →
  Forall (λ r, (rec_score r < MIN_SIMILARITY_THRESHOLD cfg)%Qc) rows →
  ∃ r s',
    process_query W cfg query false s = (Ok r, s') ∧
    answer r = Some NO_RESULTS_ANSWER ∧ sources r = [] ∧ error r = None ∧
    dom (timing r) = {["vector_search"; "total"]} ∧
    heap s' = heap s ∧ posts s' = posts s.
Proof.
  intros Hencode Hrun Hbelow.
  assert (retained cfg rows = []) as Hnone.
  { unfold retained. clear Hrun.
    induction Hbelow as [|r rows Hr _ IH]; [done|].
    rewrite filter_cons, decide_False; [done|]. by apply Qclt_not_le. }
  eexists _, _. split.
  { apply process_query_no_results.
    rewrite (search_with_subgraphs_run W cfg query (Some (TOP_K_VECTOR_SEARCH cfg))
               _ embedding rows Hencode Hrun).
    by rewrite Hnone. }
  cbn -[NO_RESULTS_ANSWER]. split_and!; try done;
    rewrite !dom_insert_L, dom_empty_L; set_solver.
Qed.

(** X24. When the embedding model or the vector query raises,
    [process_query] called with [verbose=False] answers with the fixed
    fallback message and the message of the exception as error, without
    sources, times the whole only, allocates nothing and sends no
    request. *)
Theorem process_query_upstream_failure query s e :
  encode W query = Raise e ∨
  (∃ embedding,
     encode W query = Ok embedding ∧
     run_vector_query W (VECTOR_INDEX_NAME cfg) (TOP_K_VECTOR_SEARCH cfg)
       embedding = Raise e) →
  ∃ r s',
    process_query W cfg query false s = (Ok r, s') ∧
    answer r = Some PIPELINE_ERROR_ANSWER ∧ sources r = [] ∧
    error r = Some (str_exn e) ∧
    dom (timing r) = {["total"]} ∧
    heap s' = heap s ∧ posts s' = posts s.
Proof.
  intros Hfail. eexists _, _. split.
  { apply process_query_search_raises. apply bind_raise.
    unfold vector_search, generate_query_embedding, bind, of_res. cbn.
    destruct Hfail as [->|(embedding & -> & ->)]; done. }
  cbn -[PIPELINE_ERROR_ANSWER]. split_and!; try done;
    by rewrite dom_insert_L, dom_empty_L, right_id_L.
Qed.

(** X25. When the cross-encoder is down, [process_query] called with
    [verbose=False] answers with the fixed fallback message and the message
    of the exception as error, without sources and without a reranking
    time, and it sends no request to the generation service. *)
Theorem process_query_scorer_down query s embedding rows e :
  encode W query = Ok embedding →
  run_vector_query W (VECTOR_INDEX_NAME cfg) (TOP_K_VECTOR_SEARCH cfg) embedding
    = Ok rows →
  Forall (λ r, ∃ names, lookup_terms W r = Ok names) (retained cfg rows) →
  retained cfg rows ≠ [] →
  (∀ pairs, predict W pairs = Raise e) →
  ∃ r s',
    process_query W cfg query false s = (Ok r, s') ∧
    answer r = Some PIPELINE_ERROR_ANSWER ∧ sources r = [] ∧
    error r = Some (str_exn e) ∧
    dom (timing r) = {["vector_search"; "total"]} ∧
    posts s' = posts s.
Proof.
  intros Hencode Hrun Hterms Hkept Hdown.
  destruct (build_all_returns W (retained cfg rows) (tick (tick s)) Hterms)
    as (out & s1 & Hbuild & Hout & _ & _ & _ & _ & Hposts).
  assert (out ≠ []) as Hne.
  { intros ->. apply Forall2_length in Hout. by destruct (retained cfg rows). }
  eexists _, _. split.
  { eapply process_query_rerank_raises; [|exact Hne|].
    - by rewrite (search_with_subgraphs_run W cfg query (Some (TOP_K_VECTOR_SEARCH cfg))
               _ embedding rows Hencode Hrun).
    - rewrite rerank_nonempty by done.
      erewrite bind_ok; last first.
      { apply (for_each_pure
                 (λ s l, (query, prepare_pair cfg query (heap s !!! l)))).
        intros l. done. }
      apply bind_raise. unfold of_res. by rewrite Hdown. }
  cbn -[PIPELINE_ERROR_ANSWER]. split_and!; try done;
    rewrite !dom_insert_L, dom_empty_L; set_solver.
Qed.

(** X26. Whatever the stages do, [process_query] changes no dictionary
    that existed before the call, and it sends at most one request, to the
    configured address of the generation service. *)
Theorem process_query_frame query verbose s :
  let s' := (process_query W cfg query verbose s).2 in
  heap s ⊆ heap s' ∧
  (posts s' = posts s
   ∨ ∃ payload, posts s' = (OLLAMA_API_URL cfg, payload) :: posts s).
Proof.
  cbn zeta.
  destruct (search_with_subgraphs_extends W cfg query
              (Some (TOP_K_VECTOR_SEARCH cfg)) (tick (tick s)))
    as (Hsub1 & Hposts1 & Hnew1).
  destruct (search_with_subgraphs W cfg query _ (tick (tick s)))
    as [[subgraphs|e] s1] eqn:Hsearch; cbn in Hsub1, Hposts1, Hnew1; last first.
  { erewrite process_query_search_raises by done. cbn. split; [done|by left]. }
  destruct (decide (subgraphs = [])) as [->|Hne].
  { erewrite process_query_no_results by done. cbn. split; [done|by left]. }
  specialize (Hnew1 _ eq_refl).
  destruct (rerank_frame W cfg query subgraphs (Some (TOP_N_RERANKED cfg))
              (tick (tick s1))) as (Hposts2 & Hframe2).
  destruct (rerank W cfg query subgraphs _ (tick (tick s1)))
    as [[reranked|e] s2] eqn:Hrerank; cbn in Hposts2, Hframe2.
  all: assert (heap s ⊆ heap s2) as Hsub2.
  1, 3: apply map_subseteq_spec; intros l x Hl; rewrite Hframe2;
        [by eapply lookup_weaken|];
        intros Hin; rewrite Forall_forall in Hnew1;
        by rewrite (Hnew1 l Hin) in Hl.
  2: { erewrite process_query_rerank_raises by done. cbn.
       split; [done|left; congruence]. }
  destruct (generate_answer_returns W cfg query reranked (tick (tick s2)))
    as (llm_result & s3 & Hgenerate & _).
  pose proof (generate_answer_preserves_heap W cfg query reranked
                (tick (tick s2))) as Hheap3.
  rewrite Hgenerate in Hheap3. cbn in Hheap3.
  erewrite process_query_generated by done. cbn.
  split; [by rewrite Hheap3|].
  destruct (decide (reranked = [])) as [->|Hne'].
  - injection Hgenerate as <- <-. left. cbn. congruence.
  - right.
    pose proof (generate_answer_one_request W cfg query reranked
                  (tick (tick s2)) Hne') as Hposts3.
    rewrite Hgenerate in Hposts3. cbn in Hposts3.
    eexists. rewrite Hposts3. by rewrite Hposts2, Hposts1.
Qed.

(** X27. A result of [process_query] that reports an error names no
    source. *)
Theorem process_query_error_no_sources query verbose s r s' msg :
  process_query W cfg query verbose s = (Ok r, s') →
  error r = Some msg →
  sources r = [].
Proof.
  destruct (search_with_subgraphs W cfg query (Some (TOP_K_VECTOR_SEARCH cfg))
              (tick (tick s))) as [[subgraphs|e] s1] eqn:Hsearch; last first.
  { erewrite process_query_search_raises by done. by intros [= <- <-]. }
  destruct (decide (subgraphs = [])) as [->|Hne].
  { erewrite process_query_no_results by done. by intros [= <- <-]. }
  destruct (rerank W cfg query subgraphs (Some (TOP_N_RERANKED cfg))
              (tick (tick s1))) as [[reranked|e] s2] eqn:Hrerank; last first.
  { erewrite process_query_rerank_raises by done. by intros [= <- <-]. }
  destruct (generate_answer_returns W cfg query reranked (tick (tick s2)))
    as (llm_result & s3 & Hgenerate & _).
  erewrite process_query_generated by done. intros [= <- <-]. cbn.
  by eapply generate_answer_failed_sources.
Qed.

(** X28. With a configured number of results that is not negative, a
    result of [process_query] never names more sources than that number,
    whatever the stages do. *)
Theorem process_query_sources_bounded query verbose s r s' :
  (0 ≤ TOP_N_RERANKED cfg)%Z →
  process_query W cfg query verbose s = (Ok r, s') →
  (Z.of_nat (length (sources r)) ≤ TOP_N_RERANKED cfg)%Z.
Proof.
  intros Htop.
  destruct (search_with_subgraphs W cfg query (Some (TOP_K_VECTOR_SEARCH cfg))
              (tick (tick s))) as [[subgraphs|e] s1] eqn:Hsearch; last first.
  { erewrite process_query_search_raises by done. by intros [= <- <-]. }
  destruct (decide (subgraphs = [])) as [->|Hne].
  { erewrite process_query_no_results by done. by intros [= <- <-]. }
  destruct (rerank W cfg query subgraphs (Some (TOP_N_RERANKED cfg))
              (tick (tick s1))) as [[reranked|e] s2] eqn:Hrerank; last first.
  { erewrite process_query_rerank_raises by done. by intros [= <- <-]. }
  destruct (generate_answer_returns W cfg query reranked (tick (tick s2)))
    as (llm_result & s3 & Hgenerate & _).
  erewrite process_query_generated by done. intros [= <- <-]. cbn.
  apply rerank_selection in Hrerank as [_ Hlen]. specialize (Hlen Htop).
  apply generate_answer_sources_length in Hgenerate. cbn in Hlen. lia.
Qed.

(** X29. When every service answers (the vector query returns rows of
    which some reach the similarity floor, the lookups of related terms
    succeed, the cross-encoder gives one score per pair and the generation
    service answers 200 with a completion) and the configured number of
    results is positive, [process_query] called with [verbose=False]
    returns that completion without error; it names as many sources as the
    smaller of the configured number and the number of rows that reach the
    floor, by decreasing relevance score, each with the names and the
    similarity of one of those rows; and it has sent exactly one request. *)
Theorem process_query_answers query s embedding rows completion :
  encode W query = Ok embedding →
  run_vector_query W (VECTOR_INDEX_NAME cfg) (TOP_K_VECTOR_SEARCH cfg) embedding
    = Ok rows →
  Forall (λ r, ∃ names, lookup_terms W r = Ok names) (retained cfg rows) →
  retained cfg rows ≠ [] →
  (0 < TOP_N_RERANKED cfg)%Z →
  scorer_contract W →
  (∀ payload, ∃ response,
     post W (OLLAMA_API_URL cfg) payload 120%Z = Ok response ∧
     status_code response = 200%Z ∧
     completion_of response = Ok completion) →
  ∃ r s',
    process_query W cfg query false s = (Ok r, s') ∧
    answer r = Some completion ∧ error r = None ∧
    Z.of_nat (length (sources r))
      = Z.min (TOP_N_RERANKED cfg) (Z.of_nat (length (retained cfg rows))) ∧
    descending (src_cross_encoder_score <$> sources r) ∧
    Forall (λ source, ∃ row,
              row ∈ retained cfg rows ∧
              src_substance_name source = rec_substance_name row ∧
              src_section_name source = rec_section_name row ∧
              src_similarity_score source = rec_score row) (sources r) ∧
    ∃ payload, posts s' = (OLLAMA_API_URL cfg, payload) :: posts s.
Proof.
  intros Hencode Hrun Hterms Hkept Htop Hscorer Hpost.
  (* Step 1: vector search *)
  destruct (build_all_returns W (retained cfg rows) (tick (tick s)) Hterms)
    as (out & s1 & Hbuild & Hout & _ & _ & _ & _ & Hposts1).
  assert (search_with_subgraphs W cfg query (Some (TOP_K_VECTOR_SEARCH cfg))
            (tick (tick s)) = (Ok out, s1)) as Hsearch.
  { by rewrite (search_with_subgraphs_run W cfg query
                  (Some (TOP_K_VECTOR_SEARCH cfg)) _ embedding rows Hencode Hrun). }
  assert (length out = length (retained cfg rows)) as Hlen_out.
  { symmetry. by eapply Forall2_length. }
  assert (out ≠ []) as Hne.
  { intros ->. by destruct (retained cfg rows). }
  (* Step 2: re-ranking *)
  destruct (Hscorer (rerank_pairs cfg query (heap (tick (tick s1))) out))
    as (scores & Hpredict & Hlen).
  unfold rerank_pairs in Hlen. rewrite length_fmap in Hlen.
  destruct (rerank_returns W cfg query out (Some (TOP_N_RERANKED cfg))
              (tick (tick s1)) scores Hpredict Hlen) as (keys & Hkeys & Hrerank).
  set (s2 := set_heap (λ h, assign_scores h (zip out scores)) (tick (tick s1)))
    in *.
  destruct (sorted_candidates _ _ _ Hkeys) as (Hall & Hperm & Hdesc & _).
  set (sorted := stable_sort_desc (zip keys out)) in *.
  assert (slice_to (sorted.*2) (default (TOP_N_RERANKED cfg)
                                   (Some (TOP_N_RERANKED cfg)))
          = take (Z.to_nat (TOP_N_RERANKED cfg)) (sorted.*2)) as Hslice.
  { unfold slice_to. cbn. by rewrite (proj2 (Z.leb_le 0 _)) by lia. }
  rewrite Hslice in Hrerank.
  set (reranked := take (Z.to_nat (TOP_N_RERANKED cfg)) (sorted.*2)) in *.
  assert (length (sorted.*2) = length out) as Hlen_sorted by by rewrite Hperm.
  assert (length reranked
          = Z.to_nat (TOP_N_RERANKED cfg) `min` length out) as Hlen_reranked.
  { unfold reranked. by rewrite length_take, Hlen_sorted. }
  assert (reranked ≠ []) as Hne'.
  { intros Hnil. rewrite Hnil in Hlen_reranked. cbn in Hlen_reranked.
    destruct out; [done|]. cbn in Hlen_reranked. lia. }
  (* Step 3: generation *)
  destruct (Hpost (request_of cfg query
                     ((λ l, heap (tick (tick s2)) !!! l) <$> reranked)))
    as (response & Hresponse & Hstatus & Hcompletion).
  pose proof (generate_answer_success W cfg query reranked (tick (tick s2))
                response completion Hne' Hresponse Hstatus Hcompletion)
    as Hgenerate.
  eexists _, _. split.
  { by eapply process_query_generated. }
  cbn [answer error sources llm_answer llm_error llm_sources].
  assert (∀ l, l ∈ reranked → l ∈ out) as Hin.
  { intros l Hl. apply subseteq_take in Hl. by rewrite Hperm in Hl. }
  split_and!; try done.
  - rewrite !length_fmap, Hlen_reranked. lia.
  - rewrite <-!list_fmap_compose.
    assert ((src_cross_encoder_score ∘ source_of
               ∘ (λ l, heap (tick (tick s2)) !!! l)) <$> reranked
            = take (Z.to_nat (TOP_N_RERANKED cfg)) (sorted.*1)) as ->.
    { unfold reranked. rewrite <-!fmap_take, <-list_fmap_compose.
      apply Forall_fmap_ext. eapply Forall_impl.
      - apply Forall_take, Hall.
      - intros [k l] Hk. cbn in *. unfold score_in in Hk. by rewrite Hk. }
    rewrite <-(take_drop (Z.to_nat (TOP_N_RERANKED cfg)) (sorted.*1)) in Hdesc.
    unfold descending in *.
    by apply StronglySorted_app in Hdesc as (_ & Hdesc & _).
  - apply Forall_fmap, Forall_fmap, Forall_forall. intros l Hl. cbn.
    apply Hin in Hl.
    pose proof Hl as [i Hi]%list_elem_of_lookup.
    destruct (Forall2_lookup_r _ _ _ _ _ Hout Hi)
      as (row & Hrow & names & _ & Hsg).
    exists row. split; [by eapply list_elem_of_lookup_2|].
    destruct (assign_scores_in (heap s1) (zip out scores) l) as (q & _ & Hq).
    { by rewrite fst_zip by lia. }
    change (heap (tick (tick s2))) with (assign_scores (heap s1) (zip out scores)).
    rewrite lookup_total_alt, Hq. cbn.
    by rewrite lookup_total_alt, Hsg.
  - eexists. cbn. by rewrite Hposts1.
Qed.

End orchestrator_extras.

(** ** The query endpoint *)

Section endpoint.
Context (W : World) (cfg : Config) (validation_error : str).

(** X30. Once the pipeline is set, the query endpoint never answers a
    request that has [verbose] off with an HTTP error, whatever the stages
    of the pipeline do: it returns a response with the answer, the error,
    the sources and the timings of the result of the pipeline. *)
Theorem query_endpoint_responds request s :
  rq_verbose request = false →
  ∃ r s' a total response,
    process_query W cfg (rq_query request) false s = (Ok r, s') ∧
    routes.process_query cfg validation_error (Some W) request s
      = (Ok (Responded response), s') ∧
    answer r = Some a ∧ qr_answer response = a ∧
    qr_error response = error r ∧
    qr_sources response = routes.source_response <$> sources r ∧
    timing r !! "total" = Some total ∧
    tr_total (qr_timing response) = total ∧
    tr_vector_search (qr_timing response) = timing r !! "vector_search" ∧
    tr_reranking (qr_timing response) = timing r !! "reranking" ∧
    tr_llm_generation (qr_timing response) = timing r !! "llm_generation".
Proof.
  intros Hquiet.
  destruct (process_query_shape W cfg (rq_query request) false s)
    as (r & s' & a & total & Hrun & Ha & Htotal).
  eexists r, s', a, total, _. split; [done|]. split.
  { unfold routes.process_query, try_except. rewrite Hquiet.
    rewrite (bind_ok _ _ _ _ _ Hrun). unfold routes.new_QueryResponse.
    rewrite Ha. reflexivity. }
  cbn. by rewrite Htotal.
Qed.

End endpoint.

(** * Further runs on the example data *)

(** *** The reranker *)

Lemma rerank_scorer_raises_witness :
  rerank scorer_down_world config mock_query [1; 2; 3]%positive None mock_state
    = (Raise (Exception (lit "CUDA out of memory")), mock_state).
Proof.
  apply (rerank_scorer_raises scorer_down_world config mock_query
           [1; 2; 3]%positive None mock_state).
  - done.
  - reflexivity.
Defined.

Lemma mock_candidates_NoDup : NoDup [1; 2; 3]%positive.
Proof. compute_done. Qed.

Lemma rerank_too_few_scores_witness :
  ∃ s',
    rerank short_scores_world config mock_query [1; 2; 3]%positive (Some 2%Z)
      mock_state = (Raise (KeyError (lit "cross_encoder_score")), s') ∧
    heap s' !! 3%positive = heap mock_state !! 3%positive ∧
    ticks s' = ticks mock_state ∧ posts s' = posts mock_state.
Proof.
  destruct (rerank_too_few_scores short_scores_world config mock_query
              [1; 2; 3]%positive (Some 2%Z) mock_state (take 2 mock_scores))
    as (s' & Hrun & _ & Hrest & Hticks & Hposts).
  - vm_compute. reflexivity.
  - cbn. lia.
  - apply mock_candidates_NoDup.
  - repeat (constructor; [vm_compute; reflexivity|]). constructor.
  - exists s'. split_and!; [exact Hrun| |exact Hticks|exact Hposts].
    apply (Hrest 2). { reflexivity. } cbn. lia.
Defined.

Lemma rerank_keeps_best_witness :
  ∃ out dropped s',
    rerank healthy_world config mock_query [1; 2; 3]%positive (Some 2%Z) mock_state
      = (Ok out, s') ∧
    out ++ dropped ≡ₚ [1; 2; 3]%positive ∧
    ∀ l d kl kd,
      l ∈ out → d ∈ dropped →
      score_in (heap s') l = Some kl → score_in (heap s') d = Some kd →
      (kd ≤ kl)%Qc.
Proof.
  apply (rerank_keeps_best healthy_world config mock_query [1; 2; 3]%positive
           (Some 2%Z) mock_state mock_scores).
  - vm_compute. reflexivity.
  - reflexivity.
Defined.

Lemma agreeing_scores_descending : descending agreeing_scores.
Proof.
  unfold descending, agreeing_scores.
  repeat (constructor; [|repeat (constructor; [by vm_compute|]); constructor]).
  constructor.
Qed.

Lemma rerank_agreeing_scores_witness :
  (rerank agreeing_world config mock_query [1; 2; 3]%positive (Some 2%Z)
     mock_state).1
    = Ok [1; 2]%positive.
Proof.
  apply (rerank_agreeing_scores agreeing_world config mock_query
           [1; 2; 3]%positive (Some 2%Z) mock_state agreeing_scores).
  - vm_compute. reflexivity.
  - reflexivity.
  - apply mock_candidates_NoDup.
  - apply agreeing_scores_descending.
Defined.

(** *** The comparison of two rankings *)

Lemma get_score_comparison_top_changed_witness :
  ∃ c,
    get_score_comparison config [1; 2; 3]%positive [2; 1]%positive mock_state
      = (Ok c, mock_state) ∧
    1 ≤ position_changes c.
Proof.
  eexists. split; [vm_compute; reflexivity|].
  eapply (get_score_comparison_top_changed config [1; 2; 3]%positive
            [2; 1]%positive mock_state).
  - vm_compute. reflexivity.
  - reflexivity.
Defined.

Lemma get_score_comparison_after_agreeing_rerank_witness :
  ∃ reranked s' c,
    rerank agreeing_world config mock_query [1; 2; 3]%positive None mock_state
      = (Ok reranked, s') ∧
    get_score_comparison config [1; 2; 3]%positive reranked s' = (Ok c, s') ∧
    top_result_changed c = false ∧
    position_changes c = 0 ∧
    total_results c = length reranked.
Proof.
  apply (get_score_comparison_after_agreeing_rerank agreeing_world config
           mock_query [1; 2; 3]%positive mock_state agreeing_scores).
  - vm_compute. reflexivity.
  - reflexivity.
  - apply mock_candidates_NoDup.
  - apply agreeing_scores_descending.
Defined.

(** *** The searcher *)

Lemma mock_terms_found :
  Forall (λ r, ∃ names, lookup_terms healthy_world r = Ok names)
    (retained config mock_rows).
Proof.
  rewrite mock_rows_retained.
  repeat (constructor; [by eexists|]). constructor.
Qed.

Lemma search_with_subgraphs_upstream_failure_witness :
  search_with_subgraphs offline_world config mock_query None empty_state
    = (Raise (Exception (lit "Connection refused")), empty_state).
Proof.
  apply (search_with_subgraphs_upstream_failure offline_world config mock_query
           None empty_state).
  left. reflexivity.
Defined.

Lemma search_with_subgraphs_count_witness :
  ∃ out s',
    search_with_subgraphs healthy_world config mock_query None empty_state
      = (Ok out, s') ∧
    length out = length (retained config mock_rows) ∧
    length out ≤ length mock_rows ∧
    (out = []
     ↔ Forall (λ r, (rec_score r < MIN_SIMILARITY_THRESHOLD config)%Qc) mock_rows).
Proof.
  apply (search_with_subgraphs_count healthy_world config mock_query None
           empty_state [Q2Qc 1; Q2Qc 0] mock_rows).
  - reflexivity.
  - reflexivity.
  - apply mock_terms_found.
Defined.

Lemma search_with_subgraphs_fresh_witness :
  ∃ out s',
    search_with_subgraphs healthy_world config mock_query None mock_state
      = (Ok out, s') ∧
    NoDup out ∧
    Forall (λ l, heap mock_state !! l = None ∧ is_Some (heap s' !! l) ∧
                 score_in (heap s') l = None) out ∧
    heap mock_state ⊆ heap s' ∧
    dom (heap s') = dom (heap mock_state) ∪ list_to_set out ∧
    ticks s' = ticks mock_state ∧ posts s' = posts mock_state.
Proof.
  apply (search_with_subgraphs_fresh healthy_world config mock_query None
           mock_state [Q2Qc 1; Q2Qc 0] mock_rows).
  - reflexivity.
  - reflexivity.
  - apply mock_terms_found.
Defined.

Lemma mock_rows_descending : descending (rec_score <$> mock_rows).
Proof.
  unfold descending, mock_rows. cbn [fmap list_fmap].
  repeat (constructor; [|repeat (constructor; [by vm_compute|]); constructor]).
  constructor.
Qed.

Lemma search_with_subgraphs_ordered_witness :
  ∃ out s',
    search_with_subgraphs healthy_world config mock_query None empty_state
      = (Ok out, s') ∧
    descending ((λ l, similarity_score (heap s' !!! l)) <$> out).
Proof.
  apply (search_with_subgraphs_ordered healthy_world config mock_query None
           empty_state [Q2Qc 1; Q2Qc 0] mock_rows).
  - reflexivity.
  - reflexivity.
  - apply mock_terms_found.
  - apply mock_rows_descending.
Defined.

(** *** The answer generator *)

Lemma generate_answer_on_success_witness :
  ∃ llm_result s',
    generate_answer plain_world config mock_query [2; 1]%positive mock_state
      = (Ok llm_result, s') ∧
    llm_answer llm_result = lit "It is likely safe in food amounts." ∧
    llm_error llm_result = None ∧
    length (llm_sources llm_result) = 2.
Proof.
  destruct (generate_answer_on_success plain_world config mock_query
              [2; 1]%positive mock_state
              (mock_response "  It is likely safe in food amounts.  ")
              (lit "It is likely safe in food amounts."))
    as (llm_result & s' & Hrun & Hanswer & Herror & Hlength & _).
  - done.
  - reflexivity.
  - reflexivity.
  - vm_compute. reflexivity.
  - by exists llm_result, s'.
Defined.

Lemma generate_answer_no_spurious_error_witness :
  let contexts := (λ l, heap mock_state !!! l) <$> [1; 2]%positive in
  let outcome :=
    post timeout_world (OLLAMA_API_URL config)
      (request_of config mock_query contexts) 120%Z in
  service_failure outcome
  ∨ ∃ response e, outcome = Ok response ∧ completion_of response = Raise e.
Proof.
  eapply (generate_answer_no_spurious_error timeout_world config mock_query
            [1; 2]%positive mock_state).
  - vm_compute. reflexivity.
  - reflexivity.
Defined.

Lemma generate_answer_single_request_witness :
  ∃ payload,
    posts (generate_answer timeout_world config mock_query [1; 2]%positive
             mock_state).2
      = [(OLLAMA_API_URL config, payload)] ∧
    pl_model payload = lit "mistral:7b" ∧
    pl_stream payload = false.
Proof.
  destruct (generate_answer_single_request timeout_world config mock_query
              [1; 2]%positive mock_state)
    as (payload & Hposts & Hmodel & Hstream & _).
  - done.
  - by exists payload.
Defined.

Lemma generate_answer_missing_response_witness :
  ∃ llm_result s',
    generate_answer keyless_world config mock_query [1; 2]%positive mock_state
      = (Ok llm_result, s') ∧
    llm_answer llm_result = [] ∧ llm_error llm_result = None.
Proof.
  eapply (generate_answer_missing_response keyless_world config mock_query
            [1; 2]%positive mock_state).
  - done.
  - reflexivity.
  - reflexivity.
  - reflexivity.
  - vm_compute. reflexivity.
Defined.

Lemma generate_answer_trimmed_witness :
  ∃ llm_result s' before after,
    generate_answer plain_world config mock_query [1; 2]%positive mock_state
      = (Ok llm_result, s') ∧
    lit "  It is likely safe in food amounts.  "
      = before ++ llm_answer llm_result ++ after ∧
    Forall (λ c, isspace c = true) before ∧
    Forall (λ c, isspace c = true) after ∧
    (∀ c, head (llm_answer llm_result) = Some c → isspace c = false) ∧
    (∀ c, last (llm_answer llm_result) = Some c → isspace c = false).
Proof.
  eapply (generate_answer_trimmed plain_world config mock_query
            [1; 2]%positive mock_state).
  - done.
  - reflexivity.
  - reflexivity.
  - reflexivity.
  - vm_compute. reflexivity.
Defined.

Lemma build_prompt_bounded_witness :
  (Z.of_nat (length (build_prompt config mock_query mock_subgraphs))
   ≤ Z.of_nat (length (SYSTEM_PROMPT config)) + Z.of_nat (length mock_query)
     + MAX_CONTEXT_LENGTH config + Z.of_nat (length TRUNCATION_MARKER)
     + Z.of_nat PROMPT_FRAME_LENGTH)%Z.
Proof. apply (build_prompt_bounded config mock_query mock_subgraphs). done. Defined.

(** *** The display *)

Lemma format_result_for_display_failures_witness :
  format_result_for_display SHIPPED_INCLUDE_SOURCE_ATTRIBUTION untimed_result
    = Raise (KeyError (lit "total")).
Proof.
  apply (proj1 (format_result_for_display_failures
                  SHIPPED_INCLUDE_SOURCE_ATTRIBUTION untimed_result)).
  - apply (insert_non_empty (M := gmap string)).
  - reflexivity.
Defined.

(** *** The orchestrator *)

Lemma process_query_nothing_relevant_witness :
  ∃ r s',
    process_query healthy_world (config_with_threshold (Q2Qc (9 # 10)))
      mock_query false empty_state = (Ok r, s') ∧
    answer r = Some NO_RESULTS_ANSWER ∧ sources r = [] ∧ error r = None ∧
    dom (timing r) = {["vector_search"; "total"]} ∧
    heap s' = heap empty_state ∧ posts s' = posts empty_state.
Proof.
  apply (process_query_nothing_relevant healthy_world
           (config_with_threshold (Q2Qc (9 # 10))) mock_query empty_state
           [Q2Qc 1; Q2Qc 0] mock_rows).
  - reflexivity.
  - reflexivity.
  - repeat (constructor; [by vm_compute|]). constructor.
Defined.

Lemma process_query_upstream_failure_witness :
  ∃ r s',
    process_query offline_world config mock_query false empty_state = (Ok r, s') ∧
    answer r = Some PIPELINE_ERROR_ANSWER ∧ sources r = [] ∧
    error r = Some (lit "Connection refused") ∧
    dom (timing r) = {["total"]} ∧
    heap s' = heap empty_state ∧ posts s' = posts empty_state.
Proof.
  apply (process_query_upstream_failure offline_world config mock_query
           empty_state (Exception (lit "Connection refused"))).
  left. reflexivity.
Defined.

Lemma process_query_scorer_down_witness :
  ∃ r s',
    process_query scorer_down_world config mock_query false empty_state
      = (Ok r, s') ∧
    answer r = Some PIPELINE_ERROR_ANSWER ∧ sources r = [] ∧
    error r = Some (lit "CUDA out of memory") ∧
    dom (timing r) = {["vector_search"; "total"]} ∧
    posts s' = posts empty_state.
Proof.
  apply (process_query_scorer_down scorer_down_world config mock_query
           empty_state [Q2Qc 1; Q2Qc 0] mock_rows
           (Exception (lit "CUDA out of memory"))).
  - reflexivity.
  - reflexivity.
  - apply mock_terms_found.
  - by rewrite mock_rows_retained.
  - done.
Defined.

Lemma process_query_error_no_sources_witness :
  ∃ r s',
    process_query timeout_world config mock_query false empty_state = (Ok r, s') ∧
    error r = Some (lit "Ollama request timed out") ∧
    sources r = [].
Proof.
  eexists _, _. split; [vm_compute; reflexivity|]. split; [reflexivity|].
  eapply (process_query_error_no_sources timeout_world config mock_query false
            empty_state).
  - vm_compute. reflexivity.
  - reflexivity.
Defined.

Lemma process_query_sources_bounded_witness :
  ∃ r s',
    process_query healthy_world config mock_query false empty_state = (Ok r, s') ∧
    (Z.of_nat (length (sources r)) ≤ TOP_N_RERANKED config)%Z.
Proof.
  eexists _, _. split; [vm_compute; reflexivity|].
  eapply (process_query_sources_bounded healthy_world config mock_query false
            empty_state).
  - done.
  - vm_compute. reflexivity.
Defined.

Lemma length_scorer_contract : scorer_contract length_scorer_world.
Proof.
  intros pairs. eexists. split; [reflexivity|]. by rewrite length_fmap.
Qed.

Lemma process_query_answers_witness :
  ∃ r s',
    process_query length_scorer_world config mock_query false empty_state
      = (Ok r, s') ∧
    answer r = Some (lit "It is likely safe in food amounts.") ∧
    error r = None ∧
    Z.of_nat (length (sources r))
      = Z.min (TOP_N_RERANKED config) (Z.of_nat (length (retained config mock_rows))) ∧
    descending (src_cross_encoder_score <$> sources r) ∧
    Forall (λ source, ∃ row,
              row ∈ retained config mock_rows ∧
              src_substance_name source = rec_substance_name row ∧
              src_section_name source = rec_section_name row ∧
              src_similarity_score source = rec_score row) (sources r) ∧
    ∃ payload, posts s' = (OLLAMA_API_URL config, payload) :: posts empty_state.
Proof.
  apply (process_query_answers length_scorer_world config mock_query
           empty_state [Q2Qc 1; Q2Qc 0] mock_rows
           (lit "It is likely safe in food amounts.")).
  - reflexivity.
  - reflexivity.
  - apply mock_terms_found.
  - by rewrite mock_rows_retained.
  - done.
  - apply length_scorer_contract.
  - intros payload. eexists. split_and!; [reflexivity|reflexivity|].
    vm_compute. reflexivity.
Defined.

(** *** The query endpoint *)

Lemma query_endpoint_responds_witness :
  let request := {| rq_query := mock_query; rq_verbose := false |} in
  ∃ r s' a total response,
    process_query timeout_world config (rq_query request) false empty_state
      = (Ok r, s') ∧
    routes.process_query config (lit "1 validation error for QueryResponse")
      (Some timeout_world) request empty_state
      = (Ok (Responded response), s') ∧
    answer r = Some a ∧ qr_answer response = a ∧
    qr_error response = error r ∧
    qr_sources response = routes.source_response <$> sources r ∧
    timing r !! "total" = Some total ∧
    tr_total (qr_timing response) = total ∧
    tr_vector_search (qr_timing response) = timing r !! "vector_search" ∧
    tr_reranking (qr_timing response) = timing r !! "reranking" ∧
    tr_llm_generation (qr_timing response) = timing r !! "llm_generation".
Proof.
  apply (query_endpoint_responds timeout_world config
           (lit "1 validation error for QueryResponse")
           {| rq_query := mock_query; rq_verbose := false |} empty_state).
  reflexivity.
Defined.
